(** * ARA antenna response and trigger chain (custom/ara/antenna.py)

    A shallow embedding of [ARAAntenna] and [ARAAntennaSystem].

    Numbers.  Python floats and numpy float64 arrays are modelled by the
    real numbers [R] and by [list R].  Where the rounding of a double
    decides a discrete result it is part of the model: the quotient
    [t_max/dt] whose integer part is the kernel's length (with the literal
    [1e-7] as the double it denotes), and the remainder of [%], which a
    rounded addition can bring up to the modulus itself.  Everywhere else
    the arithmetic is the exact one the code writes down, so sample values
    and gains are stated up to the rounding of their own evaluation.
    Doubles may have any magnitude and arrays any length: overflow to
    infinity (other than by a division by zero) and memory exhaustion are
    outside the model.
    Python ints (the grid angles, sample counts) are [Z] and [nat].

    Exceptions.  A call either returns a value or raises; [result] records
    which, and the state threaded through a raising call is the state at
    the moment of the raise. *)

From Stdlib Require Import String Reals Lra Lia ZArith List Bool.
Import ListNotations.

Open Scope R_scope.

(** ** Exceptions *)

Inductive exn : Type :=
| ValueError
| KeyError
| TypeError
| OverflowError.

Inductive result (A : Type) : Type :=
| Ok (a : A)
| Raise (e : exn).

Arguments Ok {A} a.
Arguments Raise {A} e.

Definition bind {A B : Type} (m : result A) (k : A -> result B) : result B :=
  match m with
  | Ok a => k a
  | Raise e => Raise e
  end.

Notation "x <- m ;; k" := (bind m (fun x => k))
  (at level 61, m at next level, right associativity).

(** ** Python and numpy arithmetic on reals *)

Definition Rltb (x y : R) : bool := if Rlt_dec x y then true else false.

(** [int(x)]: truncation toward zero. *)
Definition py_int (x : R) : Z :=
  if Rle_dec 0 x then Int_part x else (- Int_part (- x))%Z.

(** Rounding to a double: 53 significant bits, to nearest, ties to the
    even significand.  [mag2 x] is the exponent of the binade of [x]
    ([2^e <= |x| < 2^(e+1)]), so the doubles around [x] are the multiples
    of [2^(e-52)].  The exponent range is left unbounded: overflow and
    gradual underflow are not modelled. *)
Definition mag2 (x : R) : Z := Zfloor (ln (Rabs x) / ln 2).

Definition round_half_even (r : R) : Z :=
  let f := Zfloor r in
  if Rlt_dec (r - IZR f) (1 / 2) then f
  else if Rlt_dec (1 / 2) (r - IZR f) then (f + 1)%Z
  else if Z.even f then f else (f + 1)%Z.

Definition float64 (x : R) : R :=
  if Req_dec_T x 0 then 0
  else
    let e := (mag2 x - 52)%Z in
    IZR (round_half_even (x * powerRZ 2 (- e))) * powerRZ 2 e.

(** C's [fmod]: the remainder of the truncated quotient, with the sign
    of [x]; it is exact. *)
Definition c_fmod (x y : R) : R := x - IZR (py_int (x / y)) * y.

(** [x % y] on floats, as Python and numpy compute it for [y <> 0]:
    [fmod], then [mod += y] when the remainder is not zero and its sign
    differs from that of [y].  That addition is rounded, so a tiny
    negative [x] gives [y] itself. *)
Definition py_fmod (x y : R) : R :=
  let md := c_fmod x y in
  if Req_dec_T md 0 then 0
  else if xorb (Rltb y 0) (Rltb md 0) then float64 (md + y)
  else md.

(** [np.degrees]. *)
Definition np_degrees (x : R) : R := x * (180 / PI).

(** [np.clip(x, a_min=lo, a_max=hi)] on one sample: [minimum(maximum(x, lo), hi)]. *)
Definition np_clip (lo hi x : R) : R := Rmin (Rmax x lo) hi.

Definition np_sum (l : list R) : R := fold_right Rplus 0 l.

(** [np.mean]; the mean of an empty array is not a number and is left
    out of every statement (the length is a hypothesis where it matters). *)
Definition np_mean (l : list R) : R := np_sum l / INR (length l).

(** [np.min] and [np.max] raise [ValueError] on an empty array. *)
Definition np_min (l : list R) : result R :=
  match l with
  | [] => Raise ValueError
  | x :: t => Ok (fold_left Rmin t x)
  end.

Definition np_max (l : list R) : result R :=
  match l with
  | [] => Raise ValueError
  | x :: t => Ok (fold_left Rmax t x)
  end.

(** [np.linspace(0, stop, num)]: [num] points with step [stop/(num-1)]. *)
Definition np_linspace0 (stop : R) (num : nat) : list R :=
  map (fun i => INR i * (stop / INR (num - 1))) (seq 0 num).

(** [scipy.signal.convolve(a, b, mode='full')]: sample [n] is the sum of
    [a[k]*b[n-k]] over the indices where both exist. *)
Definition conv_at (a b : list R) (n : nat) : R :=
  np_sum (map (fun k => nth k a 0 * nth (n - k) b 0) (seq 0 (S n))).

Definition convolve (a b : list R) : list R :=
  map (conv_at a b) (seq 0 (length a + length b - 1)).


(** ** Dictionaries

    A Python dict as an association list with at most one entry per key;
    [dict_set] is [d[k] = v] and [dict_get] is the lookup that [d[k]]
    turns into [KeyError] when it finds nothing. *)

Section Dict.
Context {K V : Type} (eqb : K -> K -> bool).

Fixpoint dict_get (k : K) (d : list (K * V)) : option V :=
  match d with
  | [] => None
  | (k', v) :: d' => if eqb k k' then Some v else dict_get k d'
  end.

Fixpoint dict_set (k : K) (v : V) (d : list (K * V)) : list (K * V) :=
  match d with
  | [] => [(k, v)]
  | (k', v') :: d' =>
      if eqb k k' then (k, v) :: d' else (k', v') :: dict_set k v d'
  end.

Definition dict_getitem (k : K) (d : list (K * V)) : result V :=
  match dict_get k d with
  | Some v => Ok v
  | None => Raise KeyError
  end.
End Dict.

(** ** Signals (pyrex.signals.Signal)

    The Signal class is imported from the PyREx framework; this module
    only constructs and reads waveforms. *)

(** Modelled from the spec: the value-type tag of a waveform.  Voltage
    and field are the types [receive] accepts; power and undefined stand
    for every other tag. *)
Inductive ValueTypes : Type := undefined | voltage | field | power.

Definition ValueTypes_eqb (a b : ValueTypes) : bool :=
  match a, b with
  | undefined, undefined | voltage, voltage
  | field, field | power, power => true
  | _, _ => false
  end.

(** Modelled from the spec: the waveform carrier, with its sample times,
    sample values and value type. *)
Record Signal : Type := mkSignal {
  times : list R;
  values : list R;
  value_type : ValueTypes
}.

(** Modelled from the spec: Signal's constructor gives [values] the
    length of [times], by slicing (the comment in [tunnel_diode] relies
    on it) or by zero padding. *)
Definition fit_length (n : nat) (vals : list R) : list R :=
  firstn n vals ++ repeat 0 (n - length vals).

Definition Signal_new (ts vals : list R) (vt : ValueTypes) : Signal :=
  mkSignal ts (fit_length (length ts) vals) vt.

(** Modelled from the spec: [dt], the sample spacing of a uniformly
    sampled waveform, read off its first two times; a waveform with
    fewer than two samples has none. *)
Definition Signal_dt (s : Signal) : option R :=
  match times s with
  | t0 :: t1 :: _ => Some (t1 - t0)
  | _ => None
  end.

(** Element-wise array arithmetic. *)
Definition arr_scale (c : R) (a : list R) : list R := map (Rmult c) a.

Fixpoint arr_add (a b : list R) : list R :=
  match a, b with
  | x :: a', y :: b' => (x + y) :: arr_add a' b'
  | _, _ => []
  end.

(** ** The antenna (class ARAAntenna) *)

Definition vec : Type := (R * R * R)%type.

Definition np_vdot (a b : vec) : R :=
  let '(a1, a2, a3) := a in
  let '(b1, b2, b3) := b in
  a1 * b1 + a2 * b2 + a3 * b3.

(** Keys of the response table: [(freq, theta, phi)], values [(gain, phase)]. *)
Definition response_key : Type := (R * Z * Z)%type.

Definition response_key_eqb (k k' : response_key) : bool :=
  let '(f, th, ph) := k in
  let '(f', th', ph') := k' in
  (if Req_dec_T f f' then true else false) && Z.eqb th th' && Z.eqb ph ph'.

Definition response_table : Type := list (response_key * (R * R)).

(** The attributes of an [ARAAntenna] that this module reads or writes.
    [antenna_factor], [efficiency], [resistance], [z_axis], [response],
    [make_noise] and [_convert_to_antenna_coordinates] are supplied by the
    base class [pyrex.antenna.Antenna]. *)
Record ARAAntenna : Type := mkARAAntenna {
  effective_height : R;
  antenna_factor : R;
  efficiency : R;
  resistance : R;
  z_axis : vec;
  response : list R -> list R;
  make_noise : list R -> Signal;
  _convert_to_antenna_coordinates : vec -> R * R * R;
  _response_data : option response_table;
  _response_freqs : option (list R);
  signals : list Signal
}.

Definition set_signals (a : ARAAntenna) (l : list Signal) : ARAAntenna :=
  mkARAAntenna (effective_height a) (antenna_factor a) (efficiency a)
    (resistance a) (z_axis a) (response a) (make_noise a)
    (_convert_to_antenna_coordinates a) (_response_data a)
    (_response_freqs a) l.

(** [polarization_gain]: the dot product with the antenna's z-axis. *)
Definition polarization_gain (self : ARAAntenna) (polarization : vec) : R :=
  np_vdot (z_axis self) polarization.

(** The angle handling of [generate_freq_gains]: both angles in degrees
    and reduced, the enclosing 5-degree cell, the interpolation weights
    (taken before the upper corners are wrapped), then the wrapped upper
    corners.  Returns
    [(theta_under, theta_over, phi_under, phi_over, t, u)]. *)
Definition grid_cell (theta phi : R) : Z * Z * Z * Z * R * R :=
  let theta := py_fmod (np_degrees theta) 180 in
  let phi := py_fmod (np_degrees phi) 360 in
  let theta_under := (5 * py_int (theta / 5))%Z in
  let theta_over := (5 * (py_int (theta / 5) + 1))%Z in
  let phi_under := (5 * py_int (phi / 5))%Z in
  let phi_over := (5 * (py_int (phi / 5) + 1))%Z in
  let t := (theta - IZR theta_under) / IZR (theta_over - theta_under) in
  let u := (phi - IZR phi_under) / IZR (phi_over - phi_under) in
  let theta_over := (theta_over mod 180)%Z in
  let phi_over := (phi_over mod 360)%Z in
  (theta_under, theta_over, phi_under, phi_over, t, u).

(** The loop over [self._response_freqs]: four table lookups per
    frequency, keeping the gain (component 0) of each entry.  Returns
    [(gain_ij, gain_i1j, gain_ij1, gain_i1j1)]. *)
Fixpoint fetch_corner_gains (data : response_table)
    (theta_under theta_over phi_under phi_over : Z) (freqs : list R)
  : result (list R * list R * list R * list R) :=
  match freqs with
  | [] => Ok ([], [], [], [])
  | freq :: rest =>
      e_ij <- dict_getitem response_key_eqb (freq, theta_under, phi_under) data ;;
      e_i1j <- dict_getitem response_key_eqb (freq, theta_over, phi_under) data ;;
      e_ij1 <- dict_getitem response_key_eqb (freq, theta_under, phi_over) data ;;
      e_i1j1 <- dict_getitem response_key_eqb (freq, theta_over, phi_over) data ;;
      r <- fetch_corner_gains data theta_under theta_over phi_under phi_over rest ;;
      let '(gain_ij, gain_i1j, gain_ij1, gain_i1j1) := r in
      Ok (fst e_ij :: gain_ij, fst e_i1j :: gain_i1j,
          fst e_ij1 :: gain_ij1, fst e_i1j1 :: gain_i1j1)
  end.

(** [generate_freq_gains]: arrays of frequencies and gains for given angles. *)
Definition generate_freq_gains (self : ARAAntenna) (theta phi : R)
  : result (list R * list R) :=
  match _response_data self with
  | None => Ok ([1], [1])
  | Some data =>
      let '(theta_under, theta_over, phi_under, phi_over, t, u) :=
        grid_cell theta phi in
      match _response_freqs self with
      | None => Raise TypeError
      | Some response_freqs =>
          r <- fetch_corner_gains data theta_under theta_over
                 phi_under phi_over response_freqs ;;
          let '(gain_ij, gain_i1j, gain_ij1, gain_i1j1) := r in
          let freqs := response_freqs in
          let gains :=
            arr_add (arr_add (arr_add
              (arr_scale ((1 - t) * (1 - u)) gain_ij)
              (arr_scale (t * (1 - u)) gain_i1j))
              (arr_scale ((1 - t) * u) gain_ij1))
              (arr_scale (t * u) gain_i1j1) in
          Ok (freqs, gains)
      end
  end.

(** ** The tunnel-diode constants ([_td_args], fixed when the class is defined) *)

Open Scope string_scope.

Definition td_tuple (d : list (string * list R)) (name : string) : list R :=
  match dict_get String.eqb name d with
  | Some tup => tup
  | None => []
  end.

Definition td_item (d : list (string * list R)) (name : string) (i : nat) : R :=
  nth i (td_tuple d name) 0.

Definition _td_args_literal : list (string * list R) :=
  [ ("down1", [-0.8; 15e-9; 2.3e-9; 0]);
    ("down2", [-0.2; 15e-9; 4e-9; 0]);
    ("up", [1; 18e-9; 7e-9; 1e9]) ].

(** [_td_args['up'] = (<amplitude>,) + _td_args['up'][1:]]. *)
Definition _td_args : list (string * list R) :=
  let d := _td_args_literal in
  dict_set String.eqb "up"
    (([ - sqrt (2 * PI) *
       (td_item d "down1" 0 * td_item d "down1" 2 +
        td_item d "down2" 0 * td_item d "down2" 2) /
       (2e18 * td_item d "up" 2 ^ 3) ] ++ skipn 1 (td_tuple d "up"))%list) d.

Definition _td_fdown1 (x : R) : R :=
  td_item _td_args "down1" 3 + td_item _td_args "down1" 0 *
    exp (- (x - td_item _td_args "down1" 1) ^ 2 /
         (2 * td_item _td_args "down1" 2 ^ 2)).

Definition _td_fdown2 (x : R) : R :=
  td_item _td_args "down2" 3 + td_item _td_args "down2" 0 *
    exp (- (x - td_item _td_args "down2" 1) ^ 2 /
         (2 * td_item _td_args "down2" 2 ^ 2)).

Definition _td_fup (x : R) : R :=
  td_item _td_args "up" 0 *
    (td_item _td_args "up" 3 * (x - td_item _td_args "up" 1)) ^ 2 *
    exp (- (x - td_item _td_args "up" 1) / td_item _td_args "up" 2).

(** One sample of [diode_resp]: both down lobes, and the up lobe where
    [times > _td_args['up'][1]]. *)
Definition diode_resp_at (x : R) : R :=
  if Rltb (td_item _td_args "up" 1) x
  then _td_fdown1 x + _td_fdown2 x + _td_fup x
  else _td_fdown1 x + _td_fdown2 x.

Close Scope string_scope.

(** ** Code that goes through the framework

    The framework pieces this module calls but does not define are taken
    as they are: [Signal]'s default value type (what a [Signal(times,
    values)] built without [value_type] carries), [Signal.filter_frequencies],
    [np.interp] and [pyrex.internal_functions.normalize].  They are
    assumed to return; nothing else is assumed about them. *)

Section Framework.

Variable Signal_default_type : ValueTypes.
Variable filter_frequencies : Signal -> (list R -> list R) -> Signal.
Variable np_interp : list R -> list R -> list R -> list R.
Variable normalize : vec -> vec.

(** [copy.values *= signal_factor]. *)
Definition scale_values (s : Signal) (c : R) : Signal :=
  mkSignal (times s) (map (fun v => v * c) (values s)) (value_type s).

(** [ARAAntenna.receive]; the returned antenna is [self] afterwards. *)
Definition receive (self : ARAAntenna) (signal : Signal)
    (origin polarization : option vec) : ARAAntenna * result unit :=
  let copy := Signal_new (times signal) (values signal) voltage in
  let copy := filter_frequencies copy (response self) in
  let filtered :=
    match origin with
    | None => Ok copy
    | Some o =>
        let '(r, theta, phi) := _convert_to_antenna_coordinates self o in
        fg <- generate_freq_gains self theta phi ;;
        let '(freq_data, gain_data) := fg in
        let interpolated_response :=
          fun frequencies => np_interp frequencies freq_data gain_data in
        Ok (filter_frequencies copy interpolated_response)
    end in
  match filtered with
  | Raise e => (self, Raise e)
  | Ok copy =>
      let p_gain :=
        match polarization with
        | None => 1
        | Some p => polarization_gain self (normalize p)
        end in
      let signal_factor := p_gain * efficiency self in
      match value_type signal with
      | voltage =>
          let copy := scale_values copy signal_factor in
          (set_signals self (signals self ++ [copy]), Ok tt)
      | field =>
          let signal_factor := signal_factor / antenna_factor self in
          let copy := scale_values copy signal_factor in
          (set_signals self (signals self ++ [copy]), Ok tt)
      | _ => (self, Raise ValueError)
      end
  end.

(** ** The antenna system (class ARAAntennaSystem) *)

Record ARAAntennaSystem : Type := mkARAAntennaSystem {
  antenna : ARAAntenna;
  amplification : R;
  amplifier_clipping : R;
  power_threshold : R;
  _power_mean : R;
  _power_rms : R
}.

(** Attribute assignments on an existing system. *)
Definition set_power_threshold (self : ARAAntennaSystem) (thr : R)
  : ARAAntennaSystem :=
  mkARAAntennaSystem (antenna self) (amplification self)
    (amplifier_clipping self) thr (_power_mean self) (_power_rms self).

Definition set_amplifier (self : ARAAntennaSystem) (amp clip : R)
  : ARAAntennaSystem :=
  mkARAAntennaSystem (antenna self) amp clip (power_threshold self)
    (_power_mean self) (_power_rms self).

(** [setup_antenna]; [ant] is the [ARAAntenna] that the base class's
    [setup_antenna] has just constructed and stored. *)
Definition setup_antenna (self : ARAAntennaSystem) (ant : ARAAntenna)
  : ARAAntennaSystem :=
  let long_noise := make_noise ant (np_linspace0 1e-6 (Z.to_nat 10001)) in
  mkARAAntennaSystem ant (amplification self) (amplifier_clipping self)
    (power_threshold self)
    (np_mean (values long_noise))
    (sqrt (np_mean (map (fun v => v ^ 2) (values long_noise)))).

(** [__init__]: the calibration fields and the threshold do not exist
    before they are assigned; the zeros stand for them until then and
    are never read. *)
Definition ARAAntennaSystem_init (ant : ARAAntenna)
    (power_threshold0 amplification0 amplifier_clipping0 : R)
  : ARAAntennaSystem :=
  let self := mkARAAntennaSystem ant amplification0 amplifier_clipping0 0 0 0 in
  let self := setup_antenna self ant in
  set_power_threshold self power_threshold0.

(** The kernel [diode_resp] on [times = np.linspace(0, t_max, n_pts+1)]. *)
Definition diode_resp (t_max : R) (n_pts : Z) : list R :=
  map diode_resp_at (np_linspace0 t_max (Z.to_nat (n_pts + 1))).

(** [tunnel_diode].  [t_max] is the double that the literal [1e-7]
    denotes and [t_max/signal.dt] a double again, of which [int] takes
    the integer part.  A signal with fewer than two samples has no [dt]
    ([t_max/None] is a [TypeError]); [dt = 0] makes [int] overflow; a
    negative [n_pts] leaves [np.linspace] or the convolution without
    samples. *)
Definition tunnel_diode (self : ARAAntennaSystem) (signal : Signal)
  : result Signal :=
  if negb (ValueTypes_eqb (value_type signal) voltage)
  then Raise ValueError
  else
    let t_max := float64 1e-7 in
    match Signal_dt signal with
    | None => Raise TypeError
    | Some dt =>
        if Req_dec_T dt 0 then Raise OverflowError
        else
          let n_pts := py_int (float64 (t_max / dt)) in
          if (n_pts <? 0)%Z then Raise ValueError
          else
            let conv :=
              convolve
                (map (fun v => v ^ 2 / resistance (antenna self)) (values signal))
                (diode_resp t_max n_pts) in
            Ok (Signal_new (times signal) (map (fun c => c * dt) conv)
                  Signal_default_type)
    end.

(** [front_end]: amplification and clipping. *)
Definition front_end (self : ARAAntennaSystem) (signal : Signal) : Signal :=
  let amplified_values :=
    map (fun v => np_clip (- amplifier_clipping self) (amplifier_clipping self)
                    (v * amplification self))
        (values signal) in
  Signal_new (times signal) amplified_values Signal_default_type.

(** The trigger band computed by [trigger]. *)
Definition low_trigger (self : ARAAntennaSystem) : R :=
  _power_mean self - _power_rms self * Rabs (power_threshold self).

Definition high_trigger (self : ARAAntennaSystem) : R :=
  _power_mean self + _power_rms self * Rabs (power_threshold self).

(** The band comparison of [trigger] on the diode output's samples;
    [or] evaluates its right operand only when the left one is false. *)
Definition trigger_decision (self : ARAAntennaSystem) (power_values : list R)
  : result bool :=
  lo <- np_min power_values ;;
  if Rltb lo (low_trigger self) then Ok true
  else hi <- np_max power_values ;; Ok (Rltb (high_trigger self) hi).

(** [trigger]. *)
Definition trigger (self : ARAAntennaSystem) (signal : Signal) : result bool :=
  power_signal <- tunnel_diode self signal ;;
  trigger_decision self (values power_signal).

(** The chain the specification describes for [trigger]: [front_end]
    first, [tunnel_diode] on its output, then the same comparison. *)
Definition trigger_front_end_first (self : ARAAntennaSystem) (signal : Signal)
  : result bool :=
  power_signal <- tunnel_diode self (front_end self signal) ;;
  trigger_decision self (values power_signal).

End Framework.

(** ** Concrete antennas, systems and waveforms *)

(** An antenna with no response table: unit efficiency and antenna
    factor, 100 ohm, an all-pass [response], silent noise. *)
Definition bare_antenna : ARAAntenna :=
  mkARAAntenna 1 1 1 100 (0, 0, 1) (fun fs => map (fun _ => 1) fs)
    (fun ts => Signal_new ts [] voltage)
    (fun _ => (1, 0, 0)) None None [].

(** A system around [bare_antenna] with calibration mean 0, rms 1 and
    threshold 5, default amplification 1 and clipping 3. *)
Definition unit_band_system : ARAAntennaSystem :=
  mkARAAntennaSystem bare_antenna 1 3 5 0 1.

(** ** The data model's invariant on a response table

    Every frequency of the antenna, with every 5-degree polar angle in
    [0, 180) and every 5-degree azimuth in [0, 360), has an entry. *)
Definition rectangular (data : response_table) (freqs : list R) : Prop :=
  forall (f : R) (i j : Z),
    In f freqs -> (0 <= i < 36)%Z -> (0 <= j < 72)%Z ->
    exists e, dict_get response_key_eqb (f, 5 * i, 5 * j)%Z data = Some e.

(** The gain stored at a key (0 where, against the invariant, there is none). *)
Definition gain_at (data : response_table) (f : R) (theta phi : Z) : R :=
  match dict_get response_key_eqb (f, theta, phi) data with
  | Some e => fst e
  | None => 0
  end.

(** The bilinear blend of four corner gains. *)
Definition blend (t u g00 g10 g01 g11 : R) : R :=
  (1 - t) * (1 - u) * g00 + t * (1 - u) * g10 +
  (1 - t) * u * g01 + t * u * g11.

(** A rectangular table at one frequency [f]: gain [g theta phi], phase 0. *)
Definition grid_rows (f : R) (g : Z -> Z -> R) (i : nat) : response_table :=
  map (fun j => ((f, 5 * Z.of_nat i, 5 * Z.of_nat j)%Z,
                 (g (5 * Z.of_nat i)%Z (5 * Z.of_nat j)%Z, 0)))
      (seq 0 72).

Definition grid_table (f : R) (g : Z -> Z -> R) : response_table :=
  flat_map (grid_rows f g) (seq 0 36).

(** A 300 MHz table whose gain grows with both angles, and an antenna
    carrying it. *)
Definition ramp_table : response_table :=
  grid_table 3e8 (fun theta phi => IZR theta + IZR phi / 1000).

Definition ramp_antenna : ARAAntenna :=
  mkARAAntenna 1 1 1 100 (0, 0, 1) (fun fs => map (fun _ => 1) fs)
    (fun ts => Signal_new ts [] voltage)
    (fun _ => (1, PI / 36, PI / 18)) (Some ramp_table) (Some [3e8]) [].

(** Four samples at 5 ns spacing, the first of height [v]. *)
Definition impulse (v : R) (vt : ValueTypes) : Signal :=
  mkSignal [0; 5e-9; 10e-9; 15e-9] [v; 0; 0; 0] vt.

(** A 10 V voltage pulse. *)
Definition pulse_signal : Signal := impulse 10 voltage.

(** An antenna whose noise model returns the constant voltage [c] on the
    requested times, and the system [__init__] builds around it. *)
Definition hum_antenna (c : R) : ARAAntenna :=
  mkARAAntenna 1 1 1 100 (0, 0, 1) (fun fs => map (fun _ => 1) fs)
    (fun ts => Signal_new ts (map (fun _ => c) ts) voltage)
    (fun _ => (1, 0, 0)) None None [].

(** Threshold 10, amplification 1, clipping 3 (the defaults), noise 0.1 nV. *)
Definition hum_system : ARAAntennaSystem :=
  ARAAntennaSystem_init (hum_antenna 1e-10) 10 1 3.

(** The same with 1 V of noise. *)
Definition loud_system : ARAAntennaSystem :=
  ARAAntennaSystem_init (hum_antenna 1) 10 1 3.

(** The four corner entries of a cell exist for frequency [f]. *)
Definition corners_present (data : response_table) (f : R)
    (theta_under theta_over phi_under phi_over : Z) : Prop :=
  dict_get response_key_eqb (f, theta_under, phi_under) data <> None /\
  dict_get response_key_eqb (f, theta_over, phi_under) data <> None /\
  dict_get response_key_eqb (f, theta_under, phi_over) data <> None /\
  dict_get response_key_eqb (f, theta_over, phi_over) data <> None.

(** A table with the same keys and gains and other phases. *)
Definition rephase (ph : response_key -> R -> R) (data : response_table)
  : response_table :=
  map (fun entry => (fst entry, (fst (snd entry), ph (fst entry) (snd (snd entry)))))
      data.

Definition set_response_data (a : ARAAntenna) (d : option response_table)
  : ARAAntenna :=
  mkARAAntenna (effective_height a) (antenna_factor a) (efficiency a)
    (resistance a) (z_axis a) (response a) (make_noise a)
    (_convert_to_antenna_coordinates a) d (_response_freqs a) (signals a).

(** A table that has lost all its rows but kept its frequency. *)
Definition gutted_antenna : ARAAntenna :=
  set_response_data ramp_antenna (Some []).


(** ** Construction of the antenna ([ARAAntenna.__init__]) *)

(** [np.cross] on 3-vectors. *)
Definition np_cross (a b : vec) : vec :=
  let '(a1, a2, a3) := a in
  let '(b1, b2, b3) := b in
  (a2 * b3 - a3 * b2, a3 * b1 - a1 * b3, a1 * b2 - a2 * b1).

(** [np.array_equal(v, (0,0,0))]. *)
Definition is_zero_vec (v : vec) : bool :=
  let '(x, y, z) := v in
  (if Req_dec_T x 0 then true else false) &&
  (if Req_dec_T y 0 then true else false) &&
  (if Req_dec_T z 0 then true else false).

(** The loop that looks for a vector not parallel to the orientation:
    [tmp_vector] is redrawn while its cross product with the orientation
    vanishes.  [draws] is what successive calls of [np.random.rand(3)]
    return; [None] means they ran out with the loop still going. *)
Fixpoint draw_tmp_vector (orientation : vec) (draws : list vec) (tmp_vector : vec)
  : option vec :=
  if is_zero_vec (np_cross orientation tmp_vector) then
    match draws with
    | [] => None
    | d :: rest => draw_tmp_vector orientation rest d
    end
  else Some tmp_vector.

(** [ortho], starting from [tmp_vector = np.zeros(3)]. *)
Definition init_ortho (orientation : vec) (draws : list vec) : option vec :=
  match draw_tmp_vector orientation draws (0, 0, 0) with
  | Some tmp_vector => Some (np_cross orientation tmp_vector)
  | None => None
  end.

(** A Python set of floats, as the list of its members without repeats;
    [set_add] is [s.add(x)]. *)
Definition set_add (x : R) (s : list R) : list R :=
  if in_dec Req_dec_T x s then s else s ++ [x].

(** The frequencies of the antenna: those given, or else the first
    components of the table's keys. *)
Definition init_response_freqs (response_data : option response_table)
    (response_freqs : option (list R)) : option (list R) :=
  match response_freqs, response_data with
  | None, Some data =>
      Some (fold_left (fun s entry => set_add (fst (fst (fst entry))) s) data [])
  | _, _ => response_freqs
  end.

(** An antenna built on an empty response table: the constructor derives
    its (empty) frequency set from the table's keys. *)
Definition empty_table_antenna : ARAAntenna :=
  mkARAAntenna 1 1 1 100 (0, 0, 1) (fun fs => map (fun _ => 1) fs)
    (fun ts => Signal_new ts [] voltage)
    (fun _ => (1, 0, 0)) (Some []) (init_response_freqs (Some []) None) [].

(** What [__init__] hands to the base class and keeps for itself. *)
Record AntennaArgs : Type := mkAntennaArgs {
  arg_position : vec;
  arg_z_axis : vec;
  arg_x_axis : vec;
  arg_antenna_factor : R;
  arg_temperature : R;
  arg_freq_range : R * R;
  arg_resistance : R;
  arg_noisy : bool;
  own_effective_height : R;
  own_response_data : option response_table;
  own_response_freqs : option (list R)
}.

Inductive init_outcome : Type :=
| Constructed (args : AntennaArgs)
| ZeroDivisionError
| StillDrawing.

(** [ARAAntenna.__init__] up to and including the call of the base
    class's constructor; [IceModel_temperature] is the ice model's
    temperature at a depth.  Dividing by a zero float raises
    [ZeroDivisionError]. *)
Definition ARAAntenna_init (IceModel_temperature : R -> R)
    (position : vec) (center_frequency bandwidth resistance0 : R)
    (orientation : vec) (effective_height0 : option R)
    (response_data : option response_table)
    (response_freqs : option (list R)) (noisy : bool) (draws : list vec)
  : init_outcome :=
  match
    match effective_height0 with
    | None =>
        if Req_dec_T center_frequency 0 then None
        else Some (3e8 / center_frequency / 2)
    | Some h => Some h
    end
  with
  | None => ZeroDivisionError
  | Some height =>
      let f_low := center_frequency - bandwidth / 2 in
      let f_high := center_frequency + bandwidth / 2 in
      match init_ortho orientation draws with
      | None => StillDrawing
      | Some ortho =>
          if Req_dec_T height 0 then ZeroDivisionError
          else
            Constructed
              (mkAntennaArgs position orientation ortho (1 / height)
                 (IceModel_temperature (snd position)) (f_low, f_high)
                 resistance0 noisy height response_data
                 (init_response_freqs response_data response_freqs))
      end
  end.

(** ** Reading a response file ([read_response_data]) *)

Module Reader.

(** The exceptions the reader's own code can raise. *)
Inductive exn : Type := ValueError | IndexError.

Inductive outcome (A : Type) : Type :=
| Return (a : A)
| Raised (e : exn).

Arguments Return {A} a.
Arguments Raised {A} e.

Definition bind {A B : Type} (m : outcome A) (k : A -> outcome B) : outcome B :=
  match m with
  | Return a => k a
  | Raised e => Raised e
  end.

Notation "x <~ m ;; k" := (bind m (fun x => k))
  (at level 61, m at next level, right associativity).

(** Whitespace of [str.split()] among ASCII characters: tab, line feed,
    vertical tab, form feed, carriage return, the four separators
    0x1c-0x1f and the space. *)
Definition is_space (c : Ascii.ascii) : bool :=
  let n := Ascii.nat_of_ascii c in
  ((9 <=? n)%nat && (n <=? 13)%nat) || ((28 <=? n)%nat && (n <=? 32)%nat).

(** [line.split()] on a line of ASCII text: the maximal runs of
    non-whitespace characters; [word] is the run being read. *)
Fixpoint split_from (word : string) (s : string) : list string :=
  match s with
  | EmptyString => if String.eqb word "" then [] else [word]
  | String c rest =>
      if is_space c then
        if String.eqb word "" then split_from "" rest
        else word :: split_from "" rest
      else split_from (word ++ String c "")%string rest
  end.

Definition split (line : string) : list string := split_from "" line.

(** [words[-k]] for [k >= 1]. *)
Definition from_end (words : list string) (k : nat) : outcome string :=
  if (k <=? length words)%nat
  then Return (nth (length words - k) words ""%string)
  else Raised IndexError.

Section Numbers.

(** [float(s)] and [int(s)] on a word: the number, or [None] where
    Python raises [ValueError]. *)
Variable py_float : string -> option R.
Variable py_int : string -> option Z.

Definition float (s : string) : outcome R :=
  match py_float s with
  | Some x => Return x
  | None => Raised ValueError
  end.

Definition int (s : string) : outcome Z :=
  match py_int s with
  | Some x => Return x
  | None => Raised ValueError
  end.

(** The local variables that live across lines. *)
Record state : Type := mkState {
  data : response_table;
  freqs : list R;
  freq : R
}.

(** [freq = 1], then the unit's factor. *)
Definition unit_scale (unit : string) : outcome R :=
  if String.eqb unit "Hz" then Return 1
  else if String.eqb unit "kHz" then Return (1 * 1e3)
  else if String.eqb unit "MHz" then Return (1 * 1e6)
  else if String.eqb unit "GHz" then Return (1 * 1e9)
  else Raised ValueError.

(** The body of the loop over the file's lines. *)
Definition read_line (st : state) (line : string) : outcome state :=
  let words := split line in
  if String.prefix "freq" line then
    unit <~ from_end words 1 ;;
    scale <~ unit_scale unit ;;
    word <~ from_end words 2 ;;
    value <~ float word ;;
    let freq' := scale * value in
    Return (mkState (data st) (set_add freq' (freqs st)) freq')
  else if String.prefix "SWR" line then
    word <~ from_end words 1 ;;
    swr <~ float word ;;
    Return st
  else if (length words =? 5)%nat &&
          negb (String.eqb (nth 0 words ""%string) "Theta") then
    theta <~ int (nth 0 words ""%string) ;;
    phi <~ int (nth 1 words ""%string) ;;
    db_gain <~ float (nth 2 words ""%string) ;;
    gain <~ float (nth 3 words ""%string) ;;
    phase <~ float (nth 4 words ""%string) ;;
    Return (mkState
              (dict_set response_key_eqb (freq st, theta, phi) (gain, phase)
                 (data st))
              (freqs st) (freq st))
  else Return st.

Fixpoint read_lines (st : state) (lines : list string) : outcome state :=
  match lines with
  | [] => Return st
  | line :: rest => st' <~ read_line st line ;; read_lines st' rest
  end.

(** [read_response_data], on the lines of the file. *)
Definition read_response_data (lines : list string)
  : outcome (response_table * list R) :=
  st <~ read_lines (mkState [] [] 0) lines ;;
  Return (data st, freqs st).

End Numbers.

End Reader.

(** A number reader that knows the few literals of the sample file. *)
Definition sample_float (s : string) : option R :=
  if String.eqb s "500.0" then Some 500
  else if String.eqb s "-3.0" then Some (-3)
  else if String.eqb s "0.5" then Some 0.5
  else if String.eqb s "10.0" then Some 10
  else if String.eqb s "1.5" then Some 1.5
  else None.

Definition sample_int (s : string) : option Z :=
  if String.eqb s "0" then Some 0%Z
  else if String.eqb s "5" then Some 5%Z
  else None.

(** The line feed that ends every line of a file. *)
Definition nl : string := String (Ascii.ascii_of_nat 10) EmptyString.

(** The frequencies are a set, and every key of the table is filed under
    0 or under one of them. *)
Definition filed (st : Reader.state) : Prop :=
  NoDup (Reader.freqs st) /\
  (Reader.freq st = 0 \/ In (Reader.freq st) (Reader.freqs st)) /\
  forall f theta phi e, In ((f, theta, phi), e) (Reader.data st) ->
    f = 0 \/ In f (Reader.freqs st).

(** The two lines of the sample file, and the state before them. *)
Definition sample_freq_line : string := ("freq 500.0 MHz" ++ nl)%string.

Definition sample_row_line : string := ("0 0 -3.0 0.5 10.0" ++ nl)%string.


(** * Properties *)

(** ** Rounding to a double: powers of two *)

Lemma pow2_pos (k : Z) : 0 < powerRZ 2 k.
Proof. apply powerRZ_lt. lra. Qed.

Lemma pow2_add (a b : Z) : powerRZ 2 (a + b) = powerRZ 2 a * powerRZ 2 b.
Proof. apply powerRZ_add. lra. Qed.

Lemma pow2_nonneg_exp (k : Z) : (0 <= k)%Z -> powerRZ 2 k = IZR (2 ^ k).
Proof.
  intro Hk. rewrite <- (Z2Nat.id k Hk) at 1.
  rewrite <- pow_powerRZ, pow_IZR, Z2Nat.id by exact Hk. reflexivity.
Qed.

Lemma pow2_neg_exp (k : Z) : (0 <= k)%Z -> powerRZ 2 (- k) = / IZR (2 ^ k).
Proof. intro Hk. now rewrite powerRZ_neg', pow2_nonneg_exp. Qed.

Lemma pow2_ge_1 (k : Z) : (0 <= k)%Z -> 1 <= powerRZ 2 k.
Proof.
  intro Hk. rewrite pow2_nonneg_exp by exact Hk. apply IZR_le.
  pose proof (Z.pow_pos_nonneg 2 k ltac:(lia) Hk). lia.
Qed.

Lemma pow2_le (a b : Z) : (a <= b)%Z -> powerRZ 2 a <= powerRZ 2 b.
Proof.
  intro H. replace b with (a + (b - a))%Z by lia. rewrite pow2_add.
  pose proof (pow2_pos a). pose proof (pow2_ge_1 (b - a) ltac:(lia)). nra.
Qed.

Lemma pow2_lt_inv (a b : Z) : powerRZ 2 a < powerRZ 2 b -> (a < b)%Z.
Proof.
  intro H. destruct (Z.lt_ge_cases a b) as [|Hge]; [assumption|].
  pose proof (pow2_le b a Hge). lra.
Qed.

Lemma pow2_cancel (e : Z) : powerRZ 2 (- e) * powerRZ 2 e = 1.
Proof. rewrite <- pow2_add. replace (- e + e)%Z with 0%Z by lia. reflexivity. Qed.

(** ** The binade of a real *)

Lemma ln2_pos : 0 < ln 2.
Proof. pose proof ln_lt_2. lra. Qed.

Lemma ln_pow2 (e : Z) : ln (powerRZ 2 e) = IZR e * ln 2.
Proof. rewrite powerRZ_Rpower by lra. unfold Rpower. apply ln_exp. Qed.

Lemma ln_le_compat (x y : R) : 0 < x -> x <= y -> ln x <= ln y.
Proof.
  intros Hx [Hlt | ->]; [|lra]. apply Rlt_le. now apply ln_increasing.
Qed.

Lemma mag2_unique (x : R) (e : Z) :
  powerRZ 2 e <= Rabs x < powerRZ 2 (e + 1) -> mag2 x = e.
Proof.
  intros [Hlo Hhi]. unfold mag2. apply Zfloor_eq.
  pose proof ln2_pos as H2. pose proof (pow2_pos e) as He.
  pose proof (ln_le_compat _ _ He Hlo) as H1.
  assert (H3 : ln (Rabs x) < ln (powerRZ 2 (e + 1)))
    by (apply ln_increasing; lra).
  rewrite ln_pow2 in H1, H3. rewrite plus_IZR in H3.
  split.
  - apply Rmult_le_reg_r with (ln 2); [exact H2|].
    unfold Rdiv. rewrite Rmult_assoc, Rinv_l by lra. lra.
  - apply Rmult_lt_reg_r with (ln 2); [exact H2|].
    unfold Rdiv. rewrite Rmult_assoc, Rinv_l by lra. lra.
Qed.

Lemma mag2_spec (x : R) :
  x <> 0 -> powerRZ 2 (mag2 x) <= Rabs x < powerRZ 2 (mag2 x + 1).
Proof.
  intro Hx. pose proof (Rabs_pos_lt x Hx) as Hpos.
  pose proof ln2_pos as H2.
  destruct (Zfloor_bound (ln (Rabs x) / ln 2)) as [Hlo Hhi].
  fold (mag2 x) in Hlo, Hhi.
  assert (Hq : ln (Rabs x) / ln 2 * ln 2 = ln (Rabs x)) by (field; lra).
  assert (H1 : IZR (mag2 x) * ln 2 <= ln (Rabs x)) by nra.
  assert (H3 : ln (Rabs x) < IZR (mag2 x + 1) * ln 2)
    by (rewrite plus_IZR; nra).
  rewrite <- !ln_pow2 in *.
  split.
  - destruct H1 as [H1 | H1].
    + apply Rlt_le. apply ln_lt_inv; auto using pow2_pos.
    + right. apply ln_inv; auto using pow2_pos.
  - apply ln_lt_inv; auto using pow2_pos.
Qed.

Lemma mag2_lt (x : R) (e : Z) : x <> 0 -> Rabs x < powerRZ 2 e -> (mag2 x < e)%Z.
Proof.
  intros Hx H. destruct (mag2_spec x Hx) as [Hlo _].
  apply pow2_lt_inv. lra.
Qed.

(** ** Rounding to the nearest integer, ties to even *)

Lemma Rabs_le_bounds (x a : R) : Rabs x <= a -> - a <= x <= a.
Proof.
  intro H. pose proof (Rle_abs x). pose proof (Rle_abs (- x)) as Hn.
  rewrite Rabs_Ropp in Hn. lra.
Qed.

Lemma round_half_even_bounds (r : R) :
  Rabs (r - IZR (round_half_even r)) <= 1 / 2.
Proof.
  unfold round_half_even. destruct (Zfloor_bound r) as [Hlo Hhi].
  destruct (Rlt_dec (r - IZR (Zfloor r)) (1 / 2)) as [H1 | H1].
  - apply Rabs_le. lra.
  - destruct (Rlt_dec (1 / 2) (r - IZR (Zfloor r))) as [H2 | H2].
    + rewrite plus_IZR. apply Rabs_le. lra.
    + destruct (Z.even (Zfloor r)); rewrite ?plus_IZR; apply Rabs_le; lra.
Qed.

Lemma round_half_even_near (r : R) (n : Z) :
  Rabs (r - IZR n) < 1 / 2 -> round_half_even r = n.
Proof.
  intro H. apply Rabs_def2 in H. destruct H as [Hhi Hlo].
  unfold round_half_even.
  destruct (Rle_dec (IZR n) r) as [Hge | Hlt].
  - assert (Hf : Zfloor r = n) by (apply Zfloor_eq; lra).
    rewrite Hf. destruct (Rlt_dec (r - IZR n) (1 / 2)); [reflexivity | lra].
  - assert (Hf : Zfloor r = (n - 1)%Z)
      by (apply Zfloor_eq; rewrite minus_IZR; lra).
    rewrite Hf, minus_IZR.
    destruct (Rlt_dec (r - (IZR n - 1)) (1 / 2)); [lra|].
    destruct (Rlt_dec (1 / 2) (r - (IZR n - 1))); [lia | lra].
Qed.

Lemma round_half_even_IZR (n : Z) : round_half_even (IZR n) = n.
Proof.
  apply round_half_even_near.
  replace (IZR n - IZR n) with 0 by ring. rewrite Rabs_R0. lra.
Qed.

Lemma round_half_even_le (x y : R) :
  x <= y -> (round_half_even x <= round_half_even y)%Z.
Proof.
  intro Hxy. destruct (Z.le_gt_cases (round_half_even x) (round_half_even y))
    as [|Hgt]; [assumption|exfalso].
  pose proof (round_half_even_bounds x) as Hx.
  pose proof (round_half_even_bounds y) as Hy.
  apply Rabs_le_bounds in Hx. apply Rabs_le_bounds in Hy.
  assert (H1 : IZR (round_half_even y) + 1 <= IZR (round_half_even x)).
  { rewrite <- plus_IZR. apply IZR_le. lia. }
  assert (E : x = y) by lra. rewrite E in Hgt. lia.
Qed.

(** ** Rounding to a double *)

Lemma float64_0 : float64 0 = 0.
Proof. unfold float64. destruct (Req_dec_T 0 0); [reflexivity | congruence]. Qed.

Lemma float64_eval (x : R) (e n : Z) :
  powerRZ 2 e <= Rabs x < powerRZ 2 (e + 1) ->
  Rabs (x * powerRZ 2 (52 - e) - IZR n) < 1 / 2 ->
  float64 x = IZR n * powerRZ 2 (e - 52).
Proof.
  intros Hb Hn. unfold float64.
  destruct (Req_dec_T x 0) as [-> | Hx].
  - rewrite Rabs_R0 in Hb. pose proof (pow2_pos e). lra.
  - rewrite (mag2_unique x e Hb).
    replace (- (e - 52))%Z with (52 - e)%Z by lia.
    now rewrite (round_half_even_near _ n Hn).
Qed.

Lemma float64_nonneg (x : R) : 0 <= x -> 0 <= float64 x.
Proof.
  intro Hx. unfold float64. destruct (Req_dec_T x 0); [lra|].
  set (e := (mag2 x - 52)%Z).
  pose proof (pow2_pos e). pose proof (pow2_pos (- e)).
  apply Rmult_le_pos; [|lra]. apply IZR_le.
  rewrite <- round_half_even_IZR at 1. apply round_half_even_le.
  simpl. nra.
Qed.

Lemma grid_point_is_integer (k j e : Z) :
  (e <= j)%Z -> IZR k * powerRZ 2 j * powerRZ 2 (- e) = IZR (k * 2 ^ (j - e)).
Proof.
  intro H. rewrite Rmult_assoc, <- pow2_add, mult_IZR.
  replace (j + - e)%Z with (j - e)%Z by lia.
  now rewrite pow2_nonneg_exp by lia.
Qed.

(** Rounding never crosses a number of the form [k * 2^j] that lies on
    the grid of the rounded value. *)
Lemma float64_le_grid (x : R) (k j : Z) :
  x <> 0 -> (mag2 x - 52 <= j)%Z -> x <= IZR k * powerRZ 2 j ->
  float64 x <= IZR k * powerRZ 2 j.
Proof.
  intros Hx Hj Hle. unfold float64. destruct (Req_dec_T x 0); [contradiction|].
  set (e := (mag2 x - 52)%Z) in *.
  pose proof (pow2_pos e) as He. pose proof (pow2_pos (- e)) as Hne.
  pose proof (pow2_cancel e) as Hc.
  assert (Hs : x * powerRZ 2 (- e) <= IZR (k * 2 ^ (j - e))).
  { rewrite <- grid_point_is_integer by exact Hj. nra. }
  apply round_half_even_le in Hs. rewrite round_half_even_IZR in Hs.
  apply IZR_le in Hs. rewrite <- grid_point_is_integer in Hs by exact Hj.
  set (r := IZR (round_half_even (x * powerRZ 2 (- e)))) in *.
  set (b := IZR k * powerRZ 2 j) in *.
  assert (r * powerRZ 2 e <= b * powerRZ 2 (- e) * powerRZ 2 e) by nra.
  rewrite Rmult_assoc, Hc in H. lra.
Qed.

Lemma float64_ge_grid (x : R) (k j : Z) :
  x <> 0 -> (mag2 x - 52 <= j)%Z -> IZR k * powerRZ 2 j <= x ->
  IZR k * powerRZ 2 j <= float64 x.
Proof.
  intros Hx Hj Hle. unfold float64. destruct (Req_dec_T x 0); [contradiction|].
  set (e := (mag2 x - 52)%Z) in *.
  pose proof (pow2_pos e) as He. pose proof (pow2_pos (- e)) as Hne.
  pose proof (pow2_cancel e) as Hc.
  assert (Hs : IZR (k * 2 ^ (j - e)) <= x * powerRZ 2 (- e)).
  { rewrite <- grid_point_is_integer by exact Hj. nra. }
  apply round_half_even_le in Hs. rewrite round_half_even_IZR in Hs.
  apply IZR_le in Hs. rewrite <- grid_point_is_integer in Hs by exact Hj.
  set (r := IZR (round_half_even (x * powerRZ 2 (- e)))) in *.
  set (b := IZR k * powerRZ 2 j) in *.
  assert (b * powerRZ 2 (- e) * powerRZ 2 e <= r * powerRZ 2 e) by nra.
  rewrite Rmult_assoc, Hc in H. lra.
Qed.

(** Below [2^53] the grid contains every integer. *)
Lemma float64_le_int (x : R) (k : Z) :
  Rabs x < powerRZ 2 53 -> x <= IZR k -> float64 x <= IZR k.
Proof.
  intros Hb Hle. destruct (Req_dec_T x 0) as [-> | Hx].
  - now rewrite float64_0.
  - pose proof (mag2_lt x 53 Hx Hb).
    rewrite <- (Rmult_1_r (IZR k)). change 1 with (powerRZ 2 0).
    apply float64_le_grid; [assumption | lia |]. simpl. lra.
Qed.

Lemma float64_ge_int (x : R) (k : Z) :
  Rabs x < powerRZ 2 53 -> IZR k <= x -> IZR k <= float64 x.
Proof.
  intros Hb Hle. destruct (Req_dec_T x 0) as [-> | Hx].
  - now rewrite float64_0.
  - pose proof (mag2_lt x 53 Hx Hb).
    rewrite <- (Rmult_1_r (IZR k)). change 1 with (powerRZ 2 0).
    apply float64_ge_grid; [assumption | lia |]. simpl. lra.
Qed.

Lemma float64_IZR (k : Z) : (Z.abs k < 2 ^ 53)%Z -> float64 (IZR k) = IZR k.
Proof.
  intro Hk.
  assert (Hb : Rabs (IZR k) < powerRZ 2 53).
  { rewrite pow2_nonneg_exp by lia. rewrite <- abs_IZR. now apply IZR_lt. }
  apply Rle_antisym; [apply float64_le_int | apply float64_ge_int]; (assumption || lra).
Qed.

Lemma float64_rel_error (x : R) :
  Rabs (float64 x - x) <= powerRZ 2 (- 53) * Rabs x.
Proof.
  unfold float64. destruct (Req_dec_T x 0) as [-> | Hx].
  - replace (0 - 0) with 0 by ring. rewrite Rabs_R0. lra.
  - set (e := (mag2 x - 52)%Z).
    pose proof (pow2_pos e) as He. pose proof (pow2_cancel e) as Hc.
    pose proof (round_half_even_bounds (x * powerRZ 2 (- e))) as Hr.
    set (r := IZR (round_half_even (x * powerRZ 2 (- e)))) in *.
    replace (r * powerRZ 2 e - x)
      with (- (x * powerRZ 2 (- e) - r) * powerRZ 2 e)
      by (rewrite <- (Rmult_1_r x) at 2; rewrite <- Hc; ring).
    rewrite Rabs_mult, Rabs_Ropp, (Rabs_pos_eq (powerRZ 2 e)) by lra.
    destruct (mag2_spec x Hx) as [Hlo _].
    assert (E : powerRZ 2 (- 53) * powerRZ 2 (mag2 x) = powerRZ 2 e * / 2).
    { rewrite <- pow2_add. replace (- 53 + mag2 x)%Z with (e + - 1)%Z
        by (unfold e; lia).
      rewrite pow2_add. f_equal. simpl. lra. }
    pose proof (pow2_pos (- 53)) as H53.
    set (a := Rabs (x * powerRZ 2 (- e) - r)) in *.
    assert (H1 : a * powerRZ 2 e <= / 2 * powerRZ 2 e) by nra.
    assert (H2 : powerRZ 2 (- 53) * powerRZ 2 (mag2 x) <= powerRZ 2 (- 53) * Rabs x)
      by (apply Rmult_le_compat_l; lra).
    lra.
Qed.

(** Powers of two with a literal exponent, as numerals. *)
Ltac pow2_eval :=
  repeat match goal with
  | |- context [powerRZ 2 ?k] =>
      let v := eval vm_compute in k in
      match v with
      | Z0 => change (powerRZ 2 k) with 1
      | Zpos ?p =>
          let w := eval vm_compute in (2 ^ Zpos p)%Z in
          replace (powerRZ 2 k) with (IZR w)
            by (symmetry; exact (pow2_nonneg_exp (Zpos p) ltac:(lia)))
      | Zneg ?p =>
          let w := eval vm_compute in (2 ^ Zpos p)%Z in
          replace (powerRZ 2 k) with (/ IZR w)
            by (symmetry; exact (pow2_neg_exp (Zpos p) ltac:(lia)))
      end
  end.

Lemma Rabs_lt_half (a b : R) : - (1 / 2) < a - b < 1 / 2 -> Rabs (a - b) < 1 / 2.
Proof. intro H. apply Rabs_def1; lra. Qed.

(** The double that the literal [1e-7] denotes lies just below 100 ns. *)
Lemma t_max_value : float64 1e-7 = 944473296573929 / 9444732965739290427392.
Proof.
  rewrite (float64_eval 1e-7 (-24) 7555786372591432).
  - pow2_eval. lra.
  - rewrite Rabs_pos_eq by lra. pow2_eval. lra.
  - pow2_eval. apply Rabs_lt_half. lra.
Qed.

Lemma t_max_bounds : 0.9999999999999999e-7 < float64 1e-7 < 1e-7.
Proof. rewrite t_max_value. lra. Qed.

(** ** Minimum and maximum of an array *)

Lemma fold_left_Rmin_spec (l : list R) (x : R) :
  (fold_left Rmin l x = x \/ In (fold_left Rmin l x) l) /\
  fold_left Rmin l x <= x /\
  (forall y, In y l -> fold_left Rmin l x <= y).
Proof.
  revert x; induction l as [|a l IH]; intro x; simpl.
  - split; [now left|]. split; [lra | intros y []].
  - destruct (IH (Rmin x a)) as [Hin [Hle Hall]].
    pose proof (Rmin_l x a) as Hl. pose proof (Rmin_r x a) as Hr.
    split; [|split].
    + destruct Hin as [Heq | Hin]; [|now right; right].
      rewrite Heq. unfold Rmin. destruct (Rle_dec x a); [now left | now right; left].
    + lra.
    + intros y [<- | Hy]; [lra | now apply Hall].
Qed.

Lemma fold_left_Rmax_spec (l : list R) (x : R) :
  (fold_left Rmax l x = x \/ In (fold_left Rmax l x) l) /\
  x <= fold_left Rmax l x /\
  (forall y, In y l -> y <= fold_left Rmax l x).
Proof.
  revert x; induction l as [|a l IH]; intro x; simpl.
  - split; [now left|]. split; [lra | intros y []].
  - destruct (IH (Rmax x a)) as [Hin [Hle Hall]].
    pose proof (Rmax_l x a) as Hl. pose proof (Rmax_r x a) as Hr.
    split; [|split].
    + destruct Hin as [Heq | Hin]; [|now right; right].
      rewrite Heq. unfold Rmax. destruct (Rle_dec x a); [now right; left | now left].
    + lra.
    + intros y [<- | Hy]; [lra | now apply Hall].
Qed.

(** [np.min] returns a sample that no sample is below. *)
Lemma np_min_spec (l : list R) (m : R) :
  np_min l = Ok m -> In m l /\ forall y, In y l -> m <= y.
Proof.
  destruct l as [|x t]; simpl; [discriminate|].
  intros [= <-]. destruct (fold_left_Rmin_spec t x) as [Hin [Hle Hall]].
  split.
  - destruct Hin as [-> | Hin]; [now left | now right].
  - intros y [<- | Hy]; [exact Hle | now apply Hall].
Qed.

(** [np.max] returns a sample that no sample is above. *)
Lemma np_max_spec (l : list R) (m : R) :
  np_max l = Ok m -> In m l /\ forall y, In y l -> y <= m.
Proof.
  destruct l as [|x t]; simpl; [discriminate|].
  intros [= <-]. destruct (fold_left_Rmax_spec t x) as [Hin [Hle Hall]].
  split.
  - destruct Hin as [-> | Hin]; [now left | now right].
  - intros y [<- | Hy]; [exact Hle | now apply Hall].
Qed.

Lemma np_min_nonempty (l : list R) :
  l <> [] -> exists m, np_min l = Ok m.
Proof. destruct l; [congruence | intros _; simpl; eauto]. Qed.

Lemma np_max_nonempty (l : list R) :
  l <> [] -> exists m, np_max l = Ok m.
Proof. destruct l; [congruence | intros _; simpl; eauto]. Qed.

Lemma Rltb_true (x y : R) : Rltb x y = true <-> x < y.
Proof. unfold Rltb; destruct (Rlt_dec x y); split; auto; discriminate. Qed.

Lemma Rltb_false (x y : R) : Rltb x y = false <-> y <= x.
Proof.
  unfold Rltb; destruct (Rlt_dec x y); split; auto; try discriminate; lra.
Qed.

(** ** The comparison of [trigger] *)

(** On a non-empty diode output the comparison returns; it is true
    exactly when the minimum is strictly below the band or the maximum
    strictly above it. *)
Lemma trigger_decision_spec (self : ARAAntennaSystem) (vals : list R) :
  vals <> [] ->
  exists lo hi b,
    (In lo vals /\ forall y, In y vals -> lo <= y) /\
    (In hi vals /\ forall y, In y vals -> y <= hi) /\
    trigger_decision self vals = Ok b /\
    (b = true <-> lo < low_trigger self \/ high_trigger self < hi).
Proof.
  intro Hne. unfold trigger_decision.
  destruct (np_min_nonempty vals Hne) as [lo Hlo].
  destruct (np_max_nonempty vals Hne) as [hi Hhi].
  exists lo, hi. rewrite Hlo; simpl.
  pose proof (np_min_spec _ _ Hlo) as Hmin.
  pose proof (np_max_spec _ _ Hhi) as Hmax.
  destruct (Rltb lo (low_trigger self)) eqn:E1.
  - exists true; repeat split; try tauto.
    intros _; left; now apply Rltb_true.
  - rewrite Hhi; simpl. eexists; repeat split; try tauto.
    + rewrite Rltb_true; tauto.
    + apply Rltb_false in E1. rewrite Rltb_true. intros [H | H]; [lra | exact H].
Qed.

(** ** Shape of the tunnel diode's output *)

Lemma fit_length_length (n : nat) (l : list R) : length (fit_length n l) = n.
Proof.
  unfold fit_length. rewrite length_app, length_firstn, repeat_length. lia.
Qed.

Lemma fit_length_firstn (n : nat) (l : list R) :
  (n <= length l)%nat -> fit_length n l = firstn n l.
Proof.
  intro H. unfold fit_length. replace (n - length l)%nat with 0%nat by lia.
  simpl. apply app_nil_r.
Qed.

(** [tunnel_diode] returns exactly for a voltage signal with at least two
    samples, a non-zero [dt] and a non-negative [n_pts]. *)
Lemma tunnel_diode_ok_inv (dvt : ValueTypes) (self : ARAAntennaSystem)
    (signal p : Signal) :
  tunnel_diode dvt self signal = Ok p ->
  value_type signal = voltage /\
  exists dt, Signal_dt signal = Some dt /\ dt <> 0 /\
    (0 <= py_int (float64 (float64 1e-7 / dt)))%Z /\
    p = Signal_new (times signal)
          (map (fun c => c * dt)
             (convolve
                (map (fun v => v ^ 2 / resistance (antenna self)) (values signal))
                (diode_resp (float64 1e-7)
                   (py_int (float64 (float64 1e-7 / dt))))))
          dvt.
Proof.
  unfold tunnel_diode.
  destruct (value_type signal); cbn [ValueTypes_eqb negb]; try discriminate.
  destruct (Signal_dt signal) as [dt|]; [|discriminate].
  destruct (Req_dec_T dt 0) as [|Hdt]; [discriminate|].
  destruct (py_int (float64 (float64 1e-7 / dt)) <? 0)%Z eqn:E; [discriminate|].
  intros [= <-]. split; [reflexivity|]. exists dt.
  apply Z.ltb_ge in E. repeat split; auto.
Qed.

Lemma Signal_dt_two_samples (s : Signal) (dt : R) :
  Signal_dt s = Some dt -> (2 <= length (times s))%nat.
Proof.
  unfold Signal_dt. destruct (times s) as [|t0 [|t1 ts]]; try discriminate.
  intros _; simpl; lia.
Qed.

Lemma tunnel_diode_output_nonempty (dvt : ValueTypes) (self : ARAAntennaSystem)
    (signal p : Signal) :
  tunnel_diode dvt self signal = Ok p ->
  times p = times signal /\ length (values p) = length (times signal) /\
  values p <> [].
Proof.
  intro H. destruct (tunnel_diode_ok_inv _ _ _ _ H) as [_ [dt [Hdt [_ [_ ->]]]]].
  apply Signal_dt_two_samples in Hdt. simpl.
  rewrite fit_length_length. repeat split.
  intro E. apply (f_equal (@length R)) in E. rewrite fit_length_length in E.
  simpl in E. lia.
Qed.

(** ** [trigger] *)

(** C3.  With calibrated mean [m] and rms [r], [trigger] returns true if
    and only if the minimum of the tunnel diode's output is strictly
    below [m - r*|threshold|] or its maximum strictly above
    [m + r*|threshold|] (and it raises what [tunnel_diode] raises).  With
    mean 0, rms 1 and threshold 5, a diode output whose maximum is 6.2
    gives true and one whose samples all lie strictly inside [-5, 5]
    gives false. *)
Theorem trigger_iff_outside_band :
  (forall (dvt : ValueTypes) (self : ARAAntennaSystem) (signal : Signal),
     match tunnel_diode dvt self signal with
     | Ok p =>
         exists lo hi b,
           (In lo (values p) /\ forall y, In y (values p) -> lo <= y) /\
           (In hi (values p) /\ forall y, In y (values p) -> y <= hi) /\
           trigger dvt self signal = Ok b /\
           (b = true <->
            lo < _power_mean self - _power_rms self * Rabs (power_threshold self) \/
            _power_mean self + _power_rms self * Rabs (power_threshold self) < hi)
     | Raise e => trigger dvt self signal = Raise e
     end) /\
  (forall (self : ARAAntennaSystem) (vals : list R),
     _power_mean self = 0 -> _power_rms self = 1 -> power_threshold self = 5 ->
     In 6.2 vals -> (forall y, In y vals -> y <= 6.2) ->
     trigger_decision self vals = Ok true) /\
  (forall (self : ARAAntennaSystem) (vals : list R),
     _power_mean self = 0 -> _power_rms self = 1 -> power_threshold self = 5 ->
     vals <> [] -> (forall y, In y vals -> -5 < y < 5) ->
     trigger_decision self vals = Ok false).
Proof.
  assert (Habs5 : Rabs 5 = 5) by (apply Rabs_pos_eq; lra).
  split; [|split].
  - intros dvt self signal. unfold trigger.
    destruct (tunnel_diode dvt self signal) as [p|e] eqn:E; simpl; [|reflexivity].
    destruct (tunnel_diode_output_nonempty _ _ _ _ E) as [_ [_ Hne]].
    exact (trigger_decision_spec self (values p) Hne).
  - intros self vals Hm Hr Ht Hin Hmax.
    assert (Hne : vals <> []) by (intros ->; inversion Hin).
    destruct (trigger_decision_spec self vals Hne)
      as [lo [hi [b [_ [[Hhi_in Hhi] [-> Hb]]]]]].
    f_equal. apply Hb. right.
    unfold high_trigger. rewrite Hm, Hr, Ht, Habs5.
    specialize (Hhi _ Hin). lra.
  - intros self vals Hm Hr Ht Hne Hall.
    destruct (trigger_decision_spec self vals Hne)
      as [lo [hi [b [[Hlo_in _] [[Hhi_in _] [-> Hb]]]]]].
    f_equal. destruct b; [|reflexivity]. exfalso.
    destruct Hb as [Hb _]. specialize (Hb eq_refl).
    unfold low_trigger, high_trigger in Hb. rewrite Hm, Hr, Ht, Habs5 in Hb.
    pose proof (Hall _ Hlo_in). pose proof (Hall _ Hhi_in). lra.
Qed.

Lemma trigger_iff_outside_band_witness :
  trigger_decision unit_band_system [1; 6.2; -3] = Ok true /\
  trigger_decision unit_band_system [4.9; -4.9; 0] = Ok false.
Proof.
  destruct trigger_iff_outside_band as [_ [Hhi Hin]]. split.
  - apply Hhi; try reflexivity.
    + simpl; tauto.
    + simpl; intros y [<- | [<- | [<- | []]]]; lra.
  - apply Hin; try reflexivity.
    + discriminate.
    + simpl; intros y [<- | [<- | [<- | []]]]; lra.
Defined.

Lemma tunnel_diode_ignores_settings (dvt : ValueTypes)
    (self self' : ARAAntennaSystem) (signal : Signal) :
  antenna self' = antenna self ->
  tunnel_diode dvt self' signal = tunnel_diode dvt self signal.
Proof. intro H. unfold tunnel_diode. now rewrite H. Qed.

Lemma trigger_decision_same_band (self self' : ARAAntennaSystem) (vals : list R) :
  low_trigger self' = low_trigger self ->
  high_trigger self' = high_trigger self ->
  trigger_decision self' vals = trigger_decision self vals.
Proof. intros Hl Hh. unfold trigger_decision. now rewrite Hl, Hh. Qed.

(** C10.  [trigger] depends on [power_threshold] only through its
    absolute value, so negating the threshold changes no result; and the
    band [low, high] contains the calibrated mean whenever the calibrated
    rms is non-negative. *)
Theorem trigger_threshold_sign_irrelevant
    (dvt : ValueTypes) (self : ARAAntennaSystem) (signal : Signal) :
  (forall thr,
     trigger dvt (set_power_threshold self (- thr)) signal =
     trigger dvt (set_power_threshold self thr) signal) /\
  (forall thr thr', Rabs thr = Rabs thr' ->
     trigger dvt (set_power_threshold self thr) signal =
     trigger dvt (set_power_threshold self thr') signal) /\
  (0 <= _power_rms self ->
   low_trigger self <= _power_mean self <= high_trigger self).
Proof.
  assert (Habs : forall thr thr', Rabs thr = Rabs thr' ->
     trigger dvt (set_power_threshold self thr) signal =
     trigger dvt (set_power_threshold self thr') signal).
  { intros thr thr' H. unfold trigger.
    rewrite (tunnel_diode_ignores_settings dvt (set_power_threshold self thr')
               (set_power_threshold self thr)) by reflexivity.
    destruct (tunnel_diode dvt (set_power_threshold self thr') signal); simpl;
      [|reflexivity].
    apply trigger_decision_same_band; unfold low_trigger, high_trigger; simpl;
      now rewrite H. }
  split; [|split].
  - intro thr. apply Habs, Rabs_Ropp.
  - exact Habs.
  - intro Hr. unfold low_trigger, high_trigger.
    pose proof (Rabs_pos (power_threshold self)) as Hp.
    pose proof (Rmult_le_pos _ _ Hr Hp). lra.
Qed.

Lemma trigger_threshold_sign_irrelevant_witness :
  trigger voltage (set_power_threshold unit_band_system 5) pulse_signal =
    trigger voltage (set_power_threshold unit_band_system (-5)) pulse_signal /\
  low_trigger unit_band_system <= _power_mean unit_band_system
    <= high_trigger unit_band_system.
Proof.
  destruct (trigger_threshold_sign_irrelevant voltage unit_band_system
              pulse_signal) as [_ [Habs Hband]].
  split.
  - apply Habs. replace (-5) with (Ropp 5) by lra. symmetry. apply Rabs_Ropp.
  - apply Hband. simpl. lra.
Defined.

(** C1, as the code has it.  [trigger] applies [tunnel_diode] to the
    signal it is given and compares the diode output with the band;
    [front_end] is not applied inside [trigger], whose result does not
    depend on the amplification or the clipping level. *)
Theorem trigger_applies_tunnel_diode_only
    (dvt : ValueTypes) (self : ARAAntennaSystem) (signal : Signal) :
  trigger dvt self signal =
    match tunnel_diode dvt self signal with
    | Ok power_signal => trigger_decision self (values power_signal)
    | Raise e => Raise e
    end /\
  forall amp clip,
    trigger dvt (set_amplifier self amp clip) signal = trigger dvt self signal.
Proof.
  split; [reflexivity|].
  intros amp clip. unfold trigger.
  rewrite (tunnel_diode_ignores_settings dvt self (set_amplifier self amp clip))
    by reflexivity.
  destruct (tunnel_diode dvt self signal); simpl; [|reflexivity].
  now apply trigger_decision_same_band.
Qed.

(** ** [generate_freq_gains] without a table *)

(** C5, as the code has it.  The sentinel is for an antenna without a
    response table ([_response_data] is [None], the constructor's
    default): every gain query is then answered with the one-point arrays
    [[1]], [[1]] (flat unit gain once interpolated over frequency),
    whatever the angles and without any lookup.  A table that is present
    but has no entries gets no sentinel: the query goes on to the
    lookups, returns two empty arrays when the antenna has no frequencies
    either, and raises [KeyError] at the first lookup when it has some. *)
Theorem generate_freq_gains_without_table
    (self : ARAAntenna) (theta phi : R) :
  (_response_data self = None ->
   generate_freq_gains self theta phi = Ok ([1], [1])) /\
  (_response_data self = Some [] ->
   generate_freq_gains self theta phi =
     match _response_freqs self with
     | None => Raise TypeError
     | Some [] => Ok ([], [])
     | Some (_ :: _) => Raise KeyError
     end).
Proof.
  split; intro H; unfold generate_freq_gains; rewrite H; [reflexivity|].
  destruct (grid_cell theta phi) as [[[[[tu to] pu] po] t] u].
  destruct (_response_freqs self) as [[|f freqs]|]; reflexivity.
Qed.

Lemma generate_freq_gains_without_table_witness :
  generate_freq_gains bare_antenna (PI / 3) 2 = Ok ([1], [1]) /\
  generate_freq_gains gutted_antenna (PI / 3) 2 = Raise KeyError.
Proof.
  split.
  - apply (proj1 (generate_freq_gains_without_table bare_antenna (PI / 3) 2)).
    reflexivity.
  - apply (proj2 (generate_freq_gains_without_table gutted_antenna (PI / 3) 2)).
    reflexivity.
Defined.

(** A table that is present but empty is not the same thing: with no
    frequencies the query returns two empty arrays. *)
Lemma generate_freq_gains_empty_table (self : ARAAntenna) (theta phi : R) :
  _response_data self = Some [] -> _response_freqs self = Some [] ->
  generate_freq_gains self theta phi = Ok ([], []).
Proof.
  intros Hd Hf. unfold generate_freq_gains. rewrite Hd, Hf.
  destruct (grid_cell theta phi) as [[[[[tu to] pu] po] t] u]. reflexivity.
Qed.

(** C5 fails as stated: a response table with no entries does not get
    the flat-unity sentinel.  The antenna built on an empty table has an
    empty frequency set, and its gain query returns two empty arrays, not
    [[1]], [[1]]. *)
Lemma empty_table_gets_no_sentinel :
  _response_data empty_table_antenna = Some [] /\
  _response_freqs empty_table_antenna = Some [] /\
  generate_freq_gains empty_table_antenna (PI / 3) 2 = Ok ([], []) /\
  generate_freq_gains empty_table_antenna (PI / 3) 2 <> Ok ([1], [1]).
Proof.
  assert (E : generate_freq_gains empty_table_antenna (PI / 3) 2 = Ok ([], []))
    by (apply generate_freq_gains_empty_table; reflexivity).
  split; [reflexivity|]. split; [reflexivity|]. split; [exact E|].
  rewrite E. discriminate.
Qed.

(** ** The stored tunnel-diode constants *)

Open Scope string_scope.

Lemma td_up_amplitude_value :
  td_item _td_args "up" 0 =
    - sqrt (2 * PI) * (-0.8 * 2.3e-9 + -0.2 * 4e-9) / (2e18 * 7e-9 ^ 3).
Proof. reflexivity. Qed.

Close Scope string_scope.

(** ** [tunnel_diode] *)

Lemma Int_part_nonneg (x : R) : 0 <= x -> (0 <= Int_part x)%Z.
Proof.
  intro Hx. destruct (base_Int_part x) as [_ H].
  assert (Hlt : IZR (-1) < IZR (Int_part x)) by lra.
  apply lt_IZR in Hlt. lia.
Qed.

Lemma py_int_nonneg (x : R) : 0 <= x -> py_int x = Int_part x.
Proof. intro Hx. unfold py_int. destruct (Rle_dec 0 x); [reflexivity | lra]. Qed.

Lemma py_int_IZR (z : Z) : py_int (IZR z) = z.
Proof.
  assert (Hfloor : forall k, Int_part (IZR k) = k).
  { intro k. symmetry. apply Int_part_spec. lra. }
  unfold py_int. destruct (Rle_dec 0 (IZR z)); [apply Hfloor|].
  rewrite <- opp_IZR, Hfloor. lia.
Qed.

Lemma convolve_length (a b : list R) :
  length (convolve a b) = (length a + length b - 1)%nat.
Proof. unfold convolve. now rewrite length_map, length_seq. Qed.

Lemma np_linspace0_length (stop : R) (num : nat) :
  length (np_linspace0 stop num) = num.
Proof. unfold np_linspace0. now rewrite length_map, length_seq. Qed.

Lemma np_linspace0_nth (stop : R) (num i : nat) :
  (i < num)%nat ->
  nth i (np_linspace0 stop num) 0 = INR i * (stop / INR (num - 1)).
Proof.
  intro H. unfold np_linspace0.
  set (f := fun i => INR i * (stop / INR (num - 1))).
  rewrite (nth_indep _ 0 (f 0%nat)) by now rewrite length_map, length_seq.
  rewrite map_nth, seq_nth by assumption. reflexivity.
Qed.

Lemma diode_resp_length (t_max : R) (n_pts : Z) :
  length (diode_resp t_max n_pts) = Z.to_nat (n_pts + 1).
Proof. unfold diode_resp. now rewrite length_map, np_linspace0_length. Qed.

Open Scope string_scope.

(** The kernel in closed form: two Gaussian lobes, and past 18 ns the
    third lobe with the amplitude of [_td_args['up'][0]]. *)
Lemma diode_resp_at_formula (x : R) :
  diode_resp_at x =
    (0 + -0.8 * exp (- (x - 15e-9) ^ 2 / (2 * 2.3e-9 ^ 2))) +
    (0 + -0.2 * exp (- (x - 15e-9) ^ 2 / (2 * 4e-9 ^ 2))) +
    (if Rltb 18e-9 x
     then td_item _td_args "up" 0 * (1e9 * (x - 18e-9)) ^ 2 *
          exp (- (x - 18e-9) / 7e-9)
     else 0).
Proof.
  unfold diode_resp_at, _td_fdown1, _td_fdown2, _td_fup.
  change (td_item _td_args "up" 1) with 18e-9.
  change (td_item _td_args "up" 2) with 7e-9.
  change (td_item _td_args "up" 3) with 1e9.
  change (td_item _td_args "down1" 0) with (-0.8).
  change (td_item _td_args "down1" 1) with 15e-9.
  change (td_item _td_args "down1" 2) with 2.3e-9.
  change (td_item _td_args "down1" 3) with 0.
  change (td_item _td_args "down2" 0) with (-0.2).
  change (td_item _td_args "down2" 1) with 15e-9.
  change (td_item _td_args "down2" 2) with 4e-9.
  change (td_item _td_args "down2" 3) with 0.
  destruct (Rltb 18e-9 x); ring.
Qed.

Close Scope string_scope.

(** For a positive spacing the rounded quotient, and with it [n_pts], is
    not negative. *)
Lemma n_pts_nonneg (dt : R) :
  0 < dt -> (0 <= py_int (float64 (float64 1e-7 / dt)))%Z.
Proof.
  intro Hpos. pose proof t_max_bounds as Ht.
  assert (Hq : 0 <= float64 1e-7 / dt)
    by (apply Rlt_le, Rdiv_lt_0_compat; lra).
  apply float64_nonneg in Hq.
  rewrite (py_int_nonneg _ Hq). now apply Int_part_nonneg.
Qed.

(** What [tunnel_diode] computes on a voltage signal with spacing [dt > 0]. *)
Lemma tunnel_diode_voltage (dvt : ValueTypes) (self : ARAAntennaSystem)
    (signal : Signal) (dt : R) :
  value_type signal = voltage -> Signal_dt signal = Some dt -> 0 < dt ->
  tunnel_diode dvt self signal =
    Ok (Signal_new (times signal)
          (map (fun c => c * dt)
             (convolve
                (map (fun v => v ^ 2 / resistance (antenna self)) (values signal))
                (diode_resp (float64 1e-7)
                   (py_int (float64 (float64 1e-7 / dt))))))
          dvt).
Proof.
  intros Hvt Hdt Hpos. unfold tunnel_diode. rewrite Hvt, Hdt.
  cbn [ValueTypes_eqb negb].
  destruct (Req_dec_T dt 0) as [E|_]; [lra|].
  pose proof (n_pts_nonneg dt Hpos) as Hn.
  destruct (py_int (float64 (float64 1e-7 / dt)) <? 0)%Z eqn:E;
    [apply Z.ltb_lt in E; lia|].
  reflexivity.
Qed.

(** C4, as the code has it.  On a voltage signal with a sample spacing
    [dt > 0] (and as many values as times, as every waveform has)
    [tunnel_diode] returns a new waveform on the same times whose values
    are the full convolution of [values^2 / resistance] with the kernel,
    cut to the input's number of samples and multiplied by [dt]; the
    kernel is the three-lobe function (two Gaussian lobes around 15 ns
    and, past 18 ns, the third lobe) sampled at [n_pts + 1] evenly spaced
    points of [0, t_max], where [t_max] is the double [1e-7] and [n_pts]
    the integer part of the double quotient [t_max / dt].  A voltage
    signal with fewer than two samples raises [TypeError] and one whose
    first two times coincide [OverflowError]; any other value type raises
    [ValueError].  Nothing is returned in these cases. *)
Theorem tunnel_diode_is_truncated_convolution
    (dvt : ValueTypes) (self : ARAAntennaSystem) (signal : Signal) :
  (forall dt, value_type signal = voltage ->
     Signal_dt signal = Some dt -> 0 < dt ->
     length (values signal) = length (times signal) ->
     let t_max := float64 1e-7 in
     let n_pts := py_int (float64 (t_max / dt)) in
     let power := map (fun v => v ^ 2 / resistance (antenna self)) (values signal) in
     let kernel :=
       map diode_resp_at
         (map (fun i => INR i * (t_max / IZR n_pts)) (seq 0 (Z.to_nat n_pts + 1))) in
     (0 <= n_pts)%Z /\
     exists out,
       tunnel_diode dvt self signal = Ok out /\
       times out = times signal /\
       values out =
         firstn (length (values signal))
           (map (fun c => c * dt) (convolve power kernel)) /\
       length (values out) = length (values signal) /\
       forall n, (n < length (values signal))%nat ->
         nth n (values out) 0 =
         np_sum (map (fun k => nth k power 0 * nth (n - k) kernel 0)
                   (seq 0 (S n))) * dt) /\
  (value_type signal = voltage -> Signal_dt signal = None ->
   tunnel_diode dvt self signal = Raise TypeError) /\
  (value_type signal = voltage -> Signal_dt signal = Some 0 ->
   tunnel_diode dvt self signal = Raise OverflowError) /\
  (value_type signal <> voltage ->
   tunnel_diode dvt self signal = Raise ValueError) /\
  (forall x,
     diode_resp_at x =
       (0 + -0.8 * exp (- (x - 15e-9) ^ 2 / (2 * 2.3e-9 ^ 2))) +
       (0 + -0.2 * exp (- (x - 15e-9) ^ 2 / (2 * 4e-9 ^ 2))) +
       (if Rltb 18e-9 x
        then td_item _td_args "up" 0 * (1e9 * (x - 18e-9)) ^ 2 *
             exp (- (x - 18e-9) / 7e-9)
        else 0)).
Proof.
  split; [|split; [|split; [|split; [|exact diode_resp_at_formula]]]].
  - intros dt Hvt Hdt Hpos Hlen t_max n_pts power kernel.
    rewrite (tunnel_diode_voltage dvt self signal dt Hvt Hdt Hpos).
    pose proof (n_pts_nonneg dt Hpos) as Hn. fold t_max in Hn. fold n_pts in Hn.
    split; [exact Hn|].
    assert (Hk : diode_resp t_max n_pts = kernel).
    { unfold diode_resp, kernel, np_linspace0.
      replace (Z.to_nat (n_pts + 1)) with (Z.to_nat n_pts + 1)%nat by lia.
      replace (Z.to_nat n_pts + 1 - 1)%nat with (Z.to_nat n_pts) by lia.
      rewrite INR_IZR_INZ, Z2Nat.id by assumption. reflexivity. }
    fold t_max. fold n_pts. rewrite Hk. fold power.
    set (scaled := map (fun c => c * dt) (convolve power kernel)).
    assert (Hconv : (length (times signal) <= length scaled)%nat).
    { unfold scaled. rewrite length_map, convolve_length. unfold power, kernel.
      rewrite !length_map, length_seq. lia. }
    eexists; split; [reflexivity|]. simpl.
    rewrite (fit_length_firstn _ _ Hconv), Hlen.
    split; [reflexivity|]. split; [reflexivity|].
    split; [rewrite length_firstn; lia|].
    intros n Hlt.
    rewrite nth_firstn. destruct (Nat.ltb_spec n (length (times signal))); [|lia].
    unfold scaled in *. set (f := fun c => c * dt) in *.
    rewrite (nth_indep _ 0 (f 0)) by lia.
    rewrite map_nth. unfold convolve, f.
    rewrite length_map, convolve_length in Hconv.
    rewrite (nth_indep _ 0 (conv_at power kernel 0))
      by (rewrite length_map, length_seq; lia).
    rewrite map_nth, seq_nth by lia. reflexivity.
  - intros Hvt Hdt. unfold tunnel_diode. now rewrite Hvt, Hdt.
  - intros Hvt Hdt. unfold tunnel_diode. rewrite Hvt, Hdt.
    cbn [ValueTypes_eqb negb]. destruct (Req_dec_T 0 0); [reflexivity | congruence].
  - intro Hvt. unfold tunnel_diode.
    destruct (value_type signal); simpl; congruence.
Qed.

Lemma tunnel_diode_is_truncated_convolution_witness :
  (exists out,
     tunnel_diode undefined unit_band_system pulse_signal = Ok out /\
     times out = times pulse_signal /\
     length (values out) = 4%nat) /\
  tunnel_diode undefined unit_band_system (mkSignal [0] [2] voltage)
    = Raise TypeError /\
  tunnel_diode undefined unit_band_system (mkSignal [1; 1] [2; 3] voltage)
    = Raise OverflowError /\
  tunnel_diode undefined unit_band_system (mkSignal [0; 1] [2; 3] field)
    = Raise ValueError.
Proof.
  split; [|split; [|split]].
  - destruct (proj1 (tunnel_diode_is_truncated_convolution
                       undefined unit_band_system pulse_signal) (5e-9 - 0))
      as [_ [out [Hout [Ht [_ [Hl _]]]]]].
    + reflexivity.
    + reflexivity.
    + lra.
    + reflexivity.
    + exists out. repeat split; assumption.
  - apply (proj1 (proj2 (tunnel_diode_is_truncated_convolution
                           undefined unit_band_system
                           (mkSignal [0] [2] voltage)))); reflexivity.
  - apply (proj1 (proj2 (proj2 (tunnel_diode_is_truncated_convolution
                           undefined unit_band_system
                           (mkSignal [1; 1] [2; 3] voltage))))); [reflexivity|].
    unfold Signal_dt. cbn [times]. f_equal. ring.
  - apply (proj1 (proj2 (proj2 (proj2 (tunnel_diode_is_truncated_convolution
                           undefined unit_band_system
                           (mkSignal [0; 1] [2; 3] field)))))).
    discriminate.
Defined.

(** C4 fails as stated: not every voltage signal gets a waveform back.
    A voltage waveform of a single sample has no sample spacing and
    [tunnel_diode] raises [TypeError]; one whose first two times coincide
    makes the quotient infinite and [int] raises [OverflowError]; one
    whose times run backwards by 1 ns gets a negative [n_pts], for which
    there is no kernel, and the call raises [ValueError]. *)
Lemma tunnel_diode_raises_on_voltage_signals :
  tunnel_diode voltage unit_band_system (mkSignal [0] [1] voltage)
    = Raise TypeError /\
  tunnel_diode voltage unit_band_system (mkSignal [0; 0; 0] [1; 1; 1] voltage)
    = Raise OverflowError /\
  tunnel_diode voltage unit_band_system (mkSignal [2e-9; 1e-9; 0] [1; 1; 1] voltage)
    = Raise ValueError.
Proof.
  split; [reflexivity|]. split.
  - unfold tunnel_diode, Signal_dt. cbn [value_type times ValueTypes_eqb negb].
    destruct (Req_dec_T (0 - 0) 0) as [_ | H]; [reflexivity | lra].
  - unfold tunnel_diode, Signal_dt. cbn [value_type times ValueTypes_eqb negb].
    destruct (Req_dec_T (1e-9 - 2e-9) 0) as [H | _]; [lra|].
    pose proof t_max_bounds as Ht.
    set (q := float64 1e-7 / (1e-9 - 2e-9)).
    assert (Hq : -101 < q <= -1).
    { unfold q. replace (1e-9 - 2e-9) with (- 1e-9) by lra.
      replace (float64 1e-7 / - 1e-9) with (- (float64 1e-7 * 1e9)) by (field; lra).
      lra. }
    assert (Hb : Rabs q < powerRZ 2 53).
    { pow2_eval. apply Rabs_def1; lra. }
    pose proof (float64_le_int q (-1) Hb ltac:(lra)) as Hle.
    assert (Hn : (py_int (float64 q) < 0)%Z).
    { unfold py_int. destruct (Rle_dec 0 (float64 q)) as [H0 | _]; [lra|].
      assert (Hp : (0 < Int_part (- float64 q))%Z); [|lia].
      destruct (base_Int_part (- float64 q)) as [_ Hi].
      apply lt_IZR. lra. }
    apply Z.ltb_lt in Hn. rewrite Hn. reflexivity.
Qed.

(** ** [generate_freq_gains]: the grid cell *)

(** [fmod] keeps the sign of its first argument and stays below the
    modulus in size. *)
Lemma c_fmod_of_nonneg (x y : R) : 0 <= x -> 0 < y -> 0 <= c_fmod x y < y.
Proof.
  intros Hx Hy. unfold c_fmod.
  assert (Hq : 0 <= x / y) by (apply Rmult_le_pos; [lra | apply Rlt_le, Rinv_0_lt_compat; lra]).
  rewrite (py_int_nonneg _ Hq).
  destruct (base_Int_part (x / y)) as [H1 H2].
  set (k := IZR (Int_part (x / y))) in *.
  assert (E : x - k * y = (x / y - k) * y) by (field; lra).
  rewrite E. split; [apply Rmult_le_pos; lra|].
  assert ((x / y - k) * y < 1 * y) by (apply Rmult_lt_compat_r; lra). lra.
Qed.

Lemma c_fmod_of_neg (x y : R) : x < 0 -> 0 < y -> - y < c_fmod x y <= 0.
Proof.
  intros Hx Hy. unfold c_fmod, py_int.
  assert (Hq : x / y < 0).
  { unfold Rdiv. pose proof (Rinv_0_lt_compat y Hy). nra. }
  destruct (Rle_dec 0 (x / y)) as [H | _]; [lra|].
  destruct (base_Int_part (- (x / y))) as [H1 H2].
  rewrite opp_IZR. set (k := IZR (Int_part (- (x / y)))) in *.
  assert (E : x - - k * y = - ((- (x / y) - k) * y)) by (field; lra).
  rewrite E.
  assert (0 <= (- (x / y) - k) * y) by (apply Rmult_le_pos; lra).
  assert ((- (x / y) - k) * y < 1 * y) by (apply Rmult_lt_compat_r; lra).
  lra.
Qed.

(** An angle already in [0, y) is its own remainder. *)
Lemma py_fmod_small (x y : R) : 0 <= x < y -> py_fmod x y = x.
Proof.
  intros [H0 Hy]. unfold py_fmod.
  assert (Hk : 0%Z = Int_part (x / y)).
  { apply Int_part_spec. split.
    - assert (x / y < 1); [|simpl; lra].
      apply Rmult_lt_reg_r with y; [lra|].
      replace (x / y * y) with x by (field; lra). lra.
    - simpl. apply Rmult_le_pos; [lra|]. apply Rlt_le, Rinv_0_lt_compat; lra. }
  assert (Hq : 0 <= x / y)
    by (apply Rmult_le_pos; [lra | apply Rlt_le, Rinv_0_lt_compat; lra]).
  assert (E : c_fmod x y = x).
  { unfold c_fmod. rewrite (py_int_nonneg _ Hq), <- Hk. simpl. ring. }
  rewrite E. destruct (Req_dec_T x 0) as [-> | _]; [reflexivity|].
  assert (Rltb y 0 = false) as -> by (apply Rltb_false; lra).
  assert (Rltb x 0 = false) as -> by (apply Rltb_false; lra).
  reflexivity.
Qed.

(** The remainder of a non-negative angle is exact and below the modulus. *)
Lemma py_fmod_of_nonneg (x y : R) :
  0 <= x -> 0 < y -> py_fmod x y = c_fmod x y /\ 0 <= py_fmod x y < y.
Proof.
  intros Hx Hy. pose proof (c_fmod_of_nonneg x y Hx Hy) as Hm.
  unfold py_fmod. destruct (Req_dec_T (c_fmod x y) 0) as [E | _].
  - rewrite E. split; [reflexivity | lra].
  - assert (Rltb y 0 = false) as -> by (apply Rltb_false; lra).
    assert (Rltb (c_fmod x y) 0 = false) as -> by (apply Rltb_false; lra).
    cbn [xorb]. split; [reflexivity | exact Hm].
Qed.

(** The remainder of a negative angle is the rounded sum [fmod + y]. *)
Lemma py_fmod_of_neg (x y : R) :
  x < 0 -> 0 < y ->
  py_fmod x y = if Req_dec_T (c_fmod x y) 0 then 0 else float64 (c_fmod x y + y).
Proof.
  intros Hx Hy. pose proof (c_fmod_of_neg x y Hx Hy) as Hm.
  unfold py_fmod. destruct (Req_dec_T (c_fmod x y) 0) as [E | Hne]; [reflexivity|].
  assert (Rltb y 0 = false) as -> by (apply Rltb_false; lra).
  assert (Rltb (c_fmod x y) 0 = true) as -> by (apply Rltb_true; lra).
  reflexivity.
Qed.

(** With an integer modulus (180 or 360 here) the remainder lies between
    0 and the modulus, which it can reach. *)
Lemma py_fmod_range (x : R) (k : Z) :
  (0 < k < 2 ^ 53)%Z -> 0 <= py_fmod x (IZR k) <= IZR k.
Proof.
  intro Hk. assert (Hy : 0 < IZR k) by (apply IZR_lt; lia).
  destruct (Rle_dec 0 x) as [Hx | Hx].
  - destruct (py_fmod_of_nonneg x (IZR k) Hx Hy) as [_ H]. lra.
  - assert (Hneg : x < 0) by lra.
    rewrite (py_fmod_of_neg x (IZR k) Hneg Hy).
    pose proof (c_fmod_of_neg x (IZR k) Hneg Hy) as Hm.
    destruct (Req_dec_T (c_fmod x (IZR k)) 0); [lra|].
    set (v := c_fmod x (IZR k) + IZR k) in *.
    assert (Hv : 0 <= v <= IZR k) by (unfold v; lra).
    assert (Hb : Rabs v < powerRZ 2 53).
    { rewrite Rabs_pos_eq by lra. rewrite pow2_nonneg_exp by lia.
      apply Rle_lt_trans with (IZR k); [lra | apply IZR_lt; lia]. }
    split; [apply float64_nonneg; lra | apply float64_le_int; [exact Hb | lra]].
Qed.

(** Just below zero the remainder is the modulus itself: the sum
    [x + 360] (or [x + 180]) is closer to 360 (to 180) than to the
    double before it. *)
Lemma py_fmod_360_below_zero (x : R) : -2e-14 <= x < 0 -> py_fmod x 360 = 360.
Proof.
  intro Hx.
  assert (E : c_fmod x 360 = x).
  { unfold c_fmod, py_int. destruct (Rle_dec 0 (x / 360)) as [H | _]; [lra|].
    assert (Hk : 0%Z = Int_part (- (x / 360))) by (apply Int_part_spec; simpl; lra).
    rewrite <- Hk. simpl. ring. }
  rewrite py_fmod_of_neg by lra. rewrite E.
  destruct (Req_dec_T x 0); [lra|].
  rewrite (float64_eval _ 8 6333186975989760).
  - pow2_eval. lra.
  - rewrite Rabs_pos_eq by lra. pow2_eval. lra.
  - pow2_eval. apply Rabs_lt_half. lra.
Qed.

Lemma py_fmod_180_below_zero (x : R) : -1e-14 <= x < 0 -> py_fmod x 180 = 180.
Proof.
  intro Hx.
  assert (E : c_fmod x 180 = x).
  { unfold c_fmod, py_int. destruct (Rle_dec 0 (x / 180)) as [H | _]; [lra|].
    assert (Hk : 0%Z = Int_part (- (x / 180))) by (apply Int_part_spec; simpl; lra).
    rewrite <- Hk. simpl. ring. }
  rewrite py_fmod_of_neg by lra. rewrite E.
  destruct (Req_dec_T x 0); [lra|].
  rewrite (float64_eval _ 7 6333186975989760).
  - pow2_eval. lra.
  - rewrite Rabs_pos_eq by lra. pow2_eval. lra.
  - pow2_eval. apply Rabs_lt_half. lra.
Qed.

(** The 5-degree cell of a reduced angle [x] in [0, 5*m). *)
Lemma py_int_cell (x : R) (m : Z) :
  0 <= x < 5 * IZR m ->
  (0 <= py_int (x / 5) < m)%Z /\
  5 * IZR (py_int (x / 5)) <= x < 5 * IZR (py_int (x / 5)) + 5.
Proof.
  intros [H0 Hm].
  assert (Hq : 0 <= x / 5) by lra.
  rewrite (py_int_nonneg _ Hq).
  destruct (base_Int_part (x / 5)) as [H1 H2].
  pose proof (Int_part_nonneg _ Hq) as Hn.
  repeat split; try lra; try lia.
  apply lt_IZR. lra.
Qed.

(** What [grid_cell] returns: cell indices [i], [j], the wrapped upper
    corners, and the weights as fractions of the 5-degree step.  The
    reduced angles reach up to 180 and 360, so the indices reach up to
    36 and 72. *)
Lemma grid_cell_spec (theta phi : R) :
  let th := py_fmod (np_degrees theta) 180 in
  let ph := py_fmod (np_degrees phi) 360 in
  let i := py_int (th / 5) in
  let j := py_int (ph / 5) in
  grid_cell theta phi =
    ((5 * i)%Z, (5 * ((i + 1) mod 36))%Z, (5 * j)%Z, (5 * ((j + 1) mod 72))%Z,
     (th - 5 * IZR i) / 5, (ph - 5 * IZR j) / 5) /\
  (0 <= i <= 36)%Z /\ (0 <= j <= 72)%Z /\
  5 * IZR i <= th < 5 * IZR i + 5 /\
  5 * IZR j <= ph < 5 * IZR j + 5 /\
  0 <= th <= 180 /\ 0 <= ph <= 360.
Proof.
  intros th ph i j.
  assert (Hth : 0 <= th <= 180)
    by (apply (py_fmod_range (np_degrees theta) 180); lia).
  assert (Hph : 0 <= ph <= 360)
    by (apply (py_fmod_range (np_degrees phi) 360); lia).
  destruct (py_int_cell th 37 ltac:(lra)) as [Hi Hti].
  destruct (py_int_cell ph 73 ltac:(lra)) as [Hj Hpj].
  fold i in Hi, Hti. fold j in Hj, Hpj.
  repeat split; try tauto; try lia.
  unfold grid_cell. fold th ph i j.
  replace (5 * (i + 1) - 5 * i)%Z with 5%Z by lia.
  replace (5 * (j + 1) - 5 * j)%Z with 5%Z by lia.
  replace (5 * (i + 1) mod 180)%Z with (5 * ((i + 1) mod 36))%Z
    by (change 180%Z with (5 * 36)%Z; rewrite Z.mul_mod_distr_l; lia).
  replace (5 * (j + 1) mod 360)%Z with (5 * ((j + 1) mod 72))%Z
    by (change 360%Z with (5 * 72)%Z; rewrite Z.mul_mod_distr_l; lia).
  rewrite !mult_IZR. reflexivity.
Qed.

(** ** [generate_freq_gains]: the lookups and the blend *)

Lemma arr_scale_map {A : Type} (c : R) (g : A -> R) (l : list A) :
  arr_scale c (map g l) = map (fun x => c * g x) l.
Proof. unfold arr_scale. now rewrite map_map. Qed.

Lemma arr_add_map {A : Type} (g h : A -> R) (l : list A) :
  arr_add (map g l) (map h l) = map (fun x => g x + h x) l.
Proof. induction l as [|x l IH]; simpl; [reflexivity | now rewrite IH]. Qed.

Lemma rectangular_lookup (data : response_table) (freqs : list R)
    (f : R) (i j : Z) :
  rectangular data freqs -> In f freqs -> (0 <= i < 36)%Z -> (0 <= j < 72)%Z ->
  exists e,
    dict_get response_key_eqb (f, 5 * i, 5 * j)%Z data = Some e /\
    dict_getitem response_key_eqb (f, 5 * i, 5 * j)%Z data = Ok e /\
    gain_at data f (5 * i) (5 * j) = fst e.
Proof.
  intros Hrect Hf Hi Hj. destruct (Hrect f i j Hf Hi Hj) as [e He].
  exists e. unfold dict_getitem, gain_at. now rewrite He.
Qed.

Lemma fetch_corner_gains_rectangular (data : response_table)
    (all_freqs freqs : list R) (i i' j j' : Z) :
  rectangular data all_freqs -> incl freqs all_freqs ->
  (0 <= i < 36)%Z -> (0 <= i' < 36)%Z -> (0 <= j < 72)%Z -> (0 <= j' < 72)%Z ->
  fetch_corner_gains data (5 * i) (5 * i') (5 * j) (5 * j') freqs =
    Ok (map (fun f => gain_at data f (5 * i) (5 * j)) freqs,
        map (fun f => gain_at data f (5 * i') (5 * j)) freqs,
        map (fun f => gain_at data f (5 * i) (5 * j')) freqs,
        map (fun f => gain_at data f (5 * i') (5 * j')) freqs).
Proof.
  intros Hrect Hincl Hi Hi' Hj Hj'.
  induction freqs as [|f freqs IH]; [reflexivity|].
  assert (Hf : In f all_freqs) by (apply Hincl; now left).
  assert (Hrest : incl freqs all_freqs)
    by (intros x Hx; apply Hincl; now right).
  cbn [fetch_corner_gains].
  destruct (rectangular_lookup data all_freqs f i j Hrect Hf Hi Hj)
    as [e1 [_ [H1 G1]]].
  destruct (rectangular_lookup data all_freqs f i' j Hrect Hf Hi' Hj)
    as [e2 [_ [H2 G2]]].
  destruct (rectangular_lookup data all_freqs f i j' Hrect Hf Hi Hj')
    as [e3 [_ [H3 G3]]].
  destruct (rectangular_lookup data all_freqs f i' j' Hrect Hf Hi' Hj')
    as [e4 [_ [H4 G4]]].
  rewrite H1, H2, H3, H4. cbn [bind]. rewrite (IH Hrest). cbn [bind map].
  rewrite G1, G2, G3, G4. reflexivity.
Qed.

Lemma fetch_corner_gains_present (data : response_table)
    (tu to pu po : Z) (freqs : list R) :
  (forall f, In f freqs -> corners_present data f tu to pu po) ->
  fetch_corner_gains data tu to pu po freqs =
    Ok (map (fun f => gain_at data f tu pu) freqs,
        map (fun f => gain_at data f to pu) freqs,
        map (fun f => gain_at data f tu po) freqs,
        map (fun f => gain_at data f to po) freqs).
Proof.
  induction freqs as [|f freqs IH]; intro H; [reflexivity|].
  destruct (H f (or_introl eq_refl)) as [H1 [H2 [H3 H4]]].
  cbn [fetch_corner_gains map]. unfold dict_getitem, gain_at.
  destruct (dict_get response_key_eqb (f, tu, pu) data); [|congruence].
  destruct (dict_get response_key_eqb (f, to, pu) data); [|congruence].
  destruct (dict_get response_key_eqb (f, tu, po) data); [|congruence].
  destruct (dict_get response_key_eqb (f, to, po) data); [|congruence].
  cbn [bind]. rewrite IH by (intros g Hg; apply H; now right). reflexivity.
Qed.

Lemma fetch_corner_gains_missing (data : response_table)
    (tu to pu po : Z) (freqs : list R) :
  (exists f, In f freqs /\ ~ corners_present data f tu to pu po) ->
  fetch_corner_gains data tu to pu po freqs = Raise KeyError.
Proof.
  induction freqs as [|f freqs IH]; intros [g [Hg Hmiss]]; [inversion Hg|].
  cbn [fetch_corner_gains]. unfold dict_getitem.
  destruct (dict_get response_key_eqb (f, tu, pu) data) eqn:E1; [|reflexivity].
  destruct (dict_get response_key_eqb (f, to, pu) data) eqn:E2; [|reflexivity].
  destruct (dict_get response_key_eqb (f, tu, po) data) eqn:E3; [|reflexivity].
  destruct (dict_get response_key_eqb (f, to, po) data) eqn:E4; [|reflexivity].
  cbn [bind]. rewrite IH; [reflexivity|].
  destruct Hg as [<- | Hg]; [|now exists g].
  exfalso. apply Hmiss. unfold corners_present.
  rewrite E1, E2, E3, E4. repeat split; discriminate.
Qed.

(** On a rectangular table, and with both reduced angles below their
    modulus, the query returns the table's frequencies and, for each, the
    blend of the four corners of the cell. *)
Lemma generate_freq_gains_rectangular (self : ARAAntenna)
    (data : response_table) (freqs : list R) (theta phi : R) :
  _response_data self = Some data -> _response_freqs self = Some freqs ->
  rectangular data freqs ->
  py_fmod (np_degrees theta) 180 < 180 -> py_fmod (np_degrees phi) 360 < 360 ->
  forall theta_under theta_over phi_under phi_over t u,
    grid_cell theta phi = (theta_under, theta_over, phi_under, phi_over, t, u) ->
    generate_freq_gains self theta phi =
      Ok (freqs,
          map (fun f => blend t u
                 (gain_at data f theta_under phi_under)
                 (gain_at data f theta_over phi_under)
                 (gain_at data f theta_under phi_over)
                 (gain_at data f theta_over phi_over)) freqs).
Proof.
  intros Hd Hf Hrect Hth180 Hph360 tu to pu po t u Hcell.
  unfold generate_freq_gains. rewrite Hd, Hcell, Hf.
  destruct (grid_cell_spec theta phi) as [Hspec [Hi [Hj [Hth [Hph _]]]]].
  cbv zeta in Hspec, Hi, Hj, Hth, Hph. rewrite Hcell in Hspec.
  set (i := py_int (py_fmod (np_degrees theta) 180 / 5)) in *.
  set (j := py_int (py_fmod (np_degrees phi) 360 / 5)) in *.
  assert (Hi36 : (i < 36)%Z) by (apply lt_IZR; lra).
  assert (Hj72 : (j < 72)%Z) by (apply lt_IZR; lra).
  assert (Etu : tu = (5 * i)%Z) by congruence.
  assert (Eto : to = (5 * ((i + 1) mod 36))%Z) by congruence.
  assert (Epu : pu = (5 * j)%Z) by congruence.
  assert (Epo : po = (5 * ((j + 1) mod 72))%Z) by congruence.
  rewrite Etu, Eto, Epu, Epo.
  rewrite (fetch_corner_gains_rectangular data freqs freqs)
    by (auto using incl_refl; try lia; apply Z.mod_pos_bound; lia).
  cbn [bind]. rewrite !arr_scale_map, !arr_add_map. reflexivity.
Qed.


Lemma Forall2_map_same {A B : Type} (P : A -> B -> Prop) (g : A -> B) (l : list A) :
  (forall x, In x l -> P x (g x)) -> Forall2 P l (map g l).
Proof.
  induction l as [|x l IH]; intro H; simpl; constructor.
  - apply H; now left.
  - apply IH; intros y Hy; apply H; now right.
Qed.


(** C6.  When both angles, in degrees, sit on the 5-degree grid (theta
    one of 0, 5, ..., 175 and phi one of 0, 5, ..., 355), the query on a
    rectangular table returns for every frequency exactly the gain stored
    at [(frequency, theta, phi)]. *)
Theorem gains_exact_on_grid_points
    (self : ARAAntenna) (data : response_table) (freqs : list R)
    (theta phi : R) (i j : Z) :
  _response_data self = Some data -> _response_freqs self = Some freqs ->
  rectangular data freqs ->
  (0 <= i < 36)%Z -> (0 <= j < 72)%Z ->
  np_degrees theta = IZR (5 * i) -> np_degrees phi = IZR (5 * j) ->
  exists gains,
    generate_freq_gains self theta phi = Ok (freqs, gains) /\
    Forall2
      (fun f g =>
         exists phase,
           dict_get response_key_eqb (f, 5 * i, 5 * j)%Z data = Some (g, phase))
      freqs gains.
Proof.
  intros Hd Hf Hrect Hi Hj Hth Hph.
  destruct (grid_cell theta phi) as [[[[[tu to] pu] po] t] u] eqn:Hcell.
  destruct (grid_cell_spec theta phi) as [Hspec _].
  cbv zeta in Hspec. rewrite Hcell, Hth, Hph in Hspec.
  assert (Hi5 : 0 <= IZR (5 * i) < 180).
  { split; [apply IZR_le; lia | apply IZR_lt; lia]. }
  assert (Hj5 : 0 <= IZR (5 * j) < 360).
  { split; [apply IZR_le; lia | apply IZR_lt; lia]. }
  rewrite (py_fmod_small _ _ Hi5), (py_fmod_small _ _ Hj5) in Hspec.
  replace (IZR (5 * i) / 5) with (IZR i) in Hspec by (rewrite mult_IZR; field).
  replace (IZR (5 * j) / 5) with (IZR j) in Hspec by (rewrite mult_IZR; field).
  rewrite !py_int_IZR in Hspec.
  assert (Et : t = 0) by (replace t with ((IZR (5 * i) - 5 * IZR i) / 5)
                            by congruence; rewrite mult_IZR; field).
  assert (Eu : u = 0) by (replace u with ((IZR (5 * j) - 5 * IZR j) / 5)
                            by congruence; rewrite mult_IZR; field).
  assert (Etu : tu = (5 * i)%Z) by congruence.
  assert (Epu : pu = (5 * j)%Z) by congruence.
  assert (Hth180 : py_fmod (np_degrees theta) 180 < 180)
    by (rewrite Hth, (py_fmod_small _ _ Hi5); lra).
  assert (Hph360 : py_fmod (np_degrees phi) 360 < 360)
    by (rewrite Hph, (py_fmod_small _ _ Hj5); lra).
  eexists; split;
    [exact (generate_freq_gains_rectangular self data freqs theta phi
              Hd Hf Hrect Hth180 Hph360 _ _ _ _ _ _ Hcell)|].
  apply Forall2_map_same. intros f Hin.
  rewrite Et, Eu, Etu, Epu.
  destruct (rectangular_lookup data freqs f i j Hrect Hin Hi Hj)
    as [[g phase] [L [_ G]]].
  exists phase. rewrite L. do 2 f_equal.
  unfold blend. rewrite G. simpl. ring.
Qed.

(** [grid_table] satisfies the invariant, and has no other rows. *)
Lemma response_key_eqb_refl (k : response_key) : response_key_eqb k k = true.
Proof.
  destruct k as [[f th] ph]. unfold response_key_eqb.
  destruct (Req_dec_T f f); [|congruence]. now rewrite !Z.eqb_refl.
Qed.

Lemma dict_get_present (d : response_table) (k : response_key) (v : R * R) :
  In (k, v) d -> exists v', dict_get response_key_eqb k d = Some v'.
Proof.
  induction d as [|[k' w] d IH]; intro Hin; [inversion Hin|].
  simpl. destruct (response_key_eqb k k') eqn:E; [eauto|].
  destruct Hin as [Heq | Hin]; [|now apply IH].
  injection Heq as -> _. now rewrite response_key_eqb_refl in E.
Qed.


Lemma grid_table_rectangular (f : R) (g : Z -> Z -> R) :
  rectangular (grid_table f g) [f].
Proof.
  intros f' i j [<- | []] Hi Hj.
  apply dict_get_present with (v := (g (5 * i)%Z (5 * j)%Z, 0)).
  unfold grid_table. apply in_flat_map. exists (Z.to_nat i). split.
  - apply in_seq. lia.
  - unfold grid_rows. apply in_map_iff. exists (Z.to_nat j). split.
    + rewrite !Z2Nat.id by lia. reflexivity.
    + apply in_seq. lia.
Qed.



Lemma gains_exact_on_grid_points_witness :
  exists gains,
    generate_freq_gains ramp_antenna (PI / 36) (PI / 18) = Ok ([3e8], gains) /\
    Forall2
      (fun f g =>
         exists phase,
           dict_get response_key_eqb (f, 5 * 1, 5 * 2)%Z ramp_table =
           Some (g, phase))
      [3e8] gains.
Proof.
  apply (gains_exact_on_grid_points ramp_antenna ramp_table [3e8]).
  - reflexivity.
  - reflexivity.
  - apply grid_table_rectangular.
  - lia.
  - lia.
  - unfold np_degrees. simpl (5 * 1)%Z. field. apply PI_neq0.
  - unfold np_degrees. simpl (5 * 2)%Z. field. apply PI_neq0.
Defined.




(** An angle of [-1e-20] radians is a tiny negative number of degrees. *)
Lemma np_degrees_below_zero : -6e-19 <= np_degrees (-1e-20) < 0.
Proof.
  unfold np_degrees. pose proof PI_RGT_0 as Hpi. pose proof PI2_3_2 as H3.
  unfold PI2 in H3.
  assert (Hd : 0 < 180 / PI) by (apply Rdiv_lt_0_compat; lra).
  assert (Hu : 180 / PI <= 60).
  { apply Rmult_le_reg_r with PI; [lra|].
    replace (180 / PI * PI) with 180 by (field; lra). lra. }
  split; nra.
Qed.


(** ** [receive] *)


Section Receive.

Variable filter_frequencies : Signal -> (list R -> list R) -> Signal.
Variable np_interp : list R -> list R -> list R -> list R.
Variable normalize : vec -> vec.


End Receive.



(** ** Size of the kernel *)

Lemma exp_nonpos (x : R) : x <= 0 -> 0 < exp x <= 1.
Proof.
  intro Hx. split; [apply exp_pos|].
  destruct (Req_dec x 0) as [-> | Hne]; [rewrite exp_0; lra|].
  rewrite <- exp_0. apply Rlt_le, exp_increasing. lra.
Qed.

Lemma square_times_exp_neg (y : R) : 0 <= y -> 0 <= y ^ 2 * exp (- y) <= 4.
Proof.
  intro Hy. pose proof (exp_pos (- y)) as Hpos.
  split; [apply Rmult_le_pos; [nra | lra]|].
  assert (Hhalf : 1 + y / 2 <= exp (y / 2)) by apply exp_ineq1_le.
  assert (Hexp : exp y = exp (y / 2) * exp (y / 2)).
  { rewrite <- exp_plus. f_equal. field. }
  assert (Hsq : y ^ 2 <= 4 * exp y) by (rewrite Hexp; nra).
  assert (Hinv : exp y * exp (- y) = 1).
  { rewrite <- exp_plus. replace (y + - y) with 0 by ring. apply exp_0. }
  replace 4 with (4 * exp y * exp (- y))
    by (rewrite Rmult_assoc, Hinv; ring).
  apply Rmult_le_compat_r; lra.
Qed.

Lemma sqrt_2PI_bounds : 0 < sqrt (2 * PI) <= 3.
Proof.
  pose proof PI_RGT_0. pose proof PI_4. split.
  - apply sqrt_lt_R0. lra.
  - replace 3 with (sqrt (3 * 3)) by (apply sqrt_square; lra).
    apply sqrt_le_1_alt. lra.
Qed.

Open Scope string_scope.

Lemma td_up_amplitude_bounds : 0 < td_item _td_args "up" 0 <= 0.0116.
Proof.
  rewrite td_up_amplitude_value.
  pose proof sqrt_2PI_bounds as [H0 H3].
  set (s := sqrt (2 * PI)) in *. lra.
Qed.

(** C8.  The amplitude stored in [_td_args['up'][0]] is
    [-sqrt(2*pi)*(A1*sigma1 + A2*sigma2) / (2e18*sigma3^3)] with
    A1 = -0.8, sigma1 = 2.3 ns, A2 = -0.2, sigma2 = 4 ns, sigma3 = 7 ns:
    it cancels the two down lobes in the balance
    [2e18*sigma3^3*A3 + sqrt(2*pi)*(A1*sigma1 + A2*sigma2) = 0], and it is
    positive.  The other entries of the three tuples keep their literal
    values. *)
Theorem td_up_amplitude_balance :
  td_item _td_args "up" 0 =
    - sqrt (2 * PI) * (-0.8 * 2.3e-9 + -0.2 * 4e-9) / (2e18 * 7e-9 ^ 3) /\
  2e18 * 7e-9 ^ 3 * td_item _td_args "up" 0 +
    sqrt (2 * PI) * (-0.8 * 2.3e-9 + -0.2 * 4e-9) = 0 /\
  0 < td_item _td_args "up" 0 /\
  td_tuple _td_args "up" = [td_item _td_args "up" 0; 18e-9; 7e-9; 1e9] /\
  td_tuple _td_args "down1" = [-0.8; 15e-9; 2.3e-9; 0] /\
  td_tuple _td_args "down2" = [-0.2; 15e-9; 4e-9; 0].
Proof.
  split; [exact td_up_amplitude_value|]. split; [|split].
  - rewrite td_up_amplitude_value. set (s := sqrt (2 * PI)). lra.
  - apply td_up_amplitude_bounds.
  - repeat split.
Qed.

(** Up to 18 ns only the two down lobes contribute: the kernel is
    negative and at least -1 there; it is exactly -1 at 15 ns. *)
Lemma diode_resp_at_early (x : R) : x <= 18e-9 -> -1 <= diode_resp_at x < 0.
Proof.
  intro Hx. rewrite diode_resp_at_formula.
  assert (Hsq : 0 <= (x - 15e-9) ^ 2) by apply pow2_ge_0.
  set (a := (x - 15e-9) ^ 2) in *.
  destruct (exp_nonpos (- a / (2 * 2.3e-9 ^ 2))) as [P1 L1]; [lra|].
  destruct (exp_nonpos (- a / (2 * 4e-9 ^ 2))) as [P2 L2]; [lra|].
  destruct (Rltb 18e-9 x) eqn:E; [apply Rltb_true in E; lra|].
  lra.
Qed.

Lemma diode_resp_at_peak : diode_resp_at 15e-9 = -1.
Proof.
  rewrite diode_resp_at_formula.
  replace (- (15e-9 - 15e-9) ^ 2 / (2 * 2.3e-9 ^ 2)) with 0 by lra.
  replace (- (15e-9 - 15e-9) ^ 2 / (2 * 4e-9 ^ 2)) with 0 by lra.
  rewrite exp_0.
  destruct (Rltb 18e-9 15e-9) eqn:E; [apply Rltb_true in E; lra|].
  lra.
Qed.

(** Everywhere the kernel stays between -1 and 3. *)
Lemma diode_resp_at_bounds (x : R) : -1 <= diode_resp_at x <= 3.
Proof.
  destruct (Rle_dec x 18e-9) as [Hx | Hx].
  - pose proof (diode_resp_at_early x Hx). lra.
  - rewrite diode_resp_at_formula.
    assert (Hsq : 0 <= (x - 15e-9) ^ 2) by apply pow2_ge_0.
    set (a := (x - 15e-9) ^ 2) in *.
    destruct (exp_nonpos (- a / (2 * 2.3e-9 ^ 2))) as [P1 L1]; [lra|].
    destruct (exp_nonpos (- a / (2 * 4e-9 ^ 2))) as [P2 L2]; [lra|].
    destruct (Rltb 18e-9 x) eqn:E; [|apply Rltb_false in E; lra].
    set (y := (x - 18e-9) / 7e-9).
    assert (Hy : 0 <= y) by (unfold y; lra).
    replace ((1e9 * (x - 18e-9)) ^ 2) with (49 * y ^ 2) by (unfold y; field).
    replace (- (x - 18e-9) / 7e-9) with (- y) by (unfold y; field).
    pose proof (square_times_exp_neg y Hy) as Hup.
    pose proof td_up_amplitude_bounds as HA.
    set (A3 := td_item _td_args "up" 0) in *.
    set (w := y ^ 2 * exp (- y)) in *.
    replace (A3 * (49 * y ^ 2) * exp (- y)) with (49 * (A3 * w))
      by (unfold w; ring).
    assert (0 <= A3 * w <= 0.0116 * 4).
    { split; [apply Rmult_le_pos; lra|].
      apply Rmult_le_compat; lra. }
    lra.
Qed.

Close Scope string_scope.

Lemma diode_resp_nth (t_max : R) (n_pts : Z) (k : nat) :
  (k < Z.to_nat (n_pts + 1))%nat ->
  nth k (diode_resp t_max n_pts) 0 =
    diode_resp_at (INR k * (t_max / INR (Z.to_nat (n_pts + 1) - 1))).
Proof.
  intro Hk. unfold diode_resp.
  rewrite (nth_indep _ 0 (diode_resp_at 0))
    by now rewrite length_map, np_linspace0_length.
  rewrite map_nth, np_linspace0_nth by assumption. reflexivity.
Qed.

(** ** Calibration on a constant noise waveform *)

Lemma np_sum_const {A : Type} (c : R) (l : list A) :
  np_sum (map (fun _ => c) l) = INR (length l) * c.
Proof.
  induction l as [|x l IH]; [simpl; ring|].
  cbn [map np_sum fold_right length]. fold (np_sum (map (fun _ : A => c) l)).
  rewrite IH, S_INR. ring.
Qed.

Lemma np_mean_const {A : Type} (c : R) (l : list A) :
  (0 < length l)%nat -> np_mean (map (fun _ => c) l) = c.
Proof.
  intro Hl. unfold np_mean. rewrite np_sum_const, length_map.
  field. apply not_0_INR. lia.
Qed.

Lemma hum_noise_values (c : R) (ts : list R) :
  values (make_noise (hum_antenna c) ts) = map (fun _ => c) ts.
Proof.
  cbn [make_noise hum_antenna Signal_new values].
  rewrite fit_length_firstn by (rewrite length_map; lia).
  rewrite <- (length_map (fun _ => c) ts). apply firstn_all.
Qed.

Lemma hum_calibration (c thr amp clip : R) :
  0 <= c ->
  let sys := ARAAntennaSystem_init (hum_antenna c) thr amp clip in
  antenna sys = hum_antenna c /\ _power_mean sys = c /\ _power_rms sys = c /\
  power_threshold sys = thr /\ amplification sys = amp /\
  amplifier_clipping sys = clip.
Proof.
  intros Hc sys.
  assert (Hlen : (0 < length (np_linspace0 1e-6 (Z.to_nat 10001)))%nat)
    by (rewrite np_linspace0_length; lia).
  repeat split; unfold sys, ARAAntennaSystem_init, setup_antenna,
    set_power_threshold;
    cbn [antenna _power_mean _power_rms power_threshold amplification
         amplifier_clipping];
    try reflexivity; rewrite hum_noise_values.
  - now apply np_mean_const.
  - rewrite map_map, np_mean_const by assumption.
    apply sqrt_pow2. exact Hc.
Qed.

(** ** The comparison on explicit bounds *)

Lemma trigger_decision_below (self : ARAAntennaSystem) (vals : list R) (x : R) :
  In x vals -> x < low_trigger self -> trigger_decision self vals = Ok true.
Proof.
  intros Hin Hx.
  assert (Hne : vals <> []) by (intros ->; inversion Hin).
  destruct (trigger_decision_spec self vals Hne)
    as [lo [hi [b [[_ Hlo] [_ [-> Hb]]]]]].
  f_equal. apply Hb. left. specialize (Hlo x Hin). lra.
Qed.

Lemma trigger_decision_inside (self : ARAAntennaSystem) (vals : list R) :
  vals <> [] ->
  (forall x, In x vals -> low_trigger self <= x <= high_trigger self) ->
  trigger_decision self vals = Ok false.
Proof.
  intros Hne Hall.
  destruct (trigger_decision_spec self vals Hne)
    as [lo [hi [b [[Hlo _] [[Hhi _] [-> Hb]]]]]].
  f_equal. destruct b; [|reflexivity]. exfalso.
  destruct Hb as [Hb _]. specialize (Hb eq_refl).
  pose proof (Hall _ Hlo). pose proof (Hall _ Hhi). lra.
Qed.

(** At a spacing of 5 ns the rounded quotient is 20. *)
Lemma n_pts_5ns : py_int (float64 (float64 1e-7 / (5e-9 - 0))) = 20%Z.
Proof.
  replace (5e-9 - 0) with 5e-9 by lra. rewrite t_max_value.
  rewrite (float64_eval _ 4 5629499534213120).
  - pow2_eval. replace (5629499534213120 * / 281474976710656) with (IZR 20) by lra.
    apply py_int_IZR.
  - rewrite Rabs_pos_eq by lra. pow2_eval. lra.
  - pow2_eval. apply Rabs_lt_half. lra.
Qed.

(** The kernel's step at a spacing of 5 ns: a twentieth of [t_max],
    within a billionth of a femtosecond of 5 ns. *)
Lemma kernel_step_5ns :
  4.9999999999999e-9 < float64 1e-7 / 20 < 5e-9.
Proof. pose proof t_max_bounds. lra. Qed.

(** The diode output for [impulse v]: the first four kernel samples,
    scaled by [v^2 / resistance] and by [dt = 5 ns]. *)
Lemma tunnel_diode_impulse (dvt : ValueTypes) (self : ARAAntennaSystem) (v : R) :
  tunnel_diode dvt self (impulse v voltage) =
    Ok (mkSignal [0; 5e-9; 10e-9; 15e-9]
          (map (fun x => v ^ 2 / resistance (antenna self) * diode_resp_at x * 5e-9)
               [0; float64 1e-7 / 20; 2 * (float64 1e-7 / 20);
                3 * (float64 1e-7 / 20)])
          dvt).
Proof.
  rewrite (tunnel_diode_voltage dvt self (impulse v voltage) (5e-9 - 0))
    by (try reflexivity; lra).
  rewrite n_pts_5ns.
  set (T := float64 1e-7).
  assert (HK : forall k, (k < 21)%nat ->
            nth k (diode_resp T 20) 0 = diode_resp_at (INR k * (T / 20))).
  { intros k Hk. rewrite diode_resp_nth by (simpl; lia).
    f_equal. change (Z.to_nat (20 + 1) - 1)%nat with 20%nat.
    rewrite (INR_IZR_INZ 20). simpl Z.of_nat. reflexivity. }
  assert (HL : length (diode_resp T 20) = 21%nat)
    by (rewrite diode_resp_length; reflexivity).
  remember (diode_resp T 20) as K eqn:EK.
  unfold Signal_new, fit_length, convolve. rewrite length_map, HL.
  simpl. unfold conv_at. simpl. rewrite !HK by lia.
  replace (INR 0 * (T / 20)) with 0 by (simpl; lra).
  replace (INR 1 * (T / 20)) with (T / 20) by (simpl; lra).
  replace (INR 2 * (T / 20)) with (2 * (T / 20)) by (simpl; lra).
  replace (INR 3 * (T / 20)) with (3 * (T / 20)) by (simpl; lra).
  do 2 f_equal. f_equal; [|f_equal; [|f_equal; [|f_equal]]];
    unfold Rdiv; ring.
Qed.

(** Within a thousandth of a nanosecond of 15 ns the kernel is at its
    deepest, below -0.99. *)
Lemma diode_resp_at_near_peak (x : R) :
  Rabs (x - 15e-9) <= 1e-12 -> diode_resp_at x <= -0.99.
Proof.
  intro Hx. apply Rabs_le_bounds in Hx. rewrite diode_resp_at_formula.
  assert (Hp : 0 <= (1e-12 - (x - 15e-9)) * (1e-12 + (x - 15e-9)))
    by (apply Rmult_le_pos; lra).
  assert (Hsq : 0 <= (x - 15e-9) ^ 2 <= 1e-24)
    by (split; [apply pow2_ge_0 | nra]).
  clear Hp. set (a := (x - 15e-9) ^ 2) in *.
  pose proof (exp_ineq1_le (- a / (2 * 2.3e-9 ^ 2))) as E1.
  pose proof (exp_ineq1_le (- a / (2 * 4e-9 ^ 2))) as E2.
  assert (R1 : - a / (2 * 2.3e-9 ^ 2) >= -1e-6) by lra.
  assert (R2 : - a / (2 * 4e-9 ^ 2) >= -1e-6) by lra.
  destruct (Rltb 18e-9 x) eqn:E; [apply Rltb_true in E; lra|].
  lra.
Qed.

Lemma pulse_fourth_sample :
  10 ^ 2 / 100 * diode_resp_at (3 * (float64 1e-7 / 20)) * 5e-9 <= -4.95e-9.
Proof.
  pose proof kernel_step_5ns as Hs.
  assert (Hk : diode_resp_at (3 * (float64 1e-7 / 20)) <= -0.99).
  { apply diode_resp_at_near_peak. apply Rabs_le. lra. }
  lra.
Qed.

Lemma tunnel_diode_rejects (dvt : ValueTypes) (self : ARAAntennaSystem)
    (signal : Signal) :
  value_type signal <> voltage -> tunnel_diode dvt self signal = Raise ValueError.
Proof.
  intro Hvt. unfold tunnel_diode. destruct (value_type signal); simpl; congruence.
Qed.

(** ** [trigger] against the front-end-first chain on [hum_system] *)

Lemma hum_system_fields :
  antenna hum_system = hum_antenna 1e-10 /\
  low_trigger hum_system = -9e-10 /\ high_trigger hum_system = 11e-10 /\
  amplification hum_system = 1 /\ amplifier_clipping hum_system = 3.
Proof.
  destruct (hum_calibration 1e-10 10 1 3 ltac:(lra))
    as [Ha [Hm [Hr [Ht [Hamp Hclip]]]]].
  fold hum_system in Ha, Hm, Hr, Ht, Hamp, Hclip.
  assert (Habs : Rabs 10 = 10) by (apply Rabs_pos_eq; lra).
  unfold low_trigger, high_trigger. rewrite Hm, Hr, Ht, Habs.
  repeat split; try assumption; lra.
Qed.

Lemma np_clip_inside (lo hi x : R) : lo <= x <= hi -> np_clip lo hi x = x.
Proof.
  intros [Hlo Hhi]. unfold np_clip.
  rewrite Rmax_left by assumption. now rewrite Rmin_left.
Qed.

Lemma np_clip_above (lo hi x : R) : lo <= hi -> hi <= x -> np_clip lo hi x = hi.
Proof.
  intros Hlh Hx. unfold np_clip.
  rewrite Rmax_left by lra. now rewrite Rmin_right.
Qed.

(** The front end of [hum_system] clips the 10 V pulse to 3 V and drops
    the value type to the constructor's default. *)
Lemma front_end_pulse (dvt : ValueTypes) :
  front_end dvt hum_system pulse_signal = impulse 3 dvt.
Proof.
  destruct hum_system_fields as [_ [_ [_ [Hamp Hclip]]]].
  unfold front_end. rewrite Hamp, Hclip.
  unfold pulse_signal, impulse, Signal_new, fit_length.
  cbn [times values map length firstn Nat.sub repeat app].
  rewrite np_clip_above by lra. rewrite np_clip_inside by lra.
  f_equal. repeat f_equal; lra.
Qed.

Lemma trigger_pulse (dvt : ValueTypes) :
  trigger dvt hum_system pulse_signal = Ok true.
Proof.
  destruct hum_system_fields as [Ha [Hlow _]].
  unfold trigger, pulse_signal. rewrite tunnel_diode_impulse. cbn [bind values].
  apply trigger_decision_below
    with (x := 10 ^ 2 / resistance (antenna hum_system) *
               diode_resp_at (3 * (float64 1e-7 / 20)) * 5e-9).
  - simpl. tauto.
  - rewrite Hlow, Ha. cbn [resistance hum_antenna].
    pose proof pulse_fourth_sample. lra.
Qed.

Lemma trigger_front_end_first_pulse_voltage :
  trigger_front_end_first voltage hum_system pulse_signal = Ok false.
Proof.
  destruct hum_system_fields as [Ha [Hlow [Hhigh _]]].
  unfold trigger_front_end_first. rewrite front_end_pulse, tunnel_diode_impulse.
  cbn [bind values]. apply trigger_decision_inside; [discriminate|].
  intros x Hx. rewrite Hlow, Hhigh, Ha in *. cbn [resistance hum_antenna] in Hx.
  apply in_map_iff in Hx. destruct Hx as [t [<- Ht]].
  assert (Hk : -1 <= diode_resp_at t < 0).
  { apply diode_resp_at_early. simpl in Ht. pose proof kernel_step_5ns.
    destruct Ht as [<- | [<- | [<- | [<- | []]]]]; lra. }
  lra.
Qed.

Lemma trigger_front_end_first_pulse_other (dvt : ValueTypes) :
  dvt <> voltage ->
  trigger_front_end_first dvt hum_system pulse_signal = Raise ValueError.
Proof.
  intro Hd. unfold trigger_front_end_first.
  rewrite front_end_pulse, tunnel_diode_rejects; [reflexivity | exact Hd].
Qed.

(** C1 fails as stated.  On [hum_system] and the 10 V pulse, [trigger]
    returns true, while the chain that runs [front_end] first does not:
    whatever value type a [Signal] built without one carries, it either
    raises (the diode rejects a non-voltage waveform) or, the pulse being
    clipped to 3 V, returns false. *)
Lemma trigger_is_not_front_end_first :
  (trigger undefined hum_system pulse_signal = Ok true /\
   trigger_front_end_first undefined hum_system pulse_signal = Raise ValueError) /\
  (trigger voltage hum_system pulse_signal = Ok true /\
   trigger_front_end_first voltage hum_system pulse_signal = Ok false) /\
  (trigger field hum_system pulse_signal = Ok true /\
   trigger_front_end_first field hum_system pulse_signal = Raise ValueError) /\
  (trigger power hum_system pulse_signal = Ok true /\
   trigger_front_end_first power hum_system pulse_signal = Raise ValueError).
Proof.
  repeat split; try apply trigger_pulse;
    try (apply trigger_front_end_first_pulse_other; discriminate).
  apply trigger_front_end_first_pulse_voltage.
Qed.

(** ** Size of the diode's response to a bounded waveform *)

Lemma np_sum_abs_le (l : list R) (c : R) :
  (forall x, In x l -> Rabs x <= c) -> Rabs (np_sum l) <= INR (length l) * c.
Proof.
  induction l as [|x l IH]; intro H.
  - simpl. rewrite Rabs_R0. lra.
  - cbn [np_sum fold_right length]. fold (np_sum l). rewrite S_INR.
    pose proof (Rabs_triang x (np_sum l)) as Htri.
    assert (Hx : Rabs x <= c) by (apply H; now left).
    assert (Hl : Rabs (np_sum l) <= INR (length l) * c)
      by (apply IH; intros y Hy; apply H; now right).
    lra.
Qed.

Lemma nth_abs_le (l : list R) (c : R) (k : nat) :
  0 <= c -> (forall x, In x l -> Rabs x <= c) -> Rabs (nth k l 0) <= c.
Proof.
  intros Hc H. destruct (nth_in_or_default k l 0) as [Hin | Heq].
  - now apply H.
  - rewrite Heq, Rabs_R0. exact Hc.
Qed.

Lemma conv_at_abs_le (a b : list R) (A B : R) (n : nat) :
  0 <= A -> 0 <= B ->
  (forall x, In x a -> Rabs x <= A) -> (forall x, In x b -> Rabs x <= B) ->
  Rabs (conv_at a b n) <= INR (S n) * (A * B).
Proof.
  intros HA HB Ha Hb. unfold conv_at.
  set (terms := map (fun k => nth k a 0 * nth (n - k) b 0) (seq 0 (S n))).
  replace (INR (S n)) with (INR (length terms))
    by (unfold terms; now rewrite length_map, length_seq).
  apply np_sum_abs_le. unfold terms. intros x Hx. apply in_map_iff in Hx.
  destruct Hx as [k [<- _]]. rewrite Rabs_mult.
  apply Rmult_le_compat; try apply Rabs_pos; now apply nth_abs_le.
Qed.

Lemma fit_length_In (n : nat) (l : list R) (x : R) :
  In x (fit_length n l) -> In x l \/ x = 0.
Proof.
  unfold fit_length. intro H. apply in_app_or in H. destruct H as [H | H].
  - left. rewrite <- (firstn_skipn n l). apply in_or_app. now left.
  - right. eapply repeat_spec; eassumption.
Qed.

Lemma np_mean_abs_le (l : list R) (c : R) :
  l <> [] -> (forall x, In x l -> Rabs x <= c) -> Rabs (np_mean l) <= c.
Proof.
  intros Hne H. unfold np_mean.
  assert (Hlen : 0 < INR (length l)).
  { apply lt_0_INR. destruct l; [congruence | simpl; lia]. }
  unfold Rdiv. rewrite Rabs_mult, (Rabs_pos_eq (/ _))
    by (apply Rlt_le, Rinv_0_lt_compat; exact Hlen).
  pose proof (np_sum_abs_le l c H) as Hs.
  apply Rmult_le_reg_r with (INR (length l)); [exact Hlen|].
  rewrite Rmult_assoc, Rinv_l by lra. lra.
Qed.

Lemma Signal_dt_linspace (s : Signal) (stop : R) (num : nat) :
  times s = np_linspace0 stop num -> (2 <= num)%nat ->
  Signal_dt s = Some (stop / INR (num - 1)).
Proof.
  intros Ht Hnum. unfold Signal_dt. rewrite Ht. unfold np_linspace0.
  destruct num as [|[|m]]; try lia.
  cbn [seq map]. f_equal. simpl INR at 1 3. ring.
Qed.

(** ** Calibration of [loud_system] against the diode's response to its noise *)

Lemma noise_grid_step : 1e-6 / INR (Z.to_nat 10001 - 1) = 1e-10.
Proof.
  replace (Z.to_nat 10001 - 1)%nat with (Z.to_nat 10000) by lia.
  rewrite INR_IZR_INZ, Z2Nat.id by lia. lra.
Qed.

(** At the 0.1 ns spacing of the calibration waveform the rounded
    quotient is 1000. *)
Lemma n_pts_noise_grid : py_int (float64 (float64 1e-7 / 1e-10)) = 1000%Z.
Proof.
  rewrite t_max_value.
  rewrite (float64_eval _ 9 8796093022208000).
  - pow2_eval. replace (8796093022208000 * / 8796093022208) with (IZR 1000) by lra.
    apply py_int_IZR.
  - rewrite Rabs_pos_eq by lra. pow2_eval. lra.
  - pow2_eval. apply Rabs_lt_half. lra.
Qed.

(** The tunnel diode accepts the 1 V noise waveform of [hum_antenna 1],
    and no sample of its response exceeds 40 nV in size. *)
Lemma loud_noise_response (dvt : ValueTypes) :
  exists power_noise,
    tunnel_diode dvt loud_system
      (make_noise (hum_antenna 1) (np_linspace0 1e-6 (Z.to_nat 10001)))
      = Ok power_noise /\
    values power_noise <> [] /\
    forall x, In x (values power_noise) -> Rabs x <= 4e-8.
Proof.
  destruct (hum_calibration 1 10 1 3 ltac:(lra)) as [Ha _].
  fold loud_system in Ha.
  assert (Hlen : length (np_linspace0 1e-6 (Z.to_nat 10001)) = Z.to_nat 10001)
    by apply np_linspace0_length.
  set (s := make_noise (hum_antenna 1) (np_linspace0 1e-6 (Z.to_nat 10001))).
  assert (Hvals : values s = map (fun _ => 1) (np_linspace0 1e-6 (Z.to_nat 10001)))
    by apply hum_noise_values.
  assert (Htimes : times s = np_linspace0 1e-6 (Z.to_nat 10001)) by reflexivity.
  assert (Hvt : value_type s = voltage) by reflexivity.
  assert (Hdt : Signal_dt s = Some 1e-10).
  { rewrite (Signal_dt_linspace s 1e-6 (Z.to_nat 10001) Htimes) by lia.
    now rewrite noise_grid_step. }
  rewrite (tunnel_diode_voltage dvt loud_system s 1e-10 Hvt Hdt) by lra.
  rewrite n_pts_noise_grid.
  rewrite Ha. cbn [resistance hum_antenna].
  set (pw := map (fun v => v ^ 2 / 100) (values s)).
  set (K := diode_resp (float64 1e-7) 1000).
  assert (Hpw_len : length pw = Z.to_nat 10001)
    by (unfold pw; now rewrite length_map, Hvals, length_map).
  assert (HK_len : length K = Z.to_nat 1001)
    by (unfold K; rewrite diode_resp_length; reflexivity).
  assert (Hpw : forall x, In x pw -> Rabs x <= 0.01).
  { intros x Hx. unfold pw in Hx. rewrite Hvals, map_map in Hx.
    apply in_map_iff in Hx. destruct Hx as [t [<- _]].
    rewrite Rabs_pos_eq; lra. }
  assert (HK : forall x, In x K -> Rabs x <= 3).
  { intros x Hx. unfold K, diode_resp in Hx. apply in_map_iff in Hx.
    destruct Hx as [t [<- _]]. pose proof (diode_resp_at_bounds t).
    apply Rabs_le. lra. }
  eexists. split; [reflexivity|]. cbn [values Signal_new]. rewrite Htimes, Hlen.
  split.
  - intro E. apply (f_equal (@length R)) in E.
    rewrite fit_length_length in E. simpl in E. lia.
  - intros x Hx. apply fit_length_In in Hx.
    destruct Hx as [Hx | ->]; [|rewrite Rabs_R0; lra].
    apply in_map_iff in Hx. destruct Hx as [c [<- Hc]].
    unfold convolve in Hc. apply in_map_iff in Hc.
    destruct Hc as [n [<- Hn]]. apply in_seq in Hn.
    rewrite Hpw_len, HK_len in Hn.
    pose proof (conv_at_abs_le pw K 0.01 3 n ltac:(lra) ltac:(lra) Hpw HK) as Hb.
    assert (Hn' : INR (S n) <= 11002).
    { rewrite INR_IZR_INZ. apply IZR_le. lia. }
    rewrite Rabs_mult, (Rabs_pos_eq 1e-10) by lra.
    pose proof (Rabs_pos (conv_at pw K n)). nra.
Qed.

(** C2, evaluated.  [setup_antenna] stores the mean and the RMS of the
    noise waveform itself (1 microsecond, 10001 points, from the antenna's
    noise model): the waveform is not passed through [tunnel_diode], which
    the comment above those lines announces.  On [loud_system], whose
    noise is a constant 1 V, the stored mean and RMS are both 1, while
    the mean and the RMS of the tunnel diode's response to that noise are
    at most 40 nV. *)
Theorem calibration_takes_raw_noise :
  (forall (self : ARAAntennaSystem) (ant : ARAAntenna),
     let long_noise := make_noise ant (np_linspace0 1e-6 (Z.to_nat 10001)) in
     antenna (setup_antenna self ant) = ant /\
     _power_mean (setup_antenna self ant) = np_mean (values long_noise) /\
     _power_rms (setup_antenna self ant) =
       sqrt (np_mean (map (fun v => v ^ 2) (values long_noise)))) /\
  (_power_mean loud_system = 1 /\ _power_rms loud_system = 1) /\
  (forall dvt : ValueTypes,
     exists power_noise,
       tunnel_diode dvt loud_system
         (make_noise (antenna loud_system) (np_linspace0 1e-6 (Z.to_nat 10001)))
         = Ok power_noise /\
       Rabs (np_mean (values power_noise)) <= 4e-8 /\
       sqrt (np_mean (map (fun v => v ^ 2) (values power_noise))) <= 4e-8).
Proof.
  destruct (hum_calibration 1 10 1 3 ltac:(lra)) as [Ha [Hm [Hr _]]].
  fold loud_system in Ha, Hm, Hr.
  split; [|split].
  - intros self ant long_noise. repeat split.
  - split; assumption.
  - intro dvt. rewrite Ha.
    destruct (loud_noise_response dvt) as [power_noise [Hok [Hne Hall]]].
    exists power_noise. split; [exact Hok|]. split.
    + now apply np_mean_abs_le.
    + replace 4e-8 with (sqrt (4e-8 ^ 2)) by (apply sqrt_pow2; lra).
      apply sqrt_le_1_alt.
      apply Rle_trans with (Rabs (np_mean (map (fun v => v ^ 2) (values power_noise))));
        [apply Rle_abs|].
      apply np_mean_abs_le.
      * intro E. apply map_eq_nil in E. contradiction.
      * intros x Hx. apply in_map_iff in Hx. destruct Hx as [v [<- Hv]].
        specialize (Hall v Hv). rewrite <- RPow_abs.
        pose proof (Rabs_pos v). nra.
Qed.

(** * Further properties of the code *)

(** ** [front_end] *)

Lemma np_clip_bounds (lo hi x : R) : lo <= hi -> lo <= np_clip lo hi x <= hi.
Proof.
  intro H. unfold np_clip, Rmin, Rmax.
  destruct (Rle_dec x lo); destruct (Rle_dec _ hi); lra.
Qed.

Lemma nth_error_fit_length_map (f : R -> R) (vals : list R) (N n : nat) (v : R) :
  (n < N)%nat -> nth_error vals n = Some v ->
  nth_error (fit_length N (map f vals)) n = Some (f v).
Proof.
  intros HN Hv. unfold fit_length.
  assert (Hn : (n < length vals)%nat) by (apply nth_error_Some; congruence).
  rewrite nth_error_app1 by (rewrite length_firstn, length_map; lia).
  rewrite nth_error_firstn. destruct (Nat.ltb_spec n N); [|lia].
  rewrite nth_error_map, Hv. reflexivity.
Qed.

(** X1.  With a non-negative clipping level, [front_end] returns a
    waveform on the input's times with one sample per time, every sample
    within [-clip, clip]; a sample whose amplified value already lies in
    that range comes out as [value * amplification] exactly. *)
Theorem front_end_clips_and_passes
    (dvt : ValueTypes) (self : ARAAntennaSystem) (signal : Signal) :
  0 <= amplifier_clipping self ->
  times (front_end dvt self signal) = times signal /\
  length (values (front_end dvt self signal)) = length (times signal) /\
  (forall y, In y (values (front_end dvt self signal)) ->
     - amplifier_clipping self <= y <= amplifier_clipping self) /\
  (forall n v, (n < length (times signal))%nat ->
     nth_error (values signal) n = Some v ->
     - amplifier_clipping self <= v * amplification self
       <= amplifier_clipping self ->
     nth_error (values (front_end dvt self signal)) n =
       Some (v * amplification self)).
Proof.
  intro Hc. unfold front_end. cbn [times values Signal_new].
  split; [reflexivity|]. split; [apply fit_length_length|]. split.
  - intros y Hy. apply fit_length_In in Hy. destruct Hy as [Hy | ->]; [|lra].
    apply in_map_iff in Hy. destruct Hy as [v [<- _]].
    apply np_clip_bounds. lra.
  - intros n v Hn Hv Hin.
    rewrite (nth_error_fit_length_map _ _ _ _ v Hn Hv).
    now rewrite np_clip_inside.
Qed.

Lemma front_end_clips_and_passes_witness :
  nth_error (values (front_end undefined unit_band_system
                       (mkSignal [0; 1; 2] [0.5; -7; 2] voltage))) 2 = Some (2 * 1) /\
  forall y, In y (values (front_end undefined unit_band_system
                        (mkSignal [0; 1; 2] [0.5; -7; 2] voltage))) ->
    - 3 <= y <= 3.
Proof.
  destruct (front_end_clips_and_passes undefined unit_band_system
              (mkSignal [0; 1; 2] [0.5; -7; 2] voltage))
    as [_ [_ [Hall Hpass]]]; [simpl; lra|].
  split.
  - apply Hpass; [simpl; lia | reflexivity | simpl; lra].
  - exact Hall.
Defined.

(** X2.  [front_end] and [tunnel_diode] build their result without a
    value type.  Unless a waveform built that way counts as a voltage,
    the tunnel diode rejects every [front_end] output and every output of
    its own, and so does [trigger]: the stages do not chain. *)
Theorem untyped_outputs_are_rejected
    (dvt : ValueTypes) (self : ARAAntennaSystem) (signal : Signal) :
  dvt <> voltage ->
  value_type (front_end dvt self signal) = dvt /\
  tunnel_diode dvt self (front_end dvt self signal) = Raise ValueError /\
  trigger dvt self (front_end dvt self signal) = Raise ValueError /\
  (forall out, tunnel_diode dvt self signal = Ok out ->
     value_type out = dvt /\
     tunnel_diode dvt self out = Raise ValueError).
Proof.
  intro Hd. split; [reflexivity|]. split; [|split].
  - now apply tunnel_diode_rejects.
  - unfold trigger. now rewrite tunnel_diode_rejects.
  - intros out Hout.
    destruct (tunnel_diode_ok_inv _ _ _ _ Hout) as [_ [dt [_ [_ [_ ->]]]]].
    split; [reflexivity | now apply tunnel_diode_rejects].
Qed.

Lemma untyped_outputs_are_rejected_witness :
  trigger undefined unit_band_system (front_end undefined unit_band_system pulse_signal)
    = Raise ValueError.
Proof.
  apply (untyped_outputs_are_rejected undefined unit_band_system pulse_signal).
  discriminate.
Defined.

(** ** [tunnel_diode]: scaling, causality, the kernel's grid *)

Lemma np_sum_scale {A : Type} (c : R) (g : A -> R) (l : list A) :
  np_sum (map (fun x => c * g x) l) = c * np_sum (map g l).
Proof.
  induction l as [|x l IH]; [simpl; ring|].
  cbn [map np_sum fold_right].
  fold (np_sum (map (fun x => c * g x) l)). fold (np_sum (map g l)).
  rewrite IH. ring.
Qed.

Lemma nth_scale (c : R) (a : list R) (k : nat) :
  nth k (map (Rmult c) a) 0 = c * nth k a 0.
Proof.
  rewrite <- (Rmult_0_r c) at 1. apply (map_nth (Rmult c)).
Qed.

Lemma conv_at_scale (c : R) (a b : list R) (n : nat) :
  conv_at (map (Rmult c) a) b n = c * conv_at a b n.
Proof.
  unfold conv_at. rewrite <- np_sum_scale. f_equal.
  apply map_ext. intro k. rewrite nth_scale. ring.
Qed.

Lemma convolve_scale (c : R) (a b : list R) :
  convolve (map (Rmult c) a) b = map (Rmult c) (convolve a b).
Proof.
  unfold convolve. rewrite length_map, map_map.
  apply map_ext. intro n. apply conv_at_scale.
Qed.

Lemma fit_length_scale (N : nat) (c : R) (l : list R) :
  fit_length N (map (fun v => v * c) l) = map (fun v => v * c) (fit_length N l).
Proof.
  unfold fit_length. rewrite map_app, firstn_map, length_map, map_repeat.
  now rewrite Rmult_0_l.
Qed.

(** X3.  The diode's output is quadratic in the input: scaling every
    sample of the input by [c] scales every sample of the output by
    [c^2], and the call fails exactly as before.  In particular flipping
    the sign of the input changes nothing. *)
Theorem tunnel_diode_quadratic
    (dvt : ValueTypes) (self : ARAAntennaSystem) (signal : Signal) (c : R) :
  tunnel_diode dvt self (scale_values signal c) =
    match tunnel_diode dvt self signal with
    | Ok out => Ok (scale_values out (c ^ 2))
    | Raise e => Raise e
    end /\
  tunnel_diode dvt self (scale_values signal (-1)) =
    tunnel_diode dvt self signal.
Proof.
  assert (Hq : forall k,
    tunnel_diode dvt self (scale_values signal k) =
    match tunnel_diode dvt self signal with
    | Ok out => Ok (scale_values out (k ^ 2))
    | Raise e => Raise e
    end).
  { intro k. unfold tunnel_diode, Signal_dt, scale_values.
    cbn [times values value_type].
    destruct (negb (ValueTypes_eqb (value_type signal) voltage)); [reflexivity|].
    destruct (times signal) as [|t0 [|t1 ts]]; try reflexivity.
    destruct (Req_dec_T (t1 - t0) 0); [reflexivity|].
    destruct (py_int (float64 (float64 1e-7 / (t1 - t0))) <? 0)%Z; [reflexivity|].
    unfold Signal_new. cbn [times values value_type]. do 2 f_equal.
    rewrite <- fit_length_scale. f_equal.
    rewrite map_map.
    replace (map (fun v => (v * k) ^ 2 / resistance (antenna self)) (values signal))
      with (map (Rmult (k ^ 2))
              (map (fun v => v ^ 2 / resistance (antenna self)) (values signal)))
      by (rewrite map_map; apply map_ext; intro v; unfold Rdiv; ring).
    rewrite convolve_scale, !map_map. apply map_ext. intro x. ring. }
  split; [apply Hq|].
  rewrite Hq. destruct (tunnel_diode dvt self signal) as [out|e]; [|reflexivity].
  f_equal. destruct out as [ts vs vt]. unfold scale_values.
  cbn [times values value_type]. f_equal.
  rewrite <- (map_id vs) at 2. apply map_ext. intro v. ring.
Qed.

Lemma conv_at_window (a a' b : list R) (n : nat) :
  (forall k, (n - (length b - 1) <= k <= n)%nat -> nth k a 0 = nth k a' 0) ->
  conv_at a b n = conv_at a' b n.
Proof.
  intro H. unfold conv_at. f_equal. apply map_ext_in. intros k Hk.
  apply in_seq in Hk.
  destruct (Nat.lt_ge_cases (n - k) (length b)) as [Hlt | Hge].
  - rewrite H by lia. reflexivity.
  - rewrite (nth_overflow b 0 Hge). ring.
Qed.

Lemma conv_at_overflow (a b : list R) (n : nat) :
  (length a + length b - 1 <= n)%nat -> conv_at a b n = 0.
Proof.
  intro H. unfold conv_at.
  replace (map (fun k => nth k a 0 * nth (n - k) b 0) (seq 0 (S n)))
    with (map (fun _ : nat => 0) (seq 0 (S n))).
  - rewrite np_sum_const. ring.
  - apply map_ext_in. intros k Hk. apply in_seq in Hk.
    destruct (Nat.lt_ge_cases k (length a)) as [Hlt | Hge].
    + rewrite (nth_overflow b 0) by lia. ring.
    + rewrite (nth_overflow a 0 Hge). ring.
Qed.

Lemma nth_fit_length_convolve (N n : nat) (dt : R) (a b : list R) :
  (n < N)%nat ->
  nth n (fit_length N (map (fun c => c * dt) (convolve a b))) 0 =
    conv_at a b n * dt.
Proof.
  intro Hn. unfold fit_length.
  set (l := map (fun c => c * dt) (convolve a b)).
  assert (Hl : length l = (length a + length b - 1)%nat)
    by (unfold l; now rewrite length_map, convolve_length).
  destruct (Nat.lt_ge_cases n (length l)) as [Hlt | Hge].
  - rewrite app_nth1 by (rewrite length_firstn; lia).
    rewrite nth_firstn. destruct (Nat.ltb_spec n N); [|lia].
    unfold l. set (f := fun c => c * dt).
    rewrite (nth_indep _ 0 (f 0)) by (fold l; exact Hlt).
    rewrite map_nth. unfold f, convolve.
    rewrite (nth_indep _ 0 (conv_at a b 0))
      by (rewrite length_map, length_seq; lia).
    rewrite map_nth, seq_nth by lia. reflexivity.
  - rewrite app_nth2 by (rewrite length_firstn; lia).
    rewrite conv_at_overflow by lia.
    rewrite nth_repeat. ring.
Qed.

(** Every output sample of the diode is one convolution sum times [dt]. *)
Lemma tunnel_diode_sample (dvt : ValueTypes) (self : ARAAntennaSystem)
    (signal out : Signal) :
  tunnel_diode dvt self signal = Ok out ->
  exists dt, Signal_dt signal = Some dt /\ dt <> 0 /\
    (0 <= py_int (float64 (float64 1e-7 / dt)))%Z /\
    length (values out) = length (times signal) /\
    forall n, (n < length (times signal))%nat ->
      nth n (values out) 0 =
        conv_at (map (fun v => v ^ 2 / resistance (antenna self)) (values signal))
                (diode_resp (float64 1e-7)
                   (py_int (float64 (float64 1e-7 / dt)))) n * dt.
Proof.
  intro H. destruct (tunnel_diode_ok_inv _ _ _ _ H) as [_ [dt [Hdt [Hne [Hn ->]]]]].
  exists dt. repeat split; try assumption.
  - cbn [values Signal_new]. apply fit_length_length.
  - intros n Hlt. cbn [values Signal_new]. now apply nth_fit_length_convolve.
Qed.

(** X4.  The diode is causal with a memory of [n_pts] samples, where
    [n_pts] is the integer part of the double quotient [t_max / dt] that
    the code computes: two waveforms on the same times that agree on
    samples [n - n_pts .. n] give the same output sample [n], whatever
    they do before or after. *)
Theorem tunnel_diode_causal_finite_memory
    (dvt : ValueTypes) (self : ARAAntennaSystem)
    (s1 s2 out1 out2 : Signal) (dt : R) (n : nat) :
  times s1 = times s2 -> Signal_dt s1 = Some dt ->
  tunnel_diode dvt self s1 = Ok out1 -> tunnel_diode dvt self s2 = Ok out2 ->
  (forall k,
     (n - Z.to_nat (py_int (float64 (float64 1e-7 / dt))) <= k <= n)%nat ->
     nth k (values s1) 0 = nth k (values s2) 0) ->
  nth n (values out1) 0 = nth n (values out2) 0.
Proof.
  intros Ht Hdt H1 H2 Hagree.
  destruct (tunnel_diode_sample _ _ _ _ H1) as [d1 [Hd1 [_ [Hn1 [Hl1 Hs1]]]]].
  destruct (tunnel_diode_sample _ _ _ _ H2) as [d2 [Hd2 [_ [_ [Hl2 Hs2]]]]].
  assert (d1 = dt) by congruence. subst d1.
  assert (d2 = dt) by (unfold Signal_dt in *; rewrite <- Ht in Hd2; congruence).
  subst d2.
  destruct (Nat.lt_ge_cases n (length (times s1))) as [Hlt | Hge].
  - rewrite Hs1 by assumption. rewrite Hs2 by (rewrite <- Ht; assumption).
    f_equal. apply conv_at_window. intros k Hk.
    rewrite diode_resp_length in Hk.
    set (f := fun v => v ^ 2 / resistance (antenna self)).
    assert (Hf0 : f 0 = 0) by (unfold f, Rdiv; ring).
    rewrite <- Hf0 at 1 2. rewrite !map_nth. f_equal.
    apply Hagree. lia.
  - rewrite !nth_overflow by (rewrite ?Hl1, ?Hl2, <- ?Ht; lia). reflexivity.
Qed.

(** The double nearest to 5 ns lies a little above it, so the exact
    quotient of [t_max] by it is below 20; the double quotient, though,
    is 20. *)
Lemma float64_5ns : float64 5e-9 = 3022314549036573 / 604462909807314587353088.
Proof.
  rewrite (float64_eval 5e-9 (-28) 6044629098073146).
  - pow2_eval. lra.
  - rewrite Rabs_pos_eq by lra. pow2_eval. lra.
  - pow2_eval. apply Rabs_lt_half. lra.
Qed.

Lemma n_pts_double_5ns :
  float64 1e-7 / float64 5e-9 < 20 /\
  py_int (float64 (float64 1e-7 / float64 5e-9)) = 20%Z.
Proof.
  rewrite t_max_value, float64_5ns. split; [lra|].
  rewrite (float64_eval _ 4 5629499534213120).
  - pow2_eval. replace (5629499534213120 * / 281474976710656) with (IZR 20) by lra.
    apply py_int_IZR.
  - rewrite Rabs_pos_eq by lra. pow2_eval. lra.
  - pow2_eval. apply Rabs_lt_half. lra.
Qed.

Lemma tunnel_diode_causal_finite_memory_witness :
  exists out1 out2,
    tunnel_diode undefined unit_band_system
      (mkSignal [0; float64 5e-9; 10e-9; 15e-9] [10; 0; 0; 0] voltage) = Ok out1 /\
    tunnel_diode undefined unit_band_system
      (mkSignal [0; float64 5e-9; 10e-9; 15e-9] [10; 0; 0; 7] voltage) = Ok out2 /\
    nth 2 (values out1) 0 = nth 2 (values out2) 0.
Proof.
  set (s1 := mkSignal [0; float64 5e-9; 10e-9; 15e-9] [10; 0; 0; 0] voltage).
  set (s2 := mkSignal [0; float64 5e-9; 10e-9; 15e-9] [10; 0; 0; 7] voltage).
  assert (Hpos : 0 < float64 5e-9 - 0) by (rewrite float64_5ns; lra).
  pose proof (tunnel_diode_voltage undefined unit_band_system s1
                (float64 5e-9 - 0) eq_refl eq_refl Hpos) as H1.
  pose proof (tunnel_diode_voltage undefined unit_band_system s2
                (float64 5e-9 - 0) eq_refl eq_refl Hpos) as H2.
  eexists. eexists. split; [exact H1|]. split; [exact H2|].
  apply (tunnel_diode_causal_finite_memory undefined unit_band_system
           s1 s2 _ _ (float64 5e-9 - 0) 2 eq_refl eq_refl H1 H2).
  intros k [_ Hk].
  destruct k as [|[|[|k]]]; try reflexivity. lia.
Defined.

(** The double nearest to 1 ns, and the double quotient of [t_max] by
    it: a little less than 100, so that [int] gives 99. *)
Lemma float64_1ns : float64 1e-9 = 4835703278458517 / 4835703278458516698824704.
Proof.
  rewrite (float64_eval 1e-9 (-30) 4835703278458517).
  - pow2_eval. lra.
  - rewrite Rabs_pos_eq by lra. pow2_eval. lra.
  - pow2_eval. apply Rabs_lt_half. lra.
Qed.

Lemma n_pts_double_1ns : py_int (float64 (float64 1e-7 / float64 1e-9)) = 99%Z.
Proof.
  rewrite t_max_value, float64_1ns.
  rewrite (float64_eval _ 6 7036874417766399).
  - pow2_eval. set (q := 7036874417766399 * / 70368744177664).
    assert (Hq : 99 <= q < 99 + 1) by (unfold q; lra).
    rewrite py_int_nonneg by lra. symmetry. apply Int_part_spec. lra.
  - rewrite Rabs_pos_eq by lra. pow2_eval. lra.
  - pow2_eval. apply Rabs_lt_half. lra.
Qed.

(** X5.  The kernel is not sampled at the signal's own step.  For a
    spacing [dt > 0] it has [n_pts + 1] samples at multiples of
    [t_max / n_pts], where [n_pts] is the integer part of the double
    quotient [q] of [t_max] by [dt], itself within a relative [2^-53] of
    the exact quotient; that step equals [dt] only when the exact
    quotient is [n_pts].  With [n_pts = 0] the kernel is the single
    sample at time 0. *)
Theorem diode_resp_grid (dt : R) :
  0 < dt ->
  let t_max := float64 1e-7 in
  let q := float64 (t_max / dt) in
  let n_pts := py_int q in
  (0 <= n_pts)%Z /\ IZR n_pts <= q < IZR n_pts + 1 /\
  Rabs (q - t_max / dt) <= powerRZ 2 (- 53) * (t_max / dt) /\
  length (diode_resp t_max n_pts) = (Z.to_nat n_pts + 1)%nat /\
  (forall k, (k <= Z.to_nat n_pts)%nat ->
     nth k (diode_resp t_max n_pts) 0 =
       diode_resp_at (INR k * (t_max / IZR n_pts))) /\
  ((1 <= n_pts)%Z -> (t_max / IZR n_pts = dt <-> t_max / dt = IZR n_pts)) /\
  (n_pts = 0%Z -> diode_resp t_max n_pts = [diode_resp_at 0]).
Proof.
  intros Hpos t_max q n_pts.
  pose proof t_max_bounds as Ht. fold t_max in Ht.
  assert (Hx : 0 < t_max / dt) by (apply Rdiv_lt_0_compat; lra).
  assert (Hq : 0 <= q) by (apply float64_nonneg; lra).
  assert (Hn : n_pts = Int_part q) by (apply py_int_nonneg; exact Hq).
  destruct (base_Int_part q) as [Hlo Hhi]. rewrite <- Hn in Hlo, Hhi.
  pose proof (Int_part_nonneg q Hq) as H0. rewrite <- Hn in H0.
  split; [exact H0|]. split; [lra|]. split.
  { pose proof (float64_rel_error (t_max / dt)) as He.
    rewrite (Rabs_pos_eq (t_max / dt)) in He by lra. exact He. }
  split; [rewrite diode_resp_length; lia|]. split; [|split].
  - intros k Hk. rewrite diode_resp_nth by lia. f_equal. f_equal. f_equal.
    replace (Z.to_nat (n_pts + 1) - 1)%nat with (Z.to_nat n_pts) by lia.
    rewrite INR_IZR_INZ, Z2Nat.id by lia. reflexivity.
  - intro H1. assert (HN : 1 <= IZR n_pts) by (apply IZR_le; lia).
    set (N := IZR n_pts) in *. set (x := t_max / dt) in *.
    assert (Hxd : x * dt = t_max) by (unfold x; field; lra).
    assert (Hs : t_max / N * N = t_max) by (field; lra).
    split; intro E.
    + assert (x * dt = N * dt) by (rewrite <- E at 2; lra).
      apply Rmult_eq_reg_r with dt; lra.
    + apply Rmult_eq_reg_r with N; [|lra]. rewrite Hs, <- E. lra.
  - intros ->. unfold diode_resp, np_linspace0.
    change (Z.to_nat (0 + 1)) with 1%nat. cbn [seq map Nat.sub INR].
    f_equal. f_equal. ring.
Qed.

Lemma diode_resp_grid_witness :
  length (diode_resp (float64 1e-7)
            (py_int (float64 (float64 1e-7 / float64 1e-9)))) = 100%nat /\
  nth 1 (diode_resp (float64 1e-7)
           (py_int (float64 (float64 1e-7 / float64 1e-9)))) 0 =
    diode_resp_at (float64 1e-7 / 99) /\
  1.0101e-9 < float64 1e-7 / 99 < 1.0102e-9.
Proof.
  assert (Hpos : 0 < float64 1e-9) by (rewrite float64_1ns; lra).
  destruct (diode_resp_grid (float64 1e-9) Hpos) as [_ [_ [_ [Hl [Hk _]]]]].
  specialize (Hk 1%nat). rewrite n_pts_double_1ns in *.
  split; [exact Hl|]. split.
  - rewrite Hk by (simpl; lia). f_equal. simpl. lra.
  - pose proof t_max_bounds. lra.
Defined.

(** ** [trigger] and the calibration *)

(** X6.  With a non-negative calibrated rms, raising the size of the
    threshold never adds a trigger: a waveform that triggers at a
    threshold triggers at every threshold of smaller absolute value, and
    one that does not trigger stays silent at every larger one. *)
Theorem trigger_threshold_monotone
    (dvt : ValueTypes) (self : ARAAntennaSystem) (signal : Signal)
    (thr thr' : R) :
  0 <= _power_rms self -> Rabs thr <= Rabs thr' ->
  (trigger dvt (set_power_threshold self thr') signal = Ok true ->
   trigger dvt (set_power_threshold self thr) signal = Ok true) /\
  (trigger dvt (set_power_threshold self thr) signal = Ok false ->
   trigger dvt (set_power_threshold self thr') signal = Ok false).
Proof.
  intros Hr Habs.
  assert (Hprod : _power_rms self * Rabs thr <= _power_rms self * Rabs thr')
    by (apply Rmult_le_compat_l; assumption).
  unfold trigger.
  rewrite (tunnel_diode_ignores_settings dvt (set_power_threshold self thr)
             (set_power_threshold self thr')) by reflexivity.
  destruct (tunnel_diode dvt (set_power_threshold self thr) signal) as [p|e];
    [|split; discriminate].
  cbn [bind]. unfold trigger_decision, low_trigger, high_trigger.
  cbn [_power_mean _power_rms power_threshold set_power_threshold].
  destruct (np_min (values p)) as [lo|e]; [|split; discriminate].
  cbn [bind].
  destruct (Rltb lo (_power_mean self - _power_rms self * Rabs thr')) eqn:E1;
  destruct (Rltb lo (_power_mean self - _power_rms self * Rabs thr)) eqn:E2;
    try (split; intro; (reflexivity || discriminate)).
  - apply Rltb_true in E1. apply Rltb_false in E2. lra.
  - destruct (np_max (values p)) as [hi|e]; [|split; discriminate].
    cbn [bind].
    destruct (Rltb (_power_mean self + _power_rms self * Rabs thr') hi) eqn:E3;
    destruct (Rltb (_power_mean self + _power_rms self * Rabs thr) hi) eqn:E4;
      try (split; intro; (reflexivity || discriminate)).
    apply Rltb_true in E3. apply Rltb_false in E4. lra.
Qed.

Lemma trigger_threshold_monotone_witness :
  trigger voltage (set_power_threshold hum_system (-10)) pulse_signal = Ok true.
Proof.
  destruct (hum_calibration 1e-10 10 1 3 ltac:(lra)) as [Ha [Hm [Hr _]]].
  fold hum_system in Ha, Hm, Hr.
  apply (trigger_threshold_monotone voltage hum_system pulse_signal (-10) 20).
  - rewrite Hr. lra.
  - rewrite Rabs_left, Rabs_pos_eq by lra. lra.
  - unfold trigger, pulse_signal. rewrite tunnel_diode_impulse. cbn [bind values].
    apply trigger_decision_below
      with (x := 10 ^ 2 / resistance (antenna (set_power_threshold hum_system 20))
                 * diode_resp_at (3 * (float64 1e-7 / 20)) * 5e-9).
    + simpl. tauto.
    + unfold low_trigger.
      cbn [antenna _power_mean _power_rms power_threshold set_power_threshold].
      rewrite Hm, Hr, Ha, Rabs_pos_eq by lra.
      cbn [resistance hum_antenna]. pose proof pulse_fourth_sample. lra.
Defined.






(** ** [generate_freq_gains]: missing rows, phases, the last cell *)

(** X8.  With a table present, the query succeeds exactly when every
    frequency has all four corner entries of the cell, and then returns
    one blended gain per frequency; as soon as one corner entry of one
    frequency is missing it raises [KeyError]. *)
Theorem generate_freq_gains_key_error
    (self : ARAAntenna) (data : response_table) (freqs : list R)
    (theta phi : R) :
  _response_data self = Some data -> _response_freqs self = Some freqs ->
  let '(theta_under, theta_over, phi_under, phi_over, t, u) :=
    grid_cell theta phi in
  ((forall f, In f freqs ->
      corners_present data f theta_under theta_over phi_under phi_over) ->
   generate_freq_gains self theta phi =
     Ok (freqs,
         map (fun f => blend t u
                (gain_at data f theta_under phi_under)
                (gain_at data f theta_over phi_under)
                (gain_at data f theta_under phi_over)
                (gain_at data f theta_over phi_over)) freqs)) /\
  ((exists f, In f freqs /\
      ~ corners_present data f theta_under theta_over phi_under phi_over) ->
   generate_freq_gains self theta phi = Raise KeyError).
Proof.
  intros Hd Hf. unfold generate_freq_gains. rewrite Hd, Hf.
  destruct (grid_cell theta phi) as [[[[[tu to] pu] po] t] u].
  split; intro H.
  - rewrite fetch_corner_gains_present by exact H. cbn [bind].
    rewrite !arr_scale_map, !arr_add_map. reflexivity.
  - rewrite fetch_corner_gains_missing by exact H. reflexivity.
Qed.

Lemma generate_freq_gains_key_error_witness :
  generate_freq_gains gutted_antenna 1 2 = Raise KeyError.
Proof.
  pose proof (generate_freq_gains_key_error gutted_antenna [] [3e8] 1 2
                eq_refl eq_refl) as H.
  destruct (grid_cell 1 2) as [[[[[tu to] pu] po] t] u].
  apply (proj2 H). exists 3e8. split; [now left|].
  intros [Hc _]. apply Hc. reflexivity.
Defined.

Lemma gain_lookup_rephase (ph : response_key -> R -> R) (data : response_table)
    (k : response_key) :
  match dict_getitem response_key_eqb k (rephase ph data),
        dict_getitem response_key_eqb k data with
  | Ok e', Ok e => fst e' = fst e
  | Raise e', Raise e => e' = e
  | _, _ => False
  end.
Proof.
  unfold dict_getitem.
  induction data as [|[k' [g p]] data IH]; [reflexivity|].
  cbn [rephase map dict_get fst snd].
  destruct (response_key_eqb k k'); [reflexivity | exact IH].
Qed.

Lemma fetch_corner_gains_rephase (ph : response_key -> R -> R)
    (data : response_table) (tu to pu po : Z) (freqs : list R) :
  fetch_corner_gains (rephase ph data) tu to pu po freqs =
    fetch_corner_gains data tu to pu po freqs.
Proof.
  induction freqs as [|f freqs IH]; [reflexivity|].
  cbn [fetch_corner_gains].
  pose proof (gain_lookup_rephase ph data (f, tu, pu)) as H1.
  pose proof (gain_lookup_rephase ph data (f, to, pu)) as H2.
  pose proof (gain_lookup_rephase ph data (f, tu, po)) as H3.
  pose proof (gain_lookup_rephase ph data (f, to, po)) as H4.
  destruct (dict_getitem response_key_eqb (f, tu, pu) (rephase ph data));
    destruct (dict_getitem response_key_eqb (f, tu, pu) data);
    try contradiction; cbn [bind]; [|congruence].
  destruct (dict_getitem response_key_eqb (f, to, pu) (rephase ph data));
    destruct (dict_getitem response_key_eqb (f, to, pu) data);
    try contradiction; cbn [bind]; [|congruence].
  destruct (dict_getitem response_key_eqb (f, tu, po) (rephase ph data));
    destruct (dict_getitem response_key_eqb (f, tu, po) data);
    try contradiction; cbn [bind]; [|congruence].
  destruct (dict_getitem response_key_eqb (f, to, po) (rephase ph data));
    destruct (dict_getitem response_key_eqb (f, to, po) data);
    try contradiction; cbn [bind]; [|congruence].
  rewrite IH, H1, H2, H3, H4. reflexivity.
Qed.

(** X10.  The stored phases play no part: replacing every phase of the
    table by any other value leaves the result of the query unchanged. *)
Theorem generate_freq_gains_ignores_phase
    (self : ARAAntenna) (data : response_table)
    (ph : response_key -> R -> R) (theta phi : R) :
  _response_data self = Some data ->
  generate_freq_gains (set_response_data self (Some (rephase ph data))) theta phi =
    generate_freq_gains self theta phi.
Proof.
  intro Hd. unfold generate_freq_gains.
  cbn [_response_data _response_freqs set_response_data]. rewrite Hd.
  destruct (grid_cell theta phi) as [[[[[tu to] pu] po] t] u].
  destruct (_response_freqs self); [|reflexivity].
  now rewrite fetch_corner_gains_rephase.
Qed.

Lemma generate_freq_gains_ignores_phase_witness :
  generate_freq_gains
    (set_response_data ramp_antenna
       (Some (rephase (fun _ p => p + 90) ramp_table))) 1 2 =
  generate_freq_gains ramp_antenna 1 2.
Proof.
  apply generate_freq_gains_ignores_phase. reflexivity.
Defined.

(** X11.  The last cell of each angle wraps around, and the modulus
    itself makes a cell of its own.  For a reduced polar angle in
    [175, 180) the cell runs from the 175-degree row up to the 0-degree
    row, and for a reduced azimuth in [355, 360) from the 355-degree
    column to the 0-degree column; below that the upper corner is 5
    degrees above the lower one.  A polar angle just below zero reduces to
    180 itself, and the cell is then row 180 to row 5 with weight 0; an
    azimuth just below zero reduces to 360, with columns 360 and 5. *)
Theorem grid_cell_wraps (theta phi : R) :
  let th := py_fmod (np_degrees theta) 180 in
  let ph := py_fmod (np_degrees phi) 360 in
  let '(theta_under, theta_over, phi_under, phi_over, t, u) :=
    grid_cell theta phi in
  (175 <= th < 180 ->
   theta_under = 175%Z /\ theta_over = 0%Z /\ t = (th - 175) / 5) /\
  (th < 175 -> theta_over = (theta_under + 5)%Z) /\
  (th = 180 -> theta_under = 180%Z /\ theta_over = 5%Z /\ t = 0) /\
  (355 <= ph < 360 ->
   phi_under = 355%Z /\ phi_over = 0%Z /\ u = (ph - 355) / 5) /\
  (ph < 355 -> phi_over = (phi_under + 5)%Z) /\
  (ph = 360 -> phi_under = 360%Z /\ phi_over = 5%Z /\ u = 0) /\
  (-1e-14 <= np_degrees theta < 0 -> th = 180) /\
  (-2e-14 <= np_degrees phi < 0 -> ph = 360).
Proof.
  intros th ph.
  destruct (grid_cell_spec theta phi) as [Hspec [Hi [Hj [Hth [Hph _]]]]].
  cbv zeta in Hspec, Hi, Hj, Hth, Hph. fold th ph in Hspec, Hi, Hj, Hth, Hph.
  rewrite Hspec.
  set (i := py_int (th / 5)) in *. set (j := py_int (ph / 5)) in *.
  assert (Hi35 : 175 <= th < 180 -> i = 35%Z).
  { intro H. assert (IZR 34 < IZR i < IZR 36) by lra.
    destruct H0 as [H1 H2]. apply lt_IZR in H1, H2. lia. }
  assert (Hi34 : th < 175 -> (i <= 34)%Z).
  { intro H. assert (IZR i < IZR 35) by lra. apply lt_IZR in H0. lia. }
  assert (Hi36 : th = 180 -> i = 36%Z).
  { intro H. assert (IZR 35 < IZR i) by lra. apply lt_IZR in H0. lia. }
  assert (Hj71 : 355 <= ph < 360 -> j = 71%Z).
  { intro H. assert (IZR 70 < IZR j < IZR 72) by lra.
    destruct H0 as [H1 H2]. apply lt_IZR in H1, H2. lia. }
  assert (Hj70 : ph < 355 -> (j <= 70)%Z).
  { intro H. assert (IZR j < IZR 71) by lra. apply lt_IZR in H0. lia. }
  assert (Hj72 : ph = 360 -> j = 72%Z).
  { intro H. assert (IZR 71 < IZR j) by lra. apply lt_IZR in H0. lia. }
  split; [|split; [|split; [|split; [|split; [|split; [|split]]]]]].
  - intro H. rewrite (Hi35 H). repeat split. f_equal. lra.
  - intro H. specialize (Hi34 H). rewrite Z.mod_small by lia. lia.
  - intro H. rewrite (Hi36 H). repeat split. rewrite H. lra.
  - intro H. rewrite (Hj71 H). repeat split. f_equal. lra.
  - intro H. specialize (Hj70 H). rewrite Z.mod_small by lia. lia.
  - intro H. rewrite (Hj72 H). repeat split. rewrite H. lra.
  - apply py_fmod_180_below_zero.
  - apply py_fmod_360_below_zero.
Qed.

Lemma grid_cell_wraps_witness :
  (let '(theta_under, theta_over, phi_under, phi_over, t, u) :=
     grid_cell (177 * (PI / 180)) 0 in
   theta_under = 175%Z /\ theta_over = 0%Z /\ phi_over = (phi_under + 5)%Z) /\
  (let '(theta_under, theta_over, phi_under, phi_over, t, u) :=
     grid_cell (-1e-20) 0 in
   theta_under = 180%Z /\ theta_over = 5%Z /\ t = 0).
Proof.
  assert (H0 : np_degrees 0 = 0) by (unfold np_degrees; field; apply PI_neq0).
  split.
  - pose proof (grid_cell_wraps (177 * (PI / 180)) 0) as H. cbv zeta in H.
    assert (Hd : np_degrees (177 * (PI / 180)) = 177)
      by (unfold np_degrees; field; apply PI_neq0).
    rewrite Hd, H0, !py_fmod_small in H by lra.
    destruct (grid_cell (177 * (PI / 180)) 0) as [[[[[tu to] pu] po] t] u].
    destruct H as [Ha [_ [_ [_ [Hb _]]]]].
    destruct Ha as [H1 [H2 _]]; [lra|].
    split; [exact H1|]. split; [exact H2|]. apply Hb. lra.
  - pose proof (grid_cell_wraps (-1e-20) 0) as H. cbv zeta in H.
    pose proof np_degrees_below_zero as Hd.
    destruct (grid_cell (-1e-20) 0) as [[[[[tu to] pu] po] t] u].
    destruct H as [_ [_ [Hc [_ [_ [_ [He _]]]]]]].
    apply Hc. apply He. lra.
Defined.

(** ** [receive]: what is stored, and which error comes first *)

Section ReceiveContents.

Variable filter_frequencies : Signal -> (list R -> list R) -> Signal.
Variable np_interp : list R -> list R -> list R -> list R.
Variable normalize : vec -> vec.


(** X12.  The table is consulted before the value type is checked: with
    an origin given and a corner entry of the cell missing, [receive]
    raises [KeyError] and stores nothing, whatever the value type of the
    signal (an unsupported type included). *)
Theorem receive_key_error_first
    (self : ARAAntenna) (data : response_table) (freqs : list R)
    (signal : Signal) (o : vec) (polarization : option vec) :
  _response_data self = Some data -> _response_freqs self = Some freqs ->
  let '(r, theta, phi) := _convert_to_antenna_coordinates self o in
  let '(theta_under, theta_over, phi_under, phi_over, t, u) :=
    grid_cell theta phi in
  (exists f, In f freqs /\
     ~ corners_present data f theta_under theta_over phi_under phi_over) ->
  receive filter_frequencies np_interp normalize self signal (Some o) polarization
    = (self, Raise KeyError).
Proof.
  intros Hd Hf. unfold receive.
  destruct (_convert_to_antenna_coordinates self o) as [[r theta] phi].
  unfold generate_freq_gains. rewrite Hd, Hf.
  destruct (grid_cell theta phi) as [[[[[tu to] pu] po] t] u].
  intro Hmiss. rewrite fetch_corner_gains_missing by exact Hmiss. reflexivity.
Qed.



End ReceiveContents.

Lemma receive_key_error_first_witness :
  receive (fun s _ => s) (fun fs _ _ => fs) (fun p => p)
    gutted_antenna (mkSignal [0; 1] [2; 3] power) (Some (1, 0, 0)) None
    = (gutted_antenna, Raise KeyError).
Proof.
  pose proof (receive_key_error_first (fun s _ => s) (fun fs _ _ => fs)
                (fun p => p) gutted_antenna [] [3e8]
                (mkSignal [0; 1] [2; 3] power) (1, 0, 0) None
                eq_refl eq_refl) as H.
  cbn [_convert_to_antenna_coordinates gutted_antenna set_response_data
       ramp_antenna] in H.
  destruct (grid_cell (PI / 36) (PI / 18)) as [[[[[tu to] pu] po] t] u].
  apply H. exists 3e8. split; [now left|].
  intros [Hc _]. apply Hc. reflexivity.
Defined.



(** ** [ARAAntenna.__init__] *)

Lemma is_zero_vec_spec (v : vec) : is_zero_vec v = true <-> v = (0, 0, 0).
Proof.
  destruct v as [[x y] z]. unfold is_zero_vec.
  destruct (Req_dec_T x 0) as [->|Hx]; destruct (Req_dec_T y 0) as [->|Hy];
    destruct (Req_dec_T z 0) as [->|Hz]; simpl; split; intro H;
    try reflexivity; try discriminate; injection H; intros; contradiction.
Qed.

Lemma np_cross_orthogonal (a b : vec) : np_vdot a (np_cross a b) = 0.
Proof.
  destruct a as [[a1 a2] a3], b as [[b1 b2] b3]. unfold np_vdot, np_cross. ring.
Qed.

Lemma np_cross_zero_l (b : vec) : np_cross (0, 0, 0) b = (0, 0, 0).
Proof.
  destruct b as [[b1 b2] b3]. unfold np_cross. repeat f_equal; ring.
Qed.

Lemma np_cross_zero_r (a : vec) : np_cross a (0, 0, 0) = (0, 0, 0).
Proof.
  destruct a as [[a1 a2] a3]. unfold np_cross. repeat f_equal; ring.
Qed.

Lemma draw_tmp_vector_some (orientation : vec) (draws : list vec) (tmp v : vec) :
  draw_tmp_vector orientation draws tmp = Some v ->
  np_cross orientation v <> (0, 0, 0) /\ (v = tmp \/ In v draws).
Proof.
  revert tmp. induction draws as [|d draws IH]; intros tmp; cbn [draw_tmp_vector];
    destruct (is_zero_vec (np_cross orientation tmp)) eqn:E.
  - discriminate.
  - intros [= <-]. split; [|now left].
    intro H. apply is_zero_vec_spec in H. congruence.
  - intro H. destruct (IH d H) as [Hn [-> | Hin]]; split; auto;
      right; [now left | now right].
  - intros [= <-]. split; [|now left].
    intro H. apply is_zero_vec_spec in H. congruence.
Qed.

Lemma draw_tmp_vector_finds (orientation : vec) (draws : list vec) (tmp : vec) :
  (exists d, In d draws /\ np_cross orientation d <> (0, 0, 0)) ->
  exists v, draw_tmp_vector orientation draws tmp = Some v.
Proof.
  revert tmp. induction draws as [|d draws IH]; intros tmp [d' [Hin Hd']];
    [inversion Hin|].
  cbn [draw_tmp_vector].
  destruct (is_zero_vec (np_cross orientation tmp)); [|eauto].
  destruct Hin as [<- | Hin]; [|apply IH; eauto].
  destruct draws as [|e draws]; cbn [draw_tmp_vector];
    destruct (is_zero_vec (np_cross orientation d)) eqn:E; eauto;
    apply is_zero_vec_spec in E; contradiction.
Qed.

Lemma init_ortho_some (orientation : vec) (draws : list vec) (ortho : vec) :
  init_ortho orientation draws = Some ortho ->
  np_vdot orientation ortho = 0 /\ ortho <> (0, 0, 0) /\
  exists d, In d draws /\ ortho = np_cross orientation d.
Proof.
  unfold init_ortho. intro H.
  destruct (draw_tmp_vector orientation draws (0, 0, 0)) as [v|] eqn:E;
    [|discriminate].
  injection H as <-. destruct (draw_tmp_vector_some _ _ _ _ E) as [Hn Hv].
  split; [apply np_cross_orthogonal|]. split; [exact Hn|].
  destruct Hv as [-> | Hin]; [|eauto].
  exfalso. apply Hn. apply np_cross_zero_r.
Qed.

Lemma init_ortho_finds (orientation : vec) (draws : list vec) :
  (exists d, In d draws /\ np_cross orientation d <> (0, 0, 0)) ->
  exists ortho, init_ortho orientation draws = Some ortho.
Proof.
  intro H. unfold init_ortho.
  destruct (draw_tmp_vector_finds orientation draws (0, 0, 0) H) as [v ->].
  eauto.
Qed.

(** The search stops at the first draw that is not parallel to the
    orientation, whatever comes after it. *)
Lemma draw_tmp_vector_first (orientation : vec) (pre post : list vec)
    (d tmp : vec) :
  np_cross orientation tmp = (0, 0, 0) ->
  (forall v, In v pre -> np_cross orientation v = (0, 0, 0)) ->
  np_cross orientation d <> (0, 0, 0) ->
  draw_tmp_vector orientation (pre ++ d :: post) tmp = Some d.
Proof.
  revert tmp. induction pre as [|p pre IH]; intros tmp Htmp Hpre Hd.
  - cbn [app draw_tmp_vector].
    apply is_zero_vec_spec in Htmp. rewrite Htmp.
    destruct post as [|e post]; cbn [draw_tmp_vector];
      destruct (is_zero_vec (np_cross orientation d)) eqn:E; try reflexivity;
      apply is_zero_vec_spec in E; contradiction.
  - cbn [app draw_tmp_vector].
    apply is_zero_vec_spec in Htmp. rewrite Htmp.
    apply IH; [apply Hpre; now left | | exact Hd].
    intros v Hv. apply Hpre. now right.
Qed.

(** A draw the search ends on is the first one not parallel to the
    orientation. *)
Lemma draw_tmp_vector_split (orientation : vec) (draws : list vec) (tmp v : vec) :
  np_cross orientation tmp = (0, 0, 0) ->
  draw_tmp_vector orientation draws tmp = Some v ->
  exists pre post,
    draws = pre ++ v :: post /\
    (forall w, In w pre -> np_cross orientation w = (0, 0, 0)) /\
    np_cross orientation v <> (0, 0, 0).
Proof.
  revert tmp. induction draws as [|d draws IH]; intros tmp Htmp H;
    cbn [draw_tmp_vector] in H;
    pose proof Htmp as Hz; apply is_zero_vec_spec in Hz; rewrite Hz in H;
    [discriminate|].
  destruct (is_zero_vec (np_cross orientation d)) eqn:E.
  - apply is_zero_vec_spec in E.
    destruct (IH d E H) as [pre [post [-> [Hpre Hv]]]].
    exists (d :: pre), post. split; [reflexivity|]. split; [|exact Hv].
    intros w [<- | Hw]; [exact E | now apply Hpre].
  - assert (Hd : np_cross orientation d <> (0, 0, 0)).
    { intro Hc. apply is_zero_vec_spec in Hc. congruence. }
    assert (v = d).
    { destruct draws as [|e draws]; cbn [draw_tmp_vector] in H;
        rewrite E in H; congruence. }
    subst v. exists [], draws. split; [reflexivity|]. split; [|exact Hd].
    intros w [].
Qed.

(** With parallel draws only, the search goes on. *)
Lemma draw_tmp_vector_none (orientation : vec) (draws : list vec) (tmp : vec) :
  np_cross orientation tmp = (0, 0, 0) ->
  (forall v, In v draws -> np_cross orientation v = (0, 0, 0)) ->
  draw_tmp_vector orientation draws tmp = None.
Proof.
  revert tmp. induction draws as [|d draws IH]; intros tmp Htmp Hall;
    cbn [draw_tmp_vector]; apply is_zero_vec_spec in Htmp; rewrite Htmp;
    [reflexivity|].
  apply IH; [apply Hall; now left|]. intros v Hv. apply Hall. now right.
Qed.

(** X15.  The x-axis the constructor derives is the cross product of the
    orientation with the first random draw that is not parallel to it:
    every draw before that one is parallel to the orientation, the draws
    after it play no part, and the result is orthogonal to the
    orientation and not zero.  While all draws are parallel the search
    goes on; for a zero orientation it never ends. *)
Theorem init_ortho_is_orthogonal (orientation : vec) (draws : list vec) :
  (forall ortho, init_ortho orientation draws = Some ortho ->
     np_vdot orientation ortho = 0 /\ ortho <> (0, 0, 0) /\
     exists pre d post,
       draws = pre ++ d :: post /\
       (forall v, In v pre -> np_cross orientation v = (0, 0, 0)) /\
       np_cross orientation d <> (0, 0, 0) /\
       ortho = np_cross orientation d) /\
  (forall pre d post,
     draws = pre ++ d :: post ->
     (forall v, In v pre -> np_cross orientation v = (0, 0, 0)) ->
     np_cross orientation d <> (0, 0, 0) ->
     init_ortho orientation draws = Some (np_cross orientation d) /\
     forall post',
       init_ortho orientation (pre ++ d :: post') = Some (np_cross orientation d)) /\
  ((forall v, In v draws -> np_cross orientation v = (0, 0, 0)) ->
   init_ortho orientation draws = None) /\
  (orientation = (0, 0, 0) -> init_ortho orientation draws = None).
Proof.
  split; [|split; [|split]].
  - intros ortho H. unfold init_ortho in H.
    destruct (draw_tmp_vector orientation draws (0, 0, 0)) as [v|] eqn:E;
      [|discriminate].
    injection H as <-.
    destruct (draw_tmp_vector_split _ _ _ _ (np_cross_zero_r orientation) E)
      as [pre [post [Hd [Hpre Hv]]]].
    split; [apply np_cross_orthogonal|]. split; [exact Hv|].
    exists pre, v, post. repeat split; assumption.
  - intros pre d post -> Hpre Hd.
    assert (H : forall post',
      init_ortho orientation (pre ++ d :: post') = Some (np_cross orientation d)).
    { intro post'. unfold init_ortho.
      now rewrite (draw_tmp_vector_first orientation pre post' d (0, 0, 0)
                     (np_cross_zero_r orientation) Hpre Hd). }
    split; [apply H | exact H].
  - intro Hall. unfold init_ortho.
    now rewrite (draw_tmp_vector_none orientation draws (0, 0, 0)
                   (np_cross_zero_r orientation) Hall).
  - intros ->. unfold init_ortho.
    rewrite (draw_tmp_vector_none (0, 0, 0) draws (0, 0, 0)); [reflexivity| |].
    + apply np_cross_zero_l.
    + intros v _. apply np_cross_zero_l.
Qed.

Lemma init_ortho_is_orthogonal_witness :
  init_ortho (0, 0, 1) [(0, 0, 0.5); (0.25, 0.5, 0.75); (1, 0, 0)]
    = Some (np_cross (0, 0, 1) (0.25, 0.5, 0.75)) /\
  init_ortho (0, 0, 1) [(0, 0, 0.5); (0, 0, 0.25)] = None /\
  init_ortho (0, 0, 0) [(0.25, 0.5, 0.75)] = None.
Proof.
  split; [|split].
  - apply (proj1 (proj2 (init_ortho_is_orthogonal (0, 0, 1)
                           [(0, 0, 0.5); (0.25, 0.5, 0.75); (1, 0, 0)]))
             [(0, 0, 0.5)] (0.25, 0.5, 0.75) [(1, 0, 0)] eq_refl).
    + intros v [<- | []]. unfold np_cross. repeat f_equal; ring.
    + unfold np_cross. intro H. injection H as H1 H2 H3. lra.
  - apply (proj1 (proj2 (proj2 (init_ortho_is_orthogonal (0, 0, 1)
                                  [(0, 0, 0.5); (0, 0, 0.25)])))).
    intros v [<- | [<- | []]]; unfold np_cross; repeat f_equal; ring.
  - apply (proj2 (proj2 (proj2 (init_ortho_is_orthogonal (0, 0, 0)
                                  [(0.25, 0.5, 0.75)])))).
    reflexivity.
Defined.

Lemma set_add_In (x y : R) (s : list R) : In y (set_add x s) <-> y = x \/ In y s.
Proof.
  unfold set_add. destruct (in_dec Req_dec_T x s) as [Hin | Hnin].
  - split; [now right | intros [-> | H]; assumption].
  - rewrite in_app_iff. simpl. split.
    + intros [H | [<- | []]]; [now right | now left].
    + intros [-> | H]; [right; now left | now left].
Qed.

Lemma set_add_NoDup (x : R) (s : list R) : NoDup s -> NoDup (set_add x s).
Proof.
  intro H. unfold set_add. destruct (in_dec Req_dec_T x s) as [Hin | Hnin];
    [exact H|].
  apply NoDup_app; [exact H | repeat constructor; intros [] |].
  intros y Hy [<- | []]. contradiction.
Qed.

Lemma key_freqs_spec (data : response_table) (s : list R) :
  NoDup s ->
  let fs := fold_left (fun s entry => set_add (fst (fst (fst entry))) s) data s in
  NoDup fs /\
  forall f, In f fs <->
    In f s \/ exists theta phi e, In ((f, theta, phi), e) data.
Proof.
  revert s. induction data as [|[[[f0 th0] ph0] e0] data IH]; intros s Hs; cbn.
  - split; [exact Hs|]. intro f. split; [now left|].
    intros [H | [th [ph [e []]]]]. exact H.
  - destruct (IH (set_add f0 s) (set_add_NoDup f0 s Hs)) as [Hnd Hin].
    cbv zeta in Hnd, Hin. split; [exact Hnd|].
    intro f. rewrite Hin, set_add_In. split.
    + intros [[-> | H] | [th [ph [e H]]]].
      * right. exists th0, ph0, e0. now left.
      * now left.
      * right. exists th, ph, e. now right.
    + intros [H | [th [ph [e [H | H]]]]].
      * left. now right.
      * injection H as -> _ _ _. left. now left.
      * right. eauto.
Qed.

(** X16.  When frequencies are passed to the constructor they are kept
    as they are.  When only a table is passed, the frequencies are
    exactly the first components of the table's keys, each once.  With
    neither, there are none. *)
Theorem init_response_freqs_from_keys :
  (forall data fs, init_response_freqs data (Some fs) = Some fs) /\
  init_response_freqs None None = None /\
  (forall data, exists fs,
     init_response_freqs (Some data) None = Some fs /\ NoDup fs /\
     forall f, In f fs <-> exists theta phi e, In ((f, theta, phi), e) data).
Proof.
  split; [|split].
  - intros [d|] fs; reflexivity.
  - reflexivity.
  - intro data. eexists. split; [reflexivity|].
    destruct (key_freqs_spec data [] (NoDup_nil R)) as [Hnd Hin].
    cbv zeta in Hnd, Hin. split; [exact Hnd|].
    intro f. rewrite Hin. split; [intros [[] | H]; exact H | now right].
Qed.

(** X17.  The constructor fails with [ZeroDivisionError] when no
    effective height is given and the centre frequency is 0, and never
    succeeds with an effective height of 0.  When it succeeds, the
    antenna factor it passes on is the inverse of the effective height,
    the x-axis is orthogonal to the z-axis (the orientation) and not
    zero, the pass band is [bandwidth] wide around the centre frequency,
    and a defaulted effective height is half the wavelength
    [3e8 / center_frequency]. *)
Theorem ARAAntenna_init_result
    (IceModel_temperature : R -> R) (position : vec)
    (center_frequency bandwidth resistance0 : R) (orientation : vec)
    (effective_height0 : option R) (response_data : option response_table)
    (response_freqs : option (list R)) (noisy : bool) (draws : list vec) :
  let outcome :=
    ARAAntenna_init IceModel_temperature position center_frequency bandwidth
      resistance0 orientation effective_height0 response_data response_freqs
      noisy draws in
  (effective_height0 = None -> center_frequency = 0 ->
   outcome = ZeroDivisionError) /\
  (effective_height0 = Some 0 -> forall args, outcome <> Constructed args) /\
  (forall args, outcome = Constructed args ->
     own_effective_height args <> 0 /\
     arg_antenna_factor args * own_effective_height args = 1 /\
     arg_z_axis args = orientation /\
     np_vdot (arg_z_axis args) (arg_x_axis args) = 0 /\
     arg_x_axis args <> (0, 0, 0) /\
     snd (arg_freq_range args) - fst (arg_freq_range args) = bandwidth /\
     (fst (arg_freq_range args) + snd (arg_freq_range args)) / 2 = center_frequency /\
     arg_resistance args = resistance0 /\
     (effective_height0 = None ->
      own_effective_height args * center_frequency * 2 = 3e8)).
Proof.
  intro outcome. unfold outcome, ARAAntenna_init. split; [|split].
  - intros -> ->. destruct (Req_dec_T 0 0); [reflexivity | congruence].
  - intros -> args.
    destruct (init_ortho orientation draws); [|discriminate].
    destruct (Req_dec_T 0 0); [discriminate | congruence].
  - intros args H.
    destruct (match effective_height0 with
              | Some h => Some h
              | None => if Req_dec_T center_frequency 0 then None
                        else Some (3e8 / center_frequency / 2)
              end) as [height|] eqn:Eh; [|discriminate].
    destruct (init_ortho orientation draws) as [ortho|] eqn:Eo; [|discriminate].
    destruct (Req_dec_T height 0) as [|Hh]; [discriminate|].
    injection H as <-. cbn.
    destruct (init_ortho_some orientation draws ortho Eo) as [Hdot [Hnz _]].
    repeat split; try assumption; try (field; assumption); try lra.
    intros ->. destruct (Req_dec_T center_frequency 0) as [|Hc]; [discriminate|].
    injection Eh as <-. field. exact Hc.
Qed.

Lemma ARAAntenna_init_result_witness :
  exists args,
    ARAAntenna_init (fun depth => depth) (0, 0, -100) 500e6 700e6 100 (0, 0, 1)
      None None None true [(0.25, 0.5, 0.75)] = Constructed args /\
    arg_antenna_factor args * own_effective_height args = 1 /\
    own_effective_height args * 500e6 * 2 = 3e8.
Proof.
  assert (Hc : exists args,
    ARAAntenna_init (fun depth => depth) (0, 0, -100) 500e6 700e6 100 (0, 0, 1)
      None None None true [(0.25, 0.5, 0.75)] = Constructed args).
  { unfold ARAAntenna_init.
    destruct (Req_dec_T 500e6 0) as [E|_]; [lra|].
    destruct (init_ortho_finds (0, 0, 1) [(0.25, 0.5, 0.75)]) as [ortho ->].
    - exists (0.25, 0.5, 0.75). split; [now left|].
      unfold np_cross. intro H. injection H as H1 H2 H3. lra.
    - destruct (Req_dec_T (3e8 / 500e6 / 2) 0) as [E|_]; [lra|]. eauto. }
  destruct Hc as [args Hargs]. exists args. split; [exact Hargs|].
  destruct (ARAAntenna_init_result (fun depth => depth) (0, 0, -100) 500e6 700e6
              100 (0, 0, 1) None None None true [(0.25, 0.5, 0.75)])
    as [_ [_ H]].
  destruct (H args Hargs) as [_ [Haf [_ [_ [_ [_ [_ [_ Hh]]]]]]]].
  split; [exact Haf | now apply Hh].
Defined.

(** ** [read_response_data] *)

Lemma prefix_freq_line (line : string) :
  String.prefix "freq" line = true ->
  exists rest, line = ("freq" ++ rest)%string /\
    Reader.split line = Reader.split_from "freq" rest.
Proof.
  intro H.
  destruct line as [|a [|b [|c [|d rest]]]]; cbn in H;
    repeat match type of H with
           | (if ?X then _ else _) = true => destruct X; [subst|discriminate]
           end; try discriminate.
  exists rest. split; reflexivity.
Qed.

Lemma prefix_SWR_line (line : string) :
  String.prefix "SWR" line = true ->
  exists rest, Reader.split line = Reader.split_from "SWR" rest.
Proof.
  intro H.
  destruct line as [|a [|b [|c rest]]]; cbn in H;
    repeat match type of H with
           | (if ?X then _ else _) = true => destruct X; [subst|discriminate]
           end; try discriminate.
  exists rest. reflexivity.
Qed.

Lemma prefix_app_l (a b w : string) :
  String.prefix (a ++ b) w = true -> String.prefix a w = true.
Proof.
  revert w. induction a as [|c a IH]; intros w H; [destruct w; reflexivity|].
  destruct w as [|d w]; cbn in *; [discriminate|].
  destruct (Ascii.ascii_dec c d); [now apply IH | discriminate].
Qed.

Lemma prefix_refl (w : string) : String.prefix w w = true.
Proof.
  induction w as [|c w IH]; [reflexivity|]. cbn.
  destruct (Ascii.ascii_dec c c); [exact IH | congruence].
Qed.

Lemma app_nonempty (w : string) (c : Ascii.ascii) :
  (w ++ String c "")%string <> ""%string.
Proof. destruct w; discriminate. Qed.

(** The word being read when the text starts is the start of the first
    word returned. *)
Lemma split_from_first (word s : string) :
  word <> ""%string ->
  exists w ws, Reader.split_from word s = w :: ws /\ String.prefix word w = true.
Proof.
  revert word. induction s as [|c s IH]; intros word Hne; cbn [Reader.split_from].
  - apply String.eqb_neq in Hne. rewrite Hne.
    exists word, []. split; [reflexivity | apply prefix_refl].
  - destruct (Reader.is_space c).
    + apply String.eqb_neq in Hne. rewrite Hne.
      exists word, (Reader.split_from "" s). split; [reflexivity | apply prefix_refl].
    + destruct (IH _ (app_nonempty word c)) as [w [ws [Hs Hp]]].
      exists w, ws. split; [exact Hs|]. eapply prefix_app_l; eassumption.
Qed.

Lemma from_end_one (w : string) (ws : list string) :
  exists u, Reader.from_end (w :: ws) 1 = Reader.Return u /\
    (ws = [] -> u = w).
Proof.
  unfold Reader.from_end. cbn [length Nat.leb].
  eexists. split; [reflexivity|]. intros ->. reflexivity.
Qed.

Lemma from_end_two (w : string) (ws : list string) :
  ws <> [] -> exists v, Reader.from_end (w :: ws) 2 = Reader.Return v.
Proof.
  intro H. unfold Reader.from_end. destruct ws as [|x ws]; [congruence|].
  cbn [length Nat.leb]. eauto.
Qed.

Section ReaderProperties.

Variable py_float : string -> option R.
Variable py_int : string -> option Z.

Lemma float_raises (s : string) (e : Reader.exn) :
  Reader.float py_float s = Reader.Raised e -> e = Reader.ValueError.
Proof. unfold Reader.float. destruct (py_float s); congruence. Qed.

Lemma int_raises (s : string) (e : Reader.exn) :
  Reader.int py_int s = Reader.Raised e -> e = Reader.ValueError.
Proof. unfold Reader.int. destruct (py_int s); congruence. Qed.

Lemma unit_scale_cases (u : string) :
  (exists k, Reader.unit_scale u = Reader.Return k /\
     String.prefix "freq" u = false) \/
  Reader.unit_scale u = Reader.Raised Reader.ValueError.
Proof.
  unfold Reader.unit_scale.
  destruct (String.eqb u "Hz") eqn:E1;
    [apply String.eqb_eq in E1; subst; left; eauto|].
  destruct (String.eqb u "kHz") eqn:E2;
    [apply String.eqb_eq in E2; subst; left; eauto|].
  destruct (String.eqb u "MHz") eqn:E3;
    [apply String.eqb_eq in E3; subst; left; eauto|].
  destruct (String.eqb u "GHz") eqn:E4;
    [apply String.eqb_eq in E4; subst; left; eauto|].
  now right.
Qed.

Lemma read_line_no_index_error (st : Reader.state) (line : string) :
  Reader.read_line py_float py_int st line <> Reader.Raised Reader.IndexError.
Proof.
  assert (Hfl : forall (s : string) (k : R -> Reader.outcome Reader.state),
            (forall x, k x <> Reader.Raised Reader.IndexError) ->
            Reader.bind (Reader.float py_float s) k
              <> Reader.Raised Reader.IndexError).
  { intros s k Hk. destruct (Reader.float py_float s) eqn:E; cbn [Reader.bind];
      [apply Hk|]. apply float_raises in E. subst. discriminate. }
  assert (Hin : forall (s : string) (k : Z -> Reader.outcome Reader.state),
            (forall x, k x <> Reader.Raised Reader.IndexError) ->
            Reader.bind (Reader.int py_int s) k
              <> Reader.Raised Reader.IndexError).
  { intros s k Hk. destruct (Reader.int py_int s) eqn:E; cbn [Reader.bind];
      [apply Hk|]. apply int_raises in E. subst. discriminate. }
  unfold Reader.read_line.
  destruct (String.prefix "freq" line) eqn:Ef.
  - destruct (prefix_freq_line line Ef) as [rest [_ ->]].
    destruct (split_from_first "freq" rest ltac:(discriminate))
      as [w [ws [-> Hp]]].
    destruct (from_end_one w ws) as [u [-> Hu]]. cbn [Reader.bind].
    destruct (unit_scale_cases u) as [[k [-> Hnp]] | ->]; [|discriminate].
    cbn [Reader.bind].
    destruct ws as [|x ws].
    + rewrite (Hu eq_refl) in Hnp. congruence.
    + destruct (from_end_two w (x :: ws) ltac:(discriminate)) as [v ->].
      cbn [Reader.bind]. apply Hfl. discriminate.
  - destruct (String.prefix "SWR" line) eqn:Es.
    + destruct (prefix_SWR_line line Es) as [rest ->].
      destruct (split_from_first "SWR" rest ltac:(discriminate))
        as [w [ws [-> _]]].
      destruct (from_end_one w ws) as [u [-> _]]. cbn [Reader.bind].
      apply Hfl. discriminate.
    + destruct ((length (Reader.split line) =? 5)%nat &&
                negb (String.eqb (nth 0 (Reader.split line) ""%string) "Theta"));
        [|discriminate].
      apply Hin; intro. apply Hin; intro. apply Hfl; intro. apply Hfl; intro.
      apply Hfl; intro. discriminate.
Qed.

Lemma read_lines_no_index_error (st : Reader.state) (lines : list string) :
  Reader.read_lines py_float py_int st lines <> Reader.Raised Reader.IndexError.
Proof.
  revert st. induction lines as [|line lines IH]; intro st; [discriminate|].
  cbn [Reader.read_lines].
  pose proof (read_line_no_index_error st line) as H.
  destruct (Reader.read_line py_float py_int st line); cbn [Reader.bind];
    [apply IH | exact H].
Qed.

(** X18.  Although the reader indexes the words of a line from the end
    ([words[-1]], [words[-2]]), it never raises [IndexError]: whatever
    the file contains and whatever [float] and [int] accept, it returns a
    table or raises [ValueError]. *)
Theorem read_response_data_never_index_error (lines : list string) :
  (exists data freqs,
     Reader.read_response_data py_float py_int lines =
       Reader.Return (data, freqs)) \/
  Reader.read_response_data py_float py_int lines =
    Reader.Raised Reader.ValueError.
Proof.
  unfold Reader.read_response_data.
  pose proof (read_lines_no_index_error (Reader.mkState [] [] 0) lines) as H.
  destruct (Reader.read_lines py_float py_int (Reader.mkState [] [] 0) lines)
    as [st|[|]]; cbn [Reader.bind]; [left; eauto | now right | congruence].
Qed.

End ReaderProperties.



Lemma response_key_eqb_spec (k k' : response_key) :
  response_key_eqb k k' = true <-> k = k'.
Proof.
  split; [|intros ->; apply response_key_eqb_refl].
  destruct k as [[f th] ph], k' as [[f' th'] ph']. unfold response_key_eqb.
  destruct (Req_dec_T f f') as [->|]; [|discriminate].
  intro H. apply andb_prop in H. destruct H as [H1 H2].
  apply Z.eqb_eq in H1, H2. now subst.
Qed.

Lemma dict_get_set_same (k : response_key) (v : R * R) (d : response_table) :
  dict_get response_key_eqb k (dict_set response_key_eqb k v d) = Some v.
Proof.
  induction d as [|[k0 v0] d IH]; cbn [dict_set dict_get].
  - now rewrite response_key_eqb_refl.
  - destruct (response_key_eqb k k0) eqn:E; cbn [dict_get].
    + now rewrite response_key_eqb_refl.
    + rewrite E. exact IH.
Qed.

Lemma dict_get_set_other (k k' : response_key) (v : R * R) (d : response_table) :
  k' <> k ->
  dict_get response_key_eqb k' (dict_set response_key_eqb k v d) =
    dict_get response_key_eqb k' d.
Proof.
  intro Hne.
  assert (Hkk : response_key_eqb k' k = false).
  { destruct (response_key_eqb k' k) eqn:E; [|reflexivity].
    apply response_key_eqb_spec in E. contradiction. }
  induction d as [|[k0 v0] d IH]; cbn [dict_set dict_get].
  - now rewrite Hkk.
  - destruct (response_key_eqb k k0) eqn:E; cbn [dict_get].
    + apply response_key_eqb_spec in E. subst k0. now rewrite Hkk.
    + destruct (response_key_eqb k' k0); [reflexivity | exact IH].
Qed.

Lemma dict_set_In (k : response_key) (v : R * R) (d : response_table)
    (entry : response_key * (R * R)) :
  In entry (dict_set response_key_eqb k v d) -> entry = (k, v) \/ In entry d.
Proof.
  induction d as [|[k0 v0] d IH]; cbn [dict_set].
  - intros [<- | []]. now left.
  - destruct (response_key_eqb k k0).
    + intros [<- | H]; [now left | right; now right].
    + intros [<- | H]; [right; now left|].
      destruct (IH H) as [-> | Hin]; [now left | right; now right].
Qed.

Lemma dict_get_In (k : response_key) (e : R * R) (d : response_table) :
  dict_get response_key_eqb k d = Some e -> In (k, e) d.
Proof.
  induction d as [|[k0 v0] d IH]; cbn [dict_get]; [discriminate|].
  destruct (response_key_eqb k k0) eqn:E.
  - apply response_key_eqb_spec in E. subst k0. intros [= <-]. now left.
  - intro H. right. now apply IH.
Qed.

Section ReaderLines.

Variable py_float : string -> option R.
Variable py_int : string -> option Z.


(** X20.  A five-word line (not a [freq] or [SWR] line) whose first word
    is not [Theta] stores its gain and phase under the current frequency
    and its two angles: afterwards that key is found with exactly this
    entry, replacing any earlier one, every other key is found as before,
    and the frequencies are untouched; the third word (the gain in dB) is
    read and dropped.  The header line, whose first word is [Theta],
    changes nothing. *)
Theorem data_row_is_stored (st : Reader.state) (line : string)
    (w0 w1 w2 w3 w4 : string) :
  String.prefix "freq" line = false -> String.prefix "SWR" line = false ->
  Reader.split line = [w0; w1; w2; w3; w4] ->
  (w0 = "Theta"%string ->
   Reader.read_line py_float py_int st line = Reader.Return st) /\
  (forall theta phi db_gain gain phase,
     w0 <> "Theta"%string ->
     py_int w0 = Some theta -> py_int w1 = Some phi ->
     py_float w2 = Some db_gain -> py_float w3 = Some gain ->
     py_float w4 = Some phase ->
     exists st',
       Reader.read_line py_float py_int st line = Reader.Return st' /\
       dict_get response_key_eqb (Reader.freq st, theta, phi) (Reader.data st')
         = Some (gain, phase) /\
       (forall k, k <> (Reader.freq st, theta, phi) ->
          dict_get response_key_eqb k (Reader.data st') =
          dict_get response_key_eqb k (Reader.data st)) /\
       Reader.freqs st' = Reader.freqs st /\ Reader.freq st' = Reader.freq st).
Proof.
  intros Hf Hs Hw. unfold Reader.read_line. rewrite Hf, Hs, Hw.
  cbn [length Nat.eqb nth andb]. split.
  - intros ->. reflexivity.
  - intros theta phi db_gain gain phase Hne H0 H1 H2 H3 H4.
    apply String.eqb_neq in Hne. rewrite Hne. cbn [negb].
    unfold Reader.int, Reader.float. rewrite H0, H1, H2, H3, H4.
    cbn [Reader.bind]. eexists. split; [reflexivity|].
    cbn [Reader.data Reader.freqs Reader.freq].
    split; [apply dict_get_set_same|].
    split; [intros k Hk; now apply dict_get_set_other|].
    split; reflexivity.
Qed.

End ReaderLines.


Lemma data_row_is_stored_witness :
  exists st',
    Reader.read_line sample_float sample_int
      (Reader.mkState [] [1e6 * 500] (1e6 * 500)) sample_row_line
      = Reader.Return st' /\
    dict_get response_key_eqb (1e6 * 500, 0%Z, 0%Z) (Reader.data st')
      = Some (0.5, 10).
Proof.
  destruct (proj2 (data_row_is_stored sample_float sample_int
                     (Reader.mkState [] [1e6 * 500] (1e6 * 500)) sample_row_line
                     "0" "0" "-3.0" "0.5" "10.0" eq_refl eq_refl eq_refl)
              0%Z 0%Z (-3) 0.5 10)
    as [st' [Hst [Hget _]]]; try reflexivity; [discriminate|].
  exists st'. split; [exact Hst | exact Hget].
Defined.

Section ReaderInvariant.

Variable py_float : string -> option R.
Variable py_int : string -> option Z.

Lemma read_line_filed (st st' : Reader.state) (line : string) :
  filed st ->
  Reader.read_line py_float py_int st line = Reader.Return st' ->
  filed st'.
Proof.
  intros [Hnd [Hcur Hkeys]]. unfold Reader.read_line.
  destruct (String.prefix "freq" line).
  - repeat match goal with
           | |- context [Reader.bind ?m _] =>
               destruct m; cbn [Reader.bind]; try discriminate
           end.
    intros [= <-]. unfold filed. cbn [Reader.data Reader.freqs Reader.freq].
    split; [now apply set_add_NoDup|]. split.
    + right. apply set_add_In. now left.
    + intros f theta phi e Hin.
      destruct (Hkeys f theta phi e Hin) as [H | H]; [now left|].
      right. apply set_add_In. now right.
  - destruct (String.prefix "SWR" line).
    + repeat match goal with
             | |- context [Reader.bind ?m _] =>
                 destruct m; cbn [Reader.bind]; try discriminate
             end.
      intros [= <-]. repeat split; assumption.
    + destruct ((length (Reader.split line) =? 5)%nat &&
                negb (String.eqb (nth 0 (Reader.split line) ""%string) "Theta")).
      * repeat match goal with
               | |- context [Reader.bind ?m _] =>
                   destruct m; cbn [Reader.bind]; try discriminate
               end.
        intros [= <-]. unfold filed. cbn [Reader.data Reader.freqs Reader.freq].
        split; [exact Hnd|]. split; [exact Hcur|].
        intros f theta phi e Hin. apply dict_set_In in Hin.
        destruct Hin as [Heq | Hin]; [|eauto].
        injection Heq as -> _ _ _. exact Hcur.
      * intros [= <-]. repeat split; assumption.
Qed.

Lemma read_lines_filed (st st' : Reader.state) (lines : list string) :
  filed st ->
  Reader.read_lines py_float py_int st lines = Reader.Return st' ->
  filed st'.
Proof.
  revert st. induction lines as [|line lines IH]; intros st Hst;
    cbn [Reader.read_lines].
  - intros [= <-]. exact Hst.
  - destruct (Reader.read_line py_float py_int st line) as [st1|e] eqn:E;
      cbn [Reader.bind]; [|discriminate].
    apply IH. eapply read_line_filed; eassumption.
Qed.

(** X21.  In what the reader returns, the frequencies hold no value
    twice, and every key found in the table is filed either under one of
    those frequencies or under frequency 0, the value the current
    frequency has until the first [freq] line (0 itself is not among the
    frequencies unless a [freq] line announced it). *)
Theorem read_response_data_keys_are_filed
    (lines : list string) (table : response_table) (fs : list R) :
  Reader.read_response_data py_float py_int lines = Reader.Return (table, fs) ->
  NoDup fs /\
  forall f theta phi e,
    dict_get response_key_eqb (f, theta, phi) table = Some e ->
    f = 0 \/ In f fs.
Proof.
  unfold Reader.read_response_data.
  destruct (Reader.read_lines py_float py_int (Reader.mkState [] [] 0) lines)
    as [st|e] eqn:E; cbn [Reader.bind]; [|discriminate].
  intros [= <- <-].
  assert (H0 : filed (Reader.mkState [] [] 0)).
  { unfold filed. cbn. split; [constructor|]. split; [now left|].
    intros f theta phi e [] . }
  destruct (read_lines_filed _ _ _ H0 E) as [Hnd [_ Hkeys]].
  split; [exact Hnd|].
  intros f theta phi e Hget. apply dict_get_In in Hget. eauto.
Qed.

End ReaderInvariant.

Lemma read_response_data_keys_are_filed_witness :
  exists table fs,
    Reader.read_response_data sample_float sample_int
      [sample_row_line; sample_freq_line] = Reader.Return (table, fs) /\
    NoDup fs /\
    dict_get response_key_eqb (0, 0%Z, 0%Z) table = Some (0.5, 10) /\
    ~ In 0 fs.
Proof.
  assert (Hrun :
    Reader.read_response_data sample_float sample_int
      [sample_row_line; sample_freq_line]
    = Reader.Return ([((0, 0%Z, 0%Z), (0.5, 10))], [1 * 1e6 * 500]))
    by reflexivity.
  exists [((0, 0%Z, 0%Z), (0.5, 10))], [1 * 1e6 * 500].
  split; [exact Hrun|].
  split; [exact (proj1 (read_response_data_keys_are_filed
                          sample_float sample_int _ _ _ Hrun))|].
  split.
  - cbn [dict_get]. now rewrite response_key_eqb_refl.
  - intros [H | []]. lra.
Defined.

(** ** [polarization_gain] *)

Lemma np_vdot_cauchy (a b : vec) :
  np_vdot a b ^ 2 <= np_vdot a a * np_vdot b b.
Proof.
  destruct a as [[a1 a2] a3], b as [[b1 b2] b3]. unfold np_vdot.
  pose proof (pow2_ge_0 (a2 * b3 - a3 * b2)).
  pose proof (pow2_ge_0 (a3 * b1 - a1 * b3)).
  pose proof (pow2_ge_0 (a1 * b2 - a2 * b1)).
  nra.
Qed.

(** X22.  The polarization gain is the projection on the antenna's
    z-axis: it is linear in the polarization and on the three unit
    vectors it returns the three components of the z-axis, which makes
    it the dot product with the z-axis and nothing else.  Its square is
    at most [|z|^2 |p|^2]; for a z-axis and a polarization that are both
    unit vectors it lies between -1 and 1, so it never amplifies, and it
    is 1 exactly when the polarization is the z-axis. *)
Theorem polarization_gain_is_projection
    (self : ARAAntenna) (p q : vec) (a b : R) :
  (let '(z1, z2, z3) := z_axis self in
   polarization_gain self (1, 0, 0) = z1 /\
   polarization_gain self (0, 1, 0) = z2 /\
   polarization_gain self (0, 0, 1) = z3) /\
  (let '(p1, p2, p3) := p in
   let '(q1, q2, q3) := q in
   polarization_gain self (a * p1 + b * q1, a * p2 + b * q2, a * p3 + b * q3) =
     a * polarization_gain self (p1, p2, p3) +
     b * polarization_gain self (q1, q2, q3)) /\
  polarization_gain self p ^ 2 <=
    np_vdot (z_axis self) (z_axis self) * np_vdot p p /\
  (np_vdot (z_axis self) (z_axis self) = 1 -> np_vdot p p = 1 ->
   -1 <= polarization_gain self p <= 1 /\
   (polarization_gain self p = 1 <-> p = z_axis self)).
Proof.
  unfold polarization_gain. split; [|split; [|split]].
  - destruct (z_axis self) as [[z1 z2] z3]. unfold np_vdot. repeat split; ring.
  - destruct p as [[p1 p2] p3], q as [[q1 q2] q3].
    destruct (z_axis self) as [[z1 z2] z3]. unfold np_vdot. ring.
  - apply np_vdot_cauchy.
  - intros Hz Hp. split.
    + pose proof (np_vdot_cauchy (z_axis self) p) as H.
      rewrite Hz, Hp in H. nra.
    + destruct p as [[p1 p2] p3]. destruct (z_axis self) as [[z1 z2] z3].
      unfold np_vdot in *. split.
      * intro H1.
        assert (Hd : (p1 - z1) ^ 2 + (p2 - z2) ^ 2 + (p3 - z3) ^ 2 = 0) by nra.
        pose proof (pow2_ge_0 (p1 - z1)). pose proof (pow2_ge_0 (p2 - z2)).
        pose proof (pow2_ge_0 (p3 - z3)).
        assert (E1 : (p1 - z1) ^ 2 = 0) by lra.
        assert (E2 : (p2 - z2) ^ 2 = 0) by lra.
        assert (E3 : (p3 - z3) ^ 2 = 0) by lra.
        rewrite <- Rsqr_pow2 in E1, E2, E3.
        apply Rsqr_eq_0 in E1, E2, E3.
        repeat f_equal; lra.
      * intros [= -> -> ->]. lra.
Qed.

Lemma polarization_gain_is_projection_witness :
  -1 <= polarization_gain bare_antenna (0.6, 0, 0.8) <= 1 /\
  polarization_gain bare_antenna (0, 0, 1) = 1.
Proof.
  destruct (polarization_gain_is_projection bare_antenna (0.6, 0, 0.8)
              (0, 0, 0) 1 0) as [_ [_ [_ H]]].
  destruct (polarization_gain_is_projection bare_antenna (0, 0, 1)
              (0, 0, 0) 1 0) as [_ [_ [_ H']]].
  split.
  - apply H; simpl; [ring | lra].
  - apply H'; simpl; [ring | ring | reflexivity].
Defined.
